(** * presto-exporter: cluster discovery and statistics collection

    A shallow embedding of the two Go source files of the exporter,
    [aws/cluster_provider.go] (discovery of the clusters and of their master
    address, with a cache) and [presto/collector.go] (the Prometheus
    collector that scrapes every cluster), followed by the properties of the
    specification, proved or refuted on the embedding.

    Conventions of the embedding.
    - A Go function returning [(T, error)] returns a pair [T * option error]
      ([None] is the nil error), so that a [return Response{}, err] of the
      source is written with the very [err] the source returns.
    - The outside world (the EMR service, the coordinators' HTTP servers,
      the clock) is an explicit argument; the calls made, the log lines and
      the metrics sent are accumulated in an explicit state.
    - A pointer that the source dereferences is an [option]; dereferencing
      [None] is a run-time panic, a third outcome besides a result and an
      error. *)

From Stdlib Require Import ZArith QArith Ascii String List Lia.
From stdpp Require Import base option list gmap strings fin_maps.

Set Warnings "-register-all".

Local Open Scope string_scope.
Local Open Scope Z_scope.
Local Open Scope list_scope.

(* ===================================================================== *)
(** * Go values shared by the two packages                                *)
(* ===================================================================== *)

(** The dynamic types of the [error] values that occur.  [errorString] is
    what [errors.New] and [fmt.Errorf] build (the message is kept as the
    source formats it); the other constructors are the errors of the
    libraries: the AWS SDK, [net/http], the body reader, [encoding/json]. *)
Inductive error : Type :=
| errorString (msg : string)
| awsError (code : string) (msg : string)
| urlError (op : string) (msg : string)
| readError (msg : string)
| SyntaxError
| UnmarshalTypeError (value : string) (field : string).

#[global] Instance error_eq_dec : EqDecision error.
Proof. solve_decision. Defined.

(** [float64] values.  A finite binary64 number is represented by the
    rational it denotes, in lowest terms (the sign of zero is not kept);
    the only producer is [strconv_ParseFloat] below, which rounds as IEEE
    754 does. *)
Definition float64 : Type := Q.

(** ** UTF-8, as package [unicode/utf8] reads and writes it *)

Module utf8.

(** A rune is an [int32]; the values that occur are code points. *)
Definition rune : Type := Z.

Definition RuneError : rune := 0xFFFD.
Definition RuneSelf : Z := 0x80.
Definition MaxRune : rune := 0x10FFFF.

Definition byte_of (c : ascii) : Z := Z.of_N (N_of_ascii c).
Definition chr (b : Z) : ascii := ascii_of_N (Z.to_N b).

Fixpoint bytes (l : list Z) : string :=
  match l with
  | [] => EmptyString
  | b :: r => String (chr b) (bytes r)
  end.

(** [utf8.AppendRune]: a rune that is not a code point (negative, beyond
    [MaxRune], a surrogate half) is written as [RuneError]. *)
Definition EncodeRune (r : rune) : string :=
  if (0 <=? r) && (r <=? 0x7F) then bytes [r]
  else if (0 <=? r) && (r <=? 0x7FF) then bytes [0xC0 + r / 64; 0x80 + r mod 64]
  else if (r <? 0) || (MaxRune <? r) || ((0xD800 <=? r) && (r <=? 0xDFFF))
  then bytes [0xEF; 0xBF; 0xBD]
  else if r <=? 0xFFFF
  then bytes [0xE0 + r / 4096; 0x80 + (r / 64) mod 64; 0x80 + r mod 64]
  else bytes [0xF0 + r / 262144; 0x80 + (r / 4096) mod 64; 0x80 + (r / 64) mod 64;
              0x80 + r mod 64].

(** The table [first] of the package: what a first byte announces. *)
Inductive lead : Type :=
| single                               (* an ASCII byte *)
| invalid                              (* not the first byte of an encoding *)
| follow (size : nat) (lo hi : Z).     (* size, and the range of the second byte *)

Definition first (b : Z) : lead :=
  if b <? 0x80 then single
  else if b <? 0xC2 then invalid
  else if b <? 0xE0 then follow 2 0x80 0xBF
  else if b =? 0xE0 then follow 3 0xA0 0xBF
  else if b =? 0xED then follow 3 0x80 0x9F
  else if b <? 0xF0 then follow 3 0x80 0xBF
  else if b =? 0xF0 then follow 4 0x90 0xBF
  else if b <? 0xF4 then follow 4 0x80 0xBF
  else if b =? 0xF4 then follow 4 0x80 0x8F
  else invalid.

Definition continues (b : Z) : bool := (0x80 <=? b) && (b <=? 0xBF).

(** [utf8.DecodeRuneInString]: the first rune of [s] and its width in
    bytes; [(RuneError, 1)] when [s] does not start with an encoding. *)
Definition DecodeRuneInString (s : string) : rune * nat :=
  match s with
  | EmptyString => (RuneError, 0%nat)
  | String c0 t1 =>
      let s0 := byte_of c0 in
      match first s0 with
      | single => (s0, 1%nat)
      | invalid => (RuneError, 1%nat)
      | follow sz lo hi =>
          if (String.length s <? sz)%nat then (RuneError, 1%nat)
          else
            match t1 with
            | EmptyString => (RuneError, 1%nat)
            | String c1 t2 =>
                let s1 := byte_of c1 in
                if (s1 <? lo) || (hi <? s1) then (RuneError, 1%nat)
                else if (sz <=? 2)%nat then ((s0 mod 32) * 64 + s1 mod 64, 2%nat)
                else
                  match t2 with
                  | EmptyString => (RuneError, 1%nat)
                  | String c2 t3 =>
                      let s2 := byte_of c2 in
                      if negb (continues s2) then (RuneError, 1%nat)
                      else if (sz <=? 3)%nat
                      then ((s0 mod 16) * 4096 + (s1 mod 64) * 64 + s2 mod 64, 3%nat)
                      else
                        match t3 with
                        | EmptyString => (RuneError, 1%nat)
                        | String c3 _ =>
                            let s3 := byte_of c3 in
                            if negb (continues s3) then (RuneError, 1%nat)
                            else ((s0 mod 8) * 262144 + (s1 mod 64) * 4096
                                  + (s2 mod 64) * 64 + s3 mod 64, 4%nat)
                        end
                  end
            end
      end
  end.

(** [s[n:]] *)
Fixpoint skip (n : nat) (s : string) : string :=
  match n, s with
  | S n', String _ r => skip n' r
  | _, _ => s
  end.

(** The runes that [for _, c := range s] visits. *)
Fixpoint runes (s : string) : list rune :=
  match s with
  | EmptyString => []
  | String _ t1 =>
      let '(r, width) := DecodeRuneInString s in
      r :: match width, t1 with
           | 2%nat, String _ t2 => runes t2
           | 3%nat, String _ (String _ t3) => runes t3
           | 4%nat, String _ (String _ (String _ t4)) => runes t4
           | _, _ => runes t1
           end
  end.

End utf8.

(** ** The lower case of a rune, as package [unicode] gives it *)

Module unicode.
Import utf8.

(** An entry of the table of case ranges, lower-case column: the runes
    from [Lo] to [Hi] are lowered by adding an offset, or they alternate,
    a capital at every even place from [Lo] and its small letter after
    it. *)
Inductive delta : Type :=
| Offset (d : Z)
| UpperLower.

Record CaseRange : Type := mkCaseRange {
  Lo : rune;
  Hi : rune;
  Delta : delta
}.

Definition off (lo hi d : Z) : CaseRange := mkCaseRange lo hi (Offset d).
Definition alt (lo hi : Z) : CaseRange := mkCaseRange lo hi UpperLower.

(** The runes beyond ASCII that have a lower case other than themselves
    (Unicode 15.0.0), in increasing order. *)
Definition CaseRanges : list CaseRange :=
  [
    off 0x00C0 0x00D6 32; off 0x00D8 0x00DE 32; alt 0x0100 0x012F; off 0x0130 0x0130 (-199);
    alt 0x0132 0x0137; alt 0x0139 0x0148; alt 0x014A 0x0177; off 0x0178 0x0178 (-121);
    alt 0x0179 0x017E; off 0x0181 0x0181 210; alt 0x0182 0x0185; off 0x0186 0x0186 206;
    alt 0x0187 0x0188; off 0x0189 0x018A 205; alt 0x018B 0x018C; off 0x018E 0x018E 79;
    off 0x018F 0x018F 202; off 0x0190 0x0190 203; alt 0x0191 0x0192; off 0x0193 0x0193 205;
    off 0x0194 0x0194 207; off 0x0196 0x0196 211; off 0x0197 0x0197 209; alt 0x0198 0x0199;
    off 0x019C 0x019C 211; off 0x019D 0x019D 213; off 0x019F 0x019F 214; alt 0x01A0 0x01A5;
    off 0x01A6 0x01A6 218; alt 0x01A7 0x01A8; off 0x01A9 0x01A9 218; alt 0x01AC 0x01AD;
    off 0x01AE 0x01AE 218; alt 0x01AF 0x01B0; off 0x01B1 0x01B2 217; alt 0x01B3 0x01B6;
    off 0x01B7 0x01B7 219; alt 0x01B8 0x01B9; alt 0x01BC 0x01BD; off 0x01C4 0x01C4 2;
    alt 0x01C5 0x01C6; off 0x01C7 0x01C7 2; alt 0x01C8 0x01C9; off 0x01CA 0x01CA 2;
    alt 0x01CB 0x01DC; alt 0x01DE 0x01EF; off 0x01F1 0x01F1 2; alt 0x01F2 0x01F5;
    off 0x01F6 0x01F6 (-97); off 0x01F7 0x01F7 (-56); alt 0x01F8 0x021F;
    off 0x0220 0x0220 (-130); alt 0x0222 0x0233; off 0x023A 0x023A 10795; alt 0x023B 0x023C;
    off 0x023D 0x023D (-163); off 0x023E 0x023E 10792; alt 0x0241 0x0242;
    off 0x0243 0x0243 (-195); off 0x0244 0x0244 69; off 0x0245 0x0245 71; alt 0x0246 0x024F;
    alt 0x0370 0x0373; alt 0x0376 0x0377; off 0x037F 0x037F 116; off 0x0386 0x0386 38;
    off 0x0388 0x038A 37; off 0x038C 0x038C 64; off 0x038E 0x038F 63; off 0x0391 0x03A1 32;
    off 0x03A3 0x03AB 32; off 0x03CF 0x03CF 8; alt 0x03D8 0x03EF; off 0x03F4 0x03F4 (-60);
    alt 0x03F7 0x03F8; off 0x03F9 0x03F9 (-7); alt 0x03FA 0x03FB; off 0x03FD 0x03FF (-130);
    off 0x0400 0x040F 80; off 0x0410 0x042F 32; alt 0x0460 0x0481; alt 0x048A 0x04BF;
    off 0x04C0 0x04C0 15; alt 0x04C1 0x04CE; alt 0x04D0 0x052F; off 0x0531 0x0556 48;
    off 0x10A0 0x10C5 7264; off 0x10C7 0x10C7 7264; off 0x10CD 0x10CD 7264;
    off 0x13A0 0x13EF 38864; off 0x13F0 0x13F5 8; off 0x1C90 0x1CBA (-3008);
    off 0x1CBD 0x1CBF (-3008); alt 0x1E00 0x1E95; off 0x1E9E 0x1E9E (-7615);
    alt 0x1EA0 0x1EFF; off 0x1F08 0x1F0F (-8); off 0x1F18 0x1F1D (-8);
    off 0x1F28 0x1F2F (-8); off 0x1F38 0x1F3F (-8); off 0x1F48 0x1F4D (-8);
    off 0x1F59 0x1F59 (-8); off 0x1F5B 0x1F5B (-8); off 0x1F5D 0x1F5D (-8);
    off 0x1F5F 0x1F5F (-8); off 0x1F68 0x1F6F (-8); off 0x1F88 0x1F8F (-8);
    off 0x1F98 0x1F9F (-8); off 0x1FA8 0x1FAF (-8); off 0x1FB8 0x1FB9 (-8);
    off 0x1FBA 0x1FBB (-74); off 0x1FBC 0x1FBC (-9); off 0x1FC8 0x1FCB (-86);
    off 0x1FCC 0x1FCC (-9); off 0x1FD8 0x1FD9 (-8); off 0x1FDA 0x1FDB (-100);
    off 0x1FE8 0x1FE9 (-8); off 0x1FEA 0x1FEB (-112); off 0x1FEC 0x1FEC (-7);
    off 0x1FF8 0x1FF9 (-128); off 0x1FFA 0x1FFB (-126); off 0x1FFC 0x1FFC (-9);
    off 0x2126 0x2126 (-7517); off 0x212A 0x212A (-8383); off 0x212B 0x212B (-8262);
    off 0x2132 0x2132 28; off 0x2160 0x216F 16; alt 0x2183 0x2184; off 0x24B6 0x24CF 26;
    off 0x2C00 0x2C2F 48; alt 0x2C60 0x2C61; off 0x2C62 0x2C62 (-10743);
    off 0x2C63 0x2C63 (-3814); off 0x2C64 0x2C64 (-10727); alt 0x2C67 0x2C6C;
    off 0x2C6D 0x2C6D (-10780); off 0x2C6E 0x2C6E (-10749); off 0x2C6F 0x2C6F (-10783);
    off 0x2C70 0x2C70 (-10782); alt 0x2C72 0x2C73; alt 0x2C75 0x2C76;
    off 0x2C7E 0x2C7F (-10815); alt 0x2C80 0x2CE3; alt 0x2CEB 0x2CEE; alt 0x2CF2 0x2CF3;
    alt 0xA640 0xA66D; alt 0xA680 0xA69B; alt 0xA722 0xA72F; alt 0xA732 0xA76F;
    alt 0xA779 0xA77C; off 0xA77D 0xA77D (-35332); alt 0xA77E 0xA787; alt 0xA78B 0xA78C;
    off 0xA78D 0xA78D (-42280); alt 0xA790 0xA793; alt 0xA796 0xA7A9;
    off 0xA7AA 0xA7AA (-42308); off 0xA7AB 0xA7AB (-42319); off 0xA7AC 0xA7AC (-42315);
    off 0xA7AD 0xA7AD (-42305); off 0xA7AE 0xA7AE (-42308); off 0xA7B0 0xA7B0 (-42258);
    off 0xA7B1 0xA7B1 (-42282); off 0xA7B2 0xA7B2 (-42261); off 0xA7B3 0xA7B3 928;
    alt 0xA7B4 0xA7C3; off 0xA7C4 0xA7C4 (-48); off 0xA7C5 0xA7C5 (-42307);
    off 0xA7C6 0xA7C6 (-35384); alt 0xA7C7 0xA7CA; alt 0xA7D0 0xA7D1; alt 0xA7D6 0xA7D9;
    alt 0xA7F5 0xA7F6; off 0xFF21 0xFF3A 32; off 0x10400 0x10427 40; off 0x104B0 0x104D3 40;
    off 0x10570 0x1057A 39; off 0x1057C 0x1058A 39; off 0x1058C 0x10592 39;
    off 0x10594 0x10595 39; off 0x10C80 0x10CB2 64; off 0x118A0 0x118BF 32;
    off 0x16E40 0x16E5F 32; off 0x1E900 0x1E921 34
  ].

(** [unicode.To(LowerCase, r, caseRange)]; the package searches the
    sorted table by bisection. *)
Fixpoint to (r : rune) (caseRange : list CaseRange) : rune :=
  match caseRange with
  | [] => r
  | cr :: rest =>
      if (Lo cr <=? r) && (r <=? Hi cr) then
        match Delta cr with
        | UpperLower => Lo cr + Z.lor (r - Lo cr) 1
        | Offset d => r + d
        end
      else to r rest
  end.

Definition MaxASCII : rune := 0x7F.

Definition ToLower (r : rune) : rune :=
  if r <=? MaxASCII then
    if (0x41 <=? r) && (r <=? 0x5A) then r + 0x20 else r
  else to r CaseRanges.

End unicode.

(** ** [strings.ToLower] *)

Definition lower_ascii (c : ascii) : ascii :=
  let n := nat_of_ascii c in
  if (65 <=? n)%nat && (n <=? 90)%nat then ascii_of_nat (n + 32) else c.

Fixpoint isASCII (s : string) : bool :=
  match s with
  | EmptyString => true
  | String c r => (utf8.byte_of c <? utf8.RuneSelf) && isASCII r
  end.

Fixpoint lower_bytes (s : string) : string :=
  match s with
  | EmptyString => EmptyString
  | String c r => String (lower_ascii c) (lower_bytes r)
  end.

(** [strings.Map(mapping, s)]: the runes of [s] are mapped one by one and
    written out; a rune mapped to a negative value is dropped. *)
Definition strings_Map (mapping : utf8.rune -> utf8.rune) (s : string) : string :=
  fold_right
    (fun c out => let r := mapping c in if r <? 0 then out else utf8.EncodeRune r +:+ out)
    EmptyString (utf8.runes s).

(** A text of ASCII bytes is lowered byte by byte, any other text rune by
    rune. *)
Definition strings_ToLower (s : string) : string :=
  if isASCII s then lower_bytes s else strings_Map unicode.ToLower s.





(* ===================================================================== *)
(** * encoding/json, as far as [json.Unmarshal(body, &response)] uses it   *)
(* ===================================================================== *)

(** The decoder of the standard library, restated: the text is split into
    tokens, the tokens are checked against the grammar of JSON and built
    into a value, the value is stored into the struct.  One limit of the
    library is left out: it refuses a text nested deeper than 10000
    levels. *)

Module json.
Import utf8.

(** ** Tokens *)

Inductive token : Type :=
| TLBrace | TRBrace | TLBrack | TRBrack | TColon | TComma
| TString (s : string)
| TNumber (lit : string)
| TTrue | TFalse | TNull.

(** The double quote. *)
Definition quote : ascii := ascii_of_nat 34.

Definition is_space (c : ascii) : bool :=
  let n := nat_of_ascii c in
  ((n =? 32) || (n =? 9) || (n =? 10) || (n =? 13))%nat.

Definition is_digit (c : ascii) : bool :=
  let n := nat_of_ascii c in ((48 <=? n) && (n <=? 57))%nat.

Definition is_lower (c : ascii) : bool :=
  let n := nat_of_ascii c in ((97 <=? n) && (n <=? 122))%nat.

(** Characters that may continue a number once it has started. *)
Definition is_number_char (c : ascii) : bool :=
  is_digit c ||
  let n := nat_of_ascii c in
  ((n =? 43) || (n =? 45) || (n =? 46) || (n =? 101) || (n =? 69))%nat.

Definition hex_value (c : ascii) : option N :=
  let n := N_of_ascii c in
  if ((48 <=? n) && (n <=? 57))%N then Some (n - 48)%N
  else if ((97 <=? n) && (n <=? 102))%N then Some (n - 87)%N
  else if ((65 <=? n) && (n <=? 70))%N then Some (n - 55)%N
  else None.

(** ** The number grammar
    An optional minus sign; the integer part, a single 0 or digits that
    do not start with 0; an optional fraction, a dot and one digit or
    more; an optional exponent, e or E, an optional sign and one digit
    or more. *)

Fixpoint span_digits (s : string) : string * string :=
  match s with
  | String c r =>
      if is_digit c then let (d, r') := span_digits r in (String c d, r')
      else (EmptyString, s)
  | EmptyString => (EmptyString, EmptyString)
  end.

Record number : Type := Number {
  negative : bool;
  int_digits : string;
  frac_digits : string;
  exponent : Z
}.

Fixpoint digits_value (acc : Z) (s : string) : Z :=
  match s with
  | EmptyString => acc
  | String c r => digits_value (10 * acc + (Z.of_nat (nat_of_ascii c) - 48)) r
  end.

Definition scan_exponent (s : string) : option Z :=
  match s with
  | EmptyString => Some 0
  | String e r =>
      if ((nat_of_ascii e =? 101) || (nat_of_ascii e =? 69))%nat then
        let '(sign, r1) :=
          match r with
          | String "+"%char r' => (1, r')
          | String "-"%char r' => (-1, r')
          | _ => (1, r)
          end in
        match span_digits r1 with
        | (EmptyString, _) => None
        | (ds, EmptyString) => Some (sign * digits_value 0 ds)
        | (_, String _ _) => None
        end
      else None
  end.

Definition scan_fraction (s : string) : option (string * string) :=
  match s with
  | String "."%char r =>
      match span_digits r with
      | (EmptyString, _) => None
      | (ds, r') => Some (ds, r')
      end
  | _ => Some (EmptyString, s)
  end.

Definition scan_number (lit : string) : option number :=
  let '(neg, s) :=
    match lit with
    | String "-"%char r => (true, r)
    | _ => (false, lit)
    end in
  match span_digits s with
  | (EmptyString, _) => None
  | (ds, r) =>
      match ds with
      | String "0"%char (String _ _) => None
      | _ =>
          match scan_fraction r with
          | None => None
          | Some (fs, r') =>
              match scan_exponent r' with
              | None => None
              | Some e => Some (Number neg ds fs e)
              end
          end
      end
  end.

(** ** The tokenizer: a machine that reads one byte at a time *)

Inductive mode : Type :=
| Between
| InString (acc : string)
| InEscape (acc : string)
| InUnicode (acc : string) (hex : list N)
| InNumber (acc : string)
| InWord (acc : string).

Definition snoc (s : string) (c : ascii) : string := s +:+ String c EmptyString.

(** The bytes a [\uXXXX] escape stands for: the character itself below
    128, else its UTF-8 encoding (a surrogate half is replaced by
    U+FFFD). *)
Definition unicode_bytes (cp : N) : string :=
  let byte (n : N) := String (ascii_of_N n) EmptyString in
  if (cp <? 128)%N then byte cp
  else if (cp <? 2048)%N then
    byte (192 + cp / 64)%N +:+ byte (128 + cp mod 64)%N
  else if ((55296 <=? cp) && (cp <=? 57343))%N then
    byte 239%N +:+ byte 191%N +:+ byte 189%N
  else
    byte (224 + cp / 4096)%N +:+ byte (128 + (cp / 64) mod 64)%N
      +:+ byte (128 + cp mod 64)%N.

Definition word_token (w : string) : option token :=
  if String.eqb w "true" then Some TTrue
  else if String.eqb w "false" then Some TFalse
  else if String.eqb w "null" then Some TNull
  else None.

(** A byte met between two tokens. *)
Definition start (c : ascii) : option (mode * list token) :=
  if is_space c then Some (Between, [])
  else if Ascii.eqb c "{" then Some (Between, [TLBrace])
  else if Ascii.eqb c "}" then Some (Between, [TRBrace])
  else if Ascii.eqb c "[" then Some (Between, [TLBrack])
  else if Ascii.eqb c "]" then Some (Between, [TRBrack])
  else if Ascii.eqb c ":" then Some (Between, [TColon])
  else if Ascii.eqb c "," then Some (Between, [TComma])
  else if Ascii.eqb c quote then Some (InString EmptyString, [])
  else if Ascii.eqb c "-" || is_digit c then Some (InNumber (String c EmptyString), [])
  else if is_lower c then Some (InWord (String c EmptyString), [])
  else None.

Definition escaped (c : ascii) : option ascii :=
  if Ascii.eqb c quote then Some quote
  else if Ascii.eqb c "\" then Some "\"%char
  else if Ascii.eqb c "/" then Some "/"%char
  else if Ascii.eqb c "b" then Some (ascii_of_nat 8)
  else if Ascii.eqb c "f" then Some (ascii_of_nat 12)
  else if Ascii.eqb c "n" then Some (ascii_of_nat 10)
  else if Ascii.eqb c "r" then Some (ascii_of_nat 13)
  else if Ascii.eqb c "t" then Some (ascii_of_nat 9)
  else None.

(** One step: the new mode and the tokens completed by this byte. *)
Definition step (m : mode) (c : ascii) : option (mode * list token) :=
  match m with
  | Between => start c
  | InString acc =>
      if Ascii.eqb c quote then Some (Between, [TString acc])
      else if Ascii.eqb c "\" then Some (InEscape acc, [])
      else if (nat_of_ascii c <? 32)%nat then None
      else Some (InString (snoc acc c), [])
  | InEscape acc =>
      if Ascii.eqb c "u" then Some (InUnicode acc [], [])
      else match escaped c with
           | Some c' => Some (InString (snoc acc c'), [])
           | None => None
           end
  | InUnicode acc hex =>
      match hex_value c with
      | None => None
      | Some h =>
          match hex with
          | [a; b; d] =>
              Some (InString (acc +:+ unicode_bytes (((a * 16 + b) * 16 + d) * 16 + h)%N), [])
          | _ => Some (InUnicode acc (hex ++ [h]), [])
          end
      end
  | InNumber acc =>
      if is_number_char c then Some (InNumber (snoc acc c), [])
      else match scan_number acc, start c with
           | Some _, Some (m', ts) => Some (m', TNumber acc :: ts)
           | _, _ => None
           end
  | InWord acc =>
      if is_lower c then Some (InWord (snoc acc c), [])
      else match word_token acc, start c with
           | Some t, Some (m', ts) => Some (m', t :: ts)
           | _, _ => None
           end
  end.

(** End of input. *)
Definition finish (m : mode) : option (list token) :=
  match m with
  | Between => Some []
  | InNumber acc =>
      match scan_number acc with Some _ => Some [TNumber acc] | None => None end
  | InWord acc =>
      match word_token acc with Some t => Some [t] | None => None end
  | InString _ | InEscape _ | InUnicode _ _ => None
  end.

Fixpoint tokens_from (m : mode) (s : string) : option (list token) :=
  match s with
  | EmptyString => finish m
  | String c r =>
      match step m c with
      | None => None
      | Some (m', ts) =>
          match tokens_from m' r with
          | None => None
          | Some ts' => Some (ts ++ ts')
          end
      end
  end.

Definition tokenize (s : string) : option (list token) := tokens_from Between s.

(** ** Values *)

Inductive Value : Type :=
| VNull
| VBool (b : bool)
| VNumber (lit : string)
| VString (s : string)
| VArray (elems : list Value)
| VObject (members : list (string * Value)).

(** A container that is being read: an array with the elements read so
    far, or an object with its members and the key whose value is
    awaited (both most recent first). *)
Inductive frame : Type :=
| FArray (acc : list Value)
| FObject (acc : list (string * Value)) (key : option string).

Inductive expect : Type :=
| EValue          (* a value *)
| EValueOrClose   (* just after [: a value or ] *)
| EKeyOrClose     (* just after {: a key or } *)
| EKey            (* after a comma in an object: a key *)
| EColon          (* after a key *)
| EAfter          (* after a member or an element: a comma or the close *)
| EDone (v : Value).

Definition pstate : Type := expect * list frame.

(** A value is complete: it is the whole text, or it goes into the
    container on top of the stack. *)
Definition complete (v : Value) (stk : list frame) : option pstate :=
  match stk with
  | [] => Some (EDone v, [])
  | FArray acc :: r => Some (EAfter, FArray (v :: acc) :: r)
  | FObject acc (Some k) :: r => Some (EAfter, FObject ((k, v) :: acc) None :: r)
  | FObject _ None :: _ => None
  end.

Definition value_token (t : token) (stk : list frame) : option pstate :=
  match t with
  | TNull => complete VNull stk
  | TTrue => complete (VBool true) stk
  | TFalse => complete (VBool false) stk
  | TNumber lit => complete (VNumber lit) stk
  | TString s => complete (VString s) stk
  | TLBrack => Some (EValueOrClose, FArray [] :: stk)
  | TLBrace => Some (EKeyOrClose, FObject [] None :: stk)
  | TRBrace | TRBrack | TColon | TComma => None
  end.

Definition key_token (t : token) (stk : list frame) : option pstate :=
  match t, stk with
  | TString k, FObject acc None :: r => Some (EColon, FObject acc (Some k) :: r)
  | _, _ => None
  end.

Definition close_token (t : token) (stk : list frame) : option pstate :=
  match t, stk with
  | TRBrack, FArray acc :: r => complete (VArray (rev acc)) r
  | TRBrace, FObject acc None :: r => complete (VObject (rev acc)) r
  | _, _ => None
  end.

Definition pstep (st : pstate) (t : token) : option pstate :=
  let '(e, stk) := st in
  match e with
  | EValue => value_token t stk
  | EValueOrClose =>
      match t with TRBrack => close_token t stk | _ => value_token t stk end
  | EKeyOrClose =>
      match t with TRBrace => close_token t stk | _ => key_token t stk end
  | EKey => key_token t stk
  | EColon => match t with TColon => Some (EValue, stk) | _ => None end
  | EAfter =>
      match t, stk with
      | TComma, FArray _ :: _ => Some (EValue, stk)
      | TComma, FObject _ None :: _ => Some (EKey, stk)
      | _, _ => close_token t stk
      end
  | EDone _ => None
  end.

Fixpoint prun (st : pstate) (ts : list token) : option pstate :=
  match ts with
  | [] => Some st
  | t :: r => match pstep st t with Some st' => prun st' r | None => None end
  end.

(** The whole text is one JSON value, or it is not valid. *)
Definition parse (s : string) : option Value :=
  match tokenize s with
  | None => None
  | Some ts =>
      match prun (EValue, []) ts with
      | Some (EDone v, []) => Some v
      | _ => None
      end
  end.

(** ** [strconv.ParseFloat(lit, 64)] on a literal of the grammar *)

(** The binary64 number nearest to [n/d] ([n], [d] positive), ties to
    even; [None] when it is out of range. *)
Definition round_binary64 (n d : Z) : option Q :=
  let e1 := Z.log2 n - Z.log2 d - 52 in
  let scaled (e : Z) : Z * Z :=
    if 0 <=? e then (n, d * 2 ^ e) else (n * 2 ^ (- e), d) in
  let e2 := let '(a, b) := scaled e1 in if a / b <? 2 ^ 52 then e1 - 1 else e1 in
  let e := Z.max e2 (-1074) in
  let '(a, b) := scaled e in
  let q := a / b in
  let r := a mod b in
  let q' :=
    match 2 * r ?= b with
    | Gt => q + 1
    | Eq => if Z.odd q then q + 1 else q
    | Lt => q
    end in
  if 2 ^ 1024 <=? q' * 2 ^ (Z.max e 0) then None
  else if 0 <=? e then Some (inject_Z (q' * 2 ^ e))
  else Some (Qred (Qmake q' (Z.to_pos (2 ^ (- e))))).

Definition strconv_ParseFloat (lit : string) : option float64 :=
  match scan_number lit with
  | None => None
  | Some num =>
      let m := digits_value 0 (int_digits num +:+ frac_digits num) in
      let e10 := exponent num - Z.of_nat (String.length (frac_digits num)) in
      if m =? 0 then Some 0%Q
      else
        let '(n, d) := if 0 <=? e10 then (m * 10 ^ e10, 1) else (m, 10 ^ (- e10)) in
        match round_binary64 n d with
        | None => None
        | Some q => Some (if negative num then Qred (Qopp q) else q)
        end
  end.

(** ** Matching a key with the name of a field ([fold.go]) *)

Definition caseMask (b : Z) : Z := Z.land b 0xDF.
Definition kelvin : rune := 0x212A.
Definition smallLongEss : rune := 0x17F.

Definition upper_letter (b : Z) : bool := (0x41 <=? b) && (b <=? 0x5A).

(** [equalFoldRight(s, t)], for a name [s] of ASCII bytes that has an s or
    a k: in the key [t] the long s stands for an s and the Kelvin sign for
    a k. *)
Fixpoint equalFoldRight (s t : string) : bool :=
  match s with
  | EmptyString => match t with EmptyString => true | _ => false end
  | String sc s' =>
      match t with
      | EmptyString => false
      | String tc t' =>
          let sb := byte_of sc in
          let tb := byte_of tc in
          if tb <? RuneSelf then
            if sb =? tb then equalFoldRight s' t'
            else if upper_letter (caseMask sb) && (caseMask sb =? caseMask tb)
            then equalFoldRight s' t'
            else false
          else
            let '(tr, size) := DecodeRuneInString t in
            if (sb =? 0x73) || (sb =? 0x53) then
              if tr =? smallLongEss then equalFoldRight s' (skip size t) else false
            else if (sb =? 0x6B) || (sb =? 0x4B) then
              if tr =? kelvin then equalFoldRight s' (skip size t) else false
            else false
      end
  end.

(** [asciiEqualFold(s, t)], for a name of ASCII bytes, not all letters,
    without s or k. *)
Fixpoint asciiEqualFold_range (s t : string) : bool :=
  match s, t with
  | String sc s', String tc t' =>
      let sb := byte_of sc in
      let tb := byte_of tc in
      if sb =? tb then asciiEqualFold_range s' t'
      else if upper_letter (caseMask sb) && (caseMask sb =? caseMask tb)
      then asciiEqualFold_range s' t'
      else false
  | _, _ => true
  end.

Definition asciiEqualFold (s t : string) : bool :=
  Nat.eqb (String.length s) (String.length t) && asciiEqualFold_range s t.

(** [simpleLetterEqualFold(s, t)], for a name of ASCII letters without s
    or k. *)
Fixpoint simpleLetterEqualFold_range (s t : string) : bool :=
  match s, t with
  | String sc s', String tc t' =>
      (caseMask (byte_of sc) =? caseMask (byte_of tc)) && simpleLetterEqualFold_range s' t'
  | _, _ => true
  end.

Definition simpleLetterEqualFold (s t : string) : bool :=
  Nat.eqb (String.length s) (String.length t) && simpleLetterEqualFold_range s t.

(** The scan of [foldFunc]: [None] when the name has a byte beyond ASCII,
    else whether it has a byte that is not a letter and whether it has an
    s or a k. *)
Fixpoint foldFunc_range (s : string) (nonLetter special : bool) : option (bool * bool) :=
  match s with
  | EmptyString => Some (nonLetter, special)
  | String c r =>
      let b := byte_of c in
      if RuneSelf <=? b then None
      else
        let upper := caseMask b in
        if negb (upper_letter upper) then foldFunc_range r true special
        else if (upper =? 0x4B) || (upper =? 0x53) then foldFunc_range r nonLetter true
        else foldFunc_range r nonLetter special
  end.

(** ** Decoding into a struct of [float64] fields

    [fields] are the exported fields of the struct with their JSON
    names, [set] stores a number into one of them.  A key selects the
    field whose name it equals, else the first field whose name it
    matches by the comparison that [foldFunc] chooses for that name
    (encoding/json up to Go 1.20; the later versions fold the key and the
    name through the tables of Unicode, with the same result on a name of
    ASCII letters); a key that selects no field is skipped.  A number is
    stored; [null] leaves the field as it is; any other value, and a
    number out of range, is an [UnmarshalTypeError]: the first one is kept
    and returned at the end, the decoding goes on. *)

Section Decode.
Context {S F : Type}.
(** [bytes.EqualFold], which compares through the fold tables of Unicode
    and which [foldFunc] chooses for a name that has a byte beyond ASCII:
    a parameter. *)
Variable bytes_EqualFold : string -> string -> bool.
Variable fields : list (string * F).
Variable set : F -> float64 -> S -> S.

Definition foldFunc (s : string) : string -> string -> bool :=
  match foldFunc_range s false false with
  | None => bytes_EqualFold
  | Some (nonLetter, special) =>
      if special then equalFoldRight
      else if nonLetter then asciiEqualFold
      else simpleLetterEqualFold
  end.

Definition find_field (key : string) : option (string * F) :=
  match List.find (fun f => String.eqb (fst f) key) fields with
  | Some f => Some f
  | None => List.find (fun f => foldFunc (fst f) (fst f) key) fields
  end.

Definition saveError (saved : option error) (e : error) : option error :=
  match saved with
  | None => Some e
  | Some _ => saved
  end.

Definition store (name : string) (f : F) (v : Value) (acc : S * option error)
  : S * option error :=
  let '(s, saved) := acc in
  match v with
  | VNull => (s, saved)
  | VNumber lit =>
      match strconv_ParseFloat lit with
      | Some x => (set f x s, saved)
      | None => (s, saveError saved (UnmarshalTypeError ("number " +:+ lit) name))
      end
  | VBool _ => (s, saveError saved (UnmarshalTypeError "bool" name))
  | VString _ => (s, saveError saved (UnmarshalTypeError "string" name))
  | VArray _ => (s, saveError saved (UnmarshalTypeError "array" name))
  | VObject _ => (s, saveError saved (UnmarshalTypeError "object" name))
  end.

Fixpoint object (members : list (string * Value)) (acc : S * option error)
  : S * option error :=
  match members with
  | [] => acc
  | (k, v) :: r =>
      match find_field k with
      | Some (name, f) => object r (store name f v acc)
      | None => object r acc
      end
  end.

(** [json.Unmarshal(data, &s)]: the text is checked first, then decoded
    into [s]. *)
Definition Unmarshal (data : string) (s : S) : S * option error :=
  match parse data with
  | None => (s, Some SyntaxError)
  | Some VNull => (s, None)
  | Some (VObject members) => object members (s, None)
  | Some (VBool _) => (s, Some (UnmarshalTypeError "bool" ""))
  | Some (VNumber _) => (s, Some (UnmarshalTypeError "number" ""))
  | Some (VString _) => (s, Some (UnmarshalTypeError "string" ""))
  | Some (VArray _) => (s, Some (UnmarshalTypeError "array" ""))
  end.
End Decode.

End json.

(* ===================================================================== *)
(** * The Prometheus client, as far as the collector uses it              *)
(* ===================================================================== *)

Module prometheus.

Record Desc : Type := NewDesc {
  fqName : string;
  help : string;
  variableLabels : list string
}.

(** [prometheus.BuildFQName]: the non-empty parts joined by an
    underscore; no name, no result. *)
Definition BuildFQName (namespace subsystem name : string) : string :=
  if String.eqb name "" then ""
  else if negb (String.eqb namespace "") && negb (String.eqb subsystem "")
       then namespace +:+ "_" +:+ subsystem +:+ "_" +:+ name
  else if negb (String.eqb namespace "") then namespace +:+ "_" +:+ name
  else if negb (String.eqb subsystem "") then subsystem +:+ "_" +:+ name
  else name.

Inductive ValueType : Type := CounterValue | GaugeValue | UntypedValue.

(** A constant metric.  [MustNewConstMetric] panics when the number of
    label values differs from the number of labels of the descriptor, or
    when a label value is not valid UTF-8; every call of the collector
    gives one value, a cluster name, to a one-label descriptor, and names
    are taken to be valid text, so the constructor is total here. *)
Record Metric : Type := MustNewConstMetric {
  desc : Desc;
  valueType : ValueType;
  value : float64;
  labelValues : list string
}.

End prometheus.

(* ===================================================================== *)
(** * The cluster description exchanged between the two packages          *)
(* ===================================================================== *)

(** Modelled from the spec: the declarations of [ClusterInfo], of its
    [Distribution] field and of the constants [DistSql] and [DistDb] are
    not among the sources, which only use them.  The spec gives the record
    a coordinator URL and a variant that is one of two dialects, Direct
    ([DistDb], scraped by [statsFromPrestoDB]) and Authenticated ([DistSql],
    scraped by [statsFromPrestoSQL]).  [statisticsFromCluster] has a third,
    default branch that prints the value with the verb [%s]: the type is
    string-like and has values besides the two constants, here
    [DistOther s], [s] being the text.  [DistOther ""] is the zero value,
    the one Go gives to a field that a composite literal leaves out. *)
Inductive PrestoDistribution : Type :=
| DistSql
| DistDb
| DistOther (s : string).

#[global] Instance PrestoDistribution_eq_dec : EqDecision PrestoDistribution.
Proof. solve_decision. Defined.

Record ClusterInfo : Type := mkClusterInfo {
  Host : string;
  Distribution : PrestoDistribution
}.

#[global] Instance ClusterInfo_eq_dec : EqDecision ClusterInfo.
Proof. solve_decision. Defined.

(** Go leaves the order in which [range] visits a map unspecified: a loop
    over a map takes the enumeration as a parameter, and [visits] is what
    the language guarantees of it. *)
Definition visits {V : Type} (range : gmap string V -> list (string * V)) : Prop :=
  forall m, range m ≡ₚ map_to_list m.

(* ===================================================================== *)
(** * presto/collector.go                                                 *)
(* ===================================================================== *)

Module presto.
Import prometheus.

Definition namespace : string := "presto_cluster".

Definition runningQueries : Desc :=
  NewDesc (BuildFQName namespace "" "running_queries")
          "Running requests of the presto cluster." ["cluster_name"].
Definition blockedQueries : Desc :=
  NewDesc (BuildFQName namespace "" "blocked_queries")
          "Blocked queries of the presto cluster." ["cluster_name"].
Definition queuedQueries : Desc :=
  NewDesc (BuildFQName namespace "" "queued_queries")
          "Queued queries of the presto cluster." ["cluster_name"].
Definition activeWorkers : Desc :=
  NewDesc (BuildFQName namespace "" "active_workers")
          "Active workers of the presto cluster." ["cluster_name"].
Definition runningDrivers : Desc :=
  NewDesc (BuildFQName namespace "" "running_drivers")
          "Running drivers of the presto cluster." ["cluster_name"].
Definition reservedMemory : Desc :=
  NewDesc (BuildFQName namespace "" "reserved_memory")
          "Reserved memory of the presto cluster." ["cluster_name"].
Definition totalInputRows : Desc :=
  NewDesc (BuildFQName namespace "" "total_input_rows")
          "Total input rows of the presto cluster." ["cluster_name"].
Definition totalInputBytes : Desc :=
  NewDesc (BuildFQName namespace "" "total_input_bytes")
          "Total input bytes of the presto cluster." ["cluster_name"].
Definition totalCpuTimeSecs : Desc :=
  NewDesc (BuildFQName namespace "" "total_cpu_time_secs")
          "Total cpu time of the presto cluster." ["cluster_name"].
Definition up : Desc :=
  NewDesc (BuildFQName namespace "" "up")
          "Presto health check." ["cluster_name"].

(** ** The HTTP client *)

Record Request : Type := mkRequest {
  Method : string;
  URL : string;
  ReqHeader : list (string * string);
  ReqBody : string
}.

#[global] Instance Request_eq_dec : EqDecision Request.
Proof. solve_decision. Defined.

(** A response as the collector reads it: the status, the header fields
    (canonical names, in the order received) and what
    [ioutil.ReadAll(resp.Body)] returns. *)
Record HttpResponse : Type := mkResponse {
  StatusCode : Z;
  Header : list (string * string);
  Body : string * option error
}.

(** [resp.Header.Get(key)]: the first value of the field, the empty
    string when there is none. *)
Fixpoint Header_Get (h : list (string * string)) (key : string) : string :=
  match h with
  | [] => ""
  | (k, v) :: r => if String.eqb k key then v else Header_Get r key
  end.

(** The client of [NewCollector]: a timeout of ten seconds, and
    [CheckRedirect] returns [http.ErrUseLastResponse], so a redirect is
    handed back as the response.  [Do] is the outcome of sending a
    request, a response or an error (time-out, refused connection), never
    both; [parseError] is the verdict of [net/url] on the URL text, the
    error that [http.NewRequest] returns. *)
Record Client : Type := mkClient {
  Do : Request -> HttpResponse + error;
  parseError : string -> option error
}.

(** What [c.clusterProvider.Provide()] returns in the cycle at hand. *)
Record Collector : Type := NewCollector {
  clusterProvider : gmap string ClusterInfo * option error;
  client : Client
}.

(** ** State: what a cycle leaves behind *)

Record World : Type := mkWorld {
  requests : list Request;           (* the requests sent, in order *)
  logged : list error;               (* the errors logged by logrus *)
  out : list Metric                  (* the metrics sent on the channel *)
}.

Definition M (A : Type) : Type := World -> A * World.

#[global] Instance M_ret : MRet M := fun A (a : A) w => (a, w).
#[global] Instance M_bind : MBind M :=
  fun A B (f : A -> M B) (m : M A) w => let '(a, w') := m w in f a w'.

Definition send (m : Metric) : M unit :=
  fun w => (tt, mkWorld (requests w) (logged w) (out w ++ [m])).

Definition logrus_Error (e : error) : M unit :=
  fun w => (tt, mkWorld (requests w) (logged w ++ [e]) (out w)).

(** [http.NewRequest(method, url, nil)] *)
Definition http_NewRequest (cl : Client) (method url : string)
  : Request * option error :=
  match parseError cl url with
  | Some e => (mkRequest "" "" [] "", Some e)
  | None => (mkRequest method url [] "", None)
  end.

(** [c.client.Do(req)]: the request goes out and is recorded. *)
Definition client_Do (cl : Client) (req : Request) : M (HttpResponse + error) :=
  fun w => (Do cl req, mkWorld (requests w ++ [req]) (logged w) (out w)).

(** [c.client.Get(url)] *)
Definition client_Get (cl : Client) (url : string) : M (HttpResponse + error) :=
  match http_NewRequest cl "GET" url with
  | (_, Some e) => mret (inr e)
  | (req, None) => client_Do cl req
  end.

(** [c.client.Post(url, contentType, body)] *)
Definition client_Post (cl : Client) (url contentType body : string)
  : M (HttpResponse + error) :=
  match http_NewRequest cl "POST" url with
  | (_, Some e) => mret (inr e)
  | (req, None) =>
      client_Do cl (mkRequest (Method req) (URL req)
                              [("Content-Type", contentType)] body)
  end.

(** ** The statistics of a coordinator *)

Record Response : Type := mkStats {
  uri : string;
  RunningQueries : float64;
  BlockedQueries : float64;
  QueuedQueries : float64;
  ActiveWorkers : float64;
  RunningDrivers : float64;
  ReservedMemory : float64;
  TotalInputRows : float64;
  TotalInputBytes : float64;
  TotalCpuTimeSecs : float64
}.

(** [Response{}] *)
Definition Response0 : Response := mkStats "" 0%Q 0%Q 0%Q 0%Q 0%Q 0%Q 0%Q 0%Q 0%Q.

Inductive field : Type :=
| FRunningQueries | FBlockedQueries | FQueuedQueries | FActiveWorkers
| FRunningDrivers | FReservedMemory | FTotalInputRows | FTotalInputBytes
| FTotalCpuTimeSecs.

(** The exported fields with the names of their [json] tags; [uri] is not
    exported and is never decoded. *)
Definition fields : list (string * field) :=
  [ ("runningQueries", FRunningQueries);
    ("blockedQueries", FBlockedQueries);
    ("queuedQueries", FQueuedQueries);
    ("activeWorkers", FActiveWorkers);
    ("runningDrivers", FRunningDrivers);
    ("reservedMemory", FReservedMemory);
    ("totalInputRows", FTotalInputRows);
    ("totalInputBytes", FTotalInputBytes);
    ("totalCpuTimeSecs", FTotalCpuTimeSecs) ].

Definition set (f : field) (x : float64) (r : Response) : Response :=
  let '(mkStats u rq bq qq aw rd rm ir ib ct) := r in
  match f with
  | FRunningQueries => mkStats u x bq qq aw rd rm ir ib ct
  | FBlockedQueries => mkStats u rq x qq aw rd rm ir ib ct
  | FQueuedQueries => mkStats u rq bq x aw rd rm ir ib ct
  | FActiveWorkers => mkStats u rq bq qq x rd rm ir ib ct
  | FRunningDrivers => mkStats u rq bq qq aw x rm ir ib ct
  | FReservedMemory => mkStats u rq bq qq aw rd x ir ib ct
  | FTotalInputRows => mkStats u rq bq qq aw rd rm x ib ct
  | FTotalInputBytes => mkStats u rq bq qq aw rd rm ir x ct
  | FTotalCpuTimeSecs => mkStats u rq bq qq aw rd rm ir ib x
  end.

(** [json.Unmarshal(body, &response)] with [var response Response].  The
    nine names are ASCII letters: the comparison that the decoder takes for
    a name with a byte beyond ASCII is never called, and any function can
    be given for it. *)
Definition json_Unmarshal (body : string) : Response * option error :=
  json.Unmarshal (fun _ _ => false) fields set body Response0.

Definition statsFromPrestoDB (c : Collector) (cluster : ClusterInfo)
  : M (Response * option error) :=
  let url := Host cluster +:+ "/v1/cluster" in
  r ← client_Get (client c) url;
  match r with
  | inr e => mret (Response0, Some e)
  | inl resp =>
      (* from here on the variable err of the source holds nil *)
      let err : option error := None in
      if negb (StatusCode resp =? 200) then mret (Response0, err)
      else
        let '(body, err) := Body resp in
        match err with
        | Some e => logrus_Error e;; mret (Response0, err)
        | None =>
            let '(response, err) := json_Unmarshal body in
            mret (response, err)
        end
  end.

Definition login (c : Collector) (cluster : ClusterInfo) : M (string * option error) :=
  let loginUrl := Host cluster +:+ "/ui/login" in
  let contentType := "application/x-www-form-urlencoded" in
  let userName := "exporter" in
  let body := "username=" +:+ userName +:+ "&password=&redirectPath=" in
  r ← client_Post (client c) loginUrl contentType body;
  match r with
  | inr e => mret ("", Some e)
  | inl resp =>
      let cookie := Header_Get (Header resp) "Set-Cookie" in
      if String.eqb cookie "" then
        mret ("", Some (errorString "no Set-Cookie header present in response"))
      else mret (cookie, None)
  end.

Definition statsFromPrestoSQL (c : Collector) (cluster : ClusterInfo)
  : M (Response * option error) :=
  '(login, err) ← login c cluster;
  match err with
  | Some _ => mret (Response0, err)
  | None =>
      let apiStatsUrl := Host cluster +:+ "/ui/api/stats" in
      let '(req, err) := http_NewRequest (client c) "GET" apiStatsUrl in
      match err with
      | Some _ => mret (Response0, err)
      | None =>
          let req := mkRequest (Method req) (URL req) [("Cookie", login)] (ReqBody req) in
          r ← client_Do (client c) req;
          match r with
          | inr e => mret (Response0, Some e)
          | inl resp =>
              let '(body, err) := Body resp in
              match err with
              | Some _ => mret (Response0, err)
              | None =>
                  let '(response, err) := json_Unmarshal body in
                  match err with
                  | Some _ => mret (Response0, err)
                  | None => mret (response, None)
                  end
              end
          end
      end
  end.

Definition statisticsFromCluster (c : Collector) (cluster : ClusterInfo)
  : M (Response * option error) :=
  match Distribution cluster with
  | DistSql => statsFromPrestoSQL c cluster
  | DistDb => statsFromPrestoDB c cluster
  | DistOther s =>
      mret (Response0, Some (errorString ("unsupported distribution " +:+ s)))
  end.

(** The body of the loop of [Collect], for one entry of the map. *)
Definition collect_cluster (c : Collector) (entry : string * ClusterInfo) : M unit :=
  let '(name, cluster) := entry in
  '(response, err) ← statisticsFromCluster c cluster;
  let labelValues := [name] in
  match err with
  | Some e =>
      logrus_Error e;;
      send (MustNewConstMetric up GaugeValue 0%Q labelValues)
  | None =>
      send (MustNewConstMetric runningQueries GaugeValue (RunningQueries response) labelValues);;
      send (MustNewConstMetric blockedQueries GaugeValue (BlockedQueries response) labelValues);;
      send (MustNewConstMetric queuedQueries GaugeValue (QueuedQueries response) labelValues);;
      send (MustNewConstMetric activeWorkers GaugeValue (ActiveWorkers response) labelValues);;
      send (MustNewConstMetric runningDrivers GaugeValue (RunningDrivers response) labelValues);;
      send (MustNewConstMetric reservedMemory GaugeValue (ReservedMemory response) labelValues);;
      send (MustNewConstMetric totalInputRows GaugeValue (TotalInputRows response) labelValues);;
      send (MustNewConstMetric totalInputBytes GaugeValue (TotalInputBytes response) labelValues);;
      send (MustNewConstMetric totalCpuTimeSecs GaugeValue (TotalCpuTimeSecs response) labelValues);;
      send (MustNewConstMetric up GaugeValue 1%Q labelValues)
  end.

Fixpoint for_range (entries : list (string * ClusterInfo))
         (body : string * ClusterInfo -> M unit) : M unit :=
  match entries with
  | [] => mret tt
  | e :: r => body e;; for_range r body
  end.

Definition Collect (c : Collector)
           (range : gmap string ClusterInfo -> list (string * ClusterInfo)) : M unit :=
  let '(clusters, err) := clusterProvider c in
  match err with
  | Some e => logrus_Error e
  | None => for_range (range clusters) (collect_cluster c)
  end.

(** [Describe]: the ten descriptors go out on the channel, in this order. *)
Definition Describe (c : Collector) (ch : list Desc) : list Desc :=
  ch ++ [ runningQueries; blockedQueries; queuedQueries; activeWorkers; runningDrivers;
          reservedMemory; totalInputRows; totalInputBytes; totalCpuTimeSecs; up ].

End presto.

(* ===================================================================== *)
(** * The AWS SDK and go-cache, as far as the provider uses them          *)
(* ===================================================================== *)

(** The EMR types of the SDK.  Every field is a pointer in Go; the fields
    that the provider dereferences, or passes on, are options here. *)
Module emr.

Definition InstanceCollectionTypeInstanceFleet : string := "INSTANCE_FLEET".
Definition InstanceCollectionTypeInstanceGroup : string := "INSTANCE_GROUP".
Definition InstanceFleetTypeMaster : string := "MASTER".
Definition InstanceGroupTypeMaster : string := "MASTER".

Record Application : Type := mkApplication {
  Application_Name : option string
}.

Record Cluster : Type := mkCluster {
  Cluster_Id : option string;
  Cluster_Name : option string;
  Applications : list Application;
  InstanceCollectionType : option string
}.

Record DescribeClusterOutput : Type := mkDescribeClusterOutput {
  Cluster_ : option Cluster
}.

Record ClusterSummary : Type := mkClusterSummary {
  Summary_Id : option string
}.

Record ListClustersInput : Type := mkListClustersInput {
  ClusterStates : list string
}.

Record ListClustersOutput : Type := mkListClustersOutput {
  Clusters : list ClusterSummary
}.

Record DescribeClusterInput : Type := mkDescribeClusterInput {
  Describe_ClusterId : option string
}.

Record ListInstancesInput : Type := mkListInstancesInput {
  ClusterId : option string;
  InstanceFleetType : option string;
  InstanceGroupTypes : list string;
  InstanceGroupId : option string
}.

Record Instance : Type := mkInstance {
  Instance_Id : option string;
  PrivateIpAddress : option string
}.

Record ListInstancesOutput : Type := mkListInstancesOutput {
  Instances : list Instance
}.

(** An error of the service or of the SDK ([awserr.Error]): a code and a
    message.  As a Go [error] it has a dynamic type of its own, distinct
    from the errors that [fmt.Errorf] builds. *)
Record awserr : Type := mkAwserr {
  Code : string;
  Message : string
}.

Definition as_error (e : option awserr) : option error :=
  match e with
  | Some e => Some (awsError (Code e) (Message e))
  | None => None
  end.

(** The service, seen from the client.  [ListClustersPages] gives the
    pages that [ListClustersPagesWithContext] hands to its callback, in
    order, and the error that ends the listing, if any.  The other two
    give the output and the error of the call, as the SDK returns both. *)
Record EMR : Type := mkEMR {
  ListClustersPages : ListClustersInput -> list ListClustersOutput * option awserr;
  DescribeCluster : DescribeClusterInput -> DescribeClusterOutput * option awserr;
  ListInstances : ListInstancesInput -> ListInstancesOutput * option awserr
}.

Inductive Call : Type :=
| CallListClusters (input : ListClustersInput)
| CallDescribeCluster (input : DescribeClusterInput)
| CallListInstances (input : ListInstancesInput).

End emr.

(** Durations and instants are counts of nanoseconds ([time.Duration],
    [UnixNano]), which the libraries define up to the year 2262. *)
Definition time_Minute : Z := 60 * 1000000000.
Definition time_Hour : Z := 60 * time_Minute.

(** [github.com/patrickmn/go-cache]: a map from keys to items that carry
    the instant after which they are no longer served.  The janitor, which
    deletes expired items now and then, removes only what [Get] no longer
    returns and is left out. *)
Module cache.
Section Cache.
Context {V : Type}.

Record Item : Type := mkItem {
  Object : V;
  Expiration : Z
}.

Record Cache : Type := mkCache {
  defaultExpiration : Z;
  items : gmap string Item
}.

Definition DefaultExpiration : Z := 0.

(** [cache.New(defaultExpiration, cleanupInterval)] *)
Definition New (defaultExpiration cleanupInterval : Z) : Cache :=
  mkCache defaultExpiration ∅.

(** [c.Set(k, x, d)] at the instant [now] *)
Definition Set_ (c : Cache) (k : string) (x : V) (d : Z) (now : Z) : Cache :=
  let d := if d =? DefaultExpiration then defaultExpiration c else d in
  let e := if 0 <? d then now + d else 0 in
  mkCache (defaultExpiration c) (<[k := mkItem x e]> (items c)).

(** [c.Get(k)] at the instant [now] *)
Definition Get (c : Cache) (k : string) (now : Z) : option V :=
  match items c !! k with
  | None => None
  | Some item =>
      if (0 <? Expiration item) && (Expiration item <? now) then None
      else Some (Object item)
  end.
End Cache.
Arguments Item : clear implicits.
Arguments Cache : clear implicits.
End cache.

(* ===================================================================== *)
(** * aws/cluster_provider.go                                             *)
(* ===================================================================== *)

Module aws.
Import emr.

(** The outcome of running a function: it returns, or it panics (a nil
    pointer is dereferenced). *)
Inductive outcome (A : Type) : Type :=
| Returns (a : A)
| Panics.
Arguments Returns {A} a.
Arguments Panics {A}.

(** The provider: its EMR client.  Its cache is the mutable part and
    lives in the state. *)
Record ClusterProvider : Type := mkClusterProvider {
  emrClient : EMR
}.

Record World : Type := mkWorld {
  cache_ : cache.Cache (gmap string ClusterInfo);
  calls : list Call                    (* the calls to the service, in order *)
}.

(** [NewClusterProvider]: the cache is empty. *)
Definition NewClusterProvider_world : World :=
  mkWorld (cache.New (60 * time_Minute) (24 * time_Hour)) [].

Definition G (A : Type) : Type := World -> outcome A * World.

#[global] Instance G_ret : MRet G := fun A (a : A) w => (Returns a, w).
#[global] Instance G_bind : MBind G :=
  fun A B (f : A -> G B) (m : G A) w =>
    match m w with
    | (Returns a, w') => f a w'
    | (Panics, w') => (Panics, w')
    end.

Definition panic {A : Type} : G A := fun w => (Panics, w).

(** [*p] *)
Definition deref {A : Type} (p : option A) : G A :=
  match p with
  | Some a => mret a
  | None => panic
  end.

Definition call (k : Call) : G unit :=
  fun w => (Returns tt, mkWorld (cache_ w) (calls w ++ [k])).

(** The three methods of [c.emrClient] that the provider calls: the call
    is recorded, the outcome is the service's. *)
Definition emrClient_ListInstances (c : ClusterProvider) (input : ListInstancesInput)
  : G (ListInstancesOutput * option error) :=
  call (CallListInstances input);;
  let '(output, err) := ListInstances (emrClient c) input in
  mret (output, as_error err).

Definition emrClient_DescribeCluster (c : ClusterProvider) (input : DescribeClusterInput)
  : G (DescribeClusterOutput * option error) :=
  call (CallDescribeCluster input);;
  let '(output, err) := DescribeCluster (emrClient c) input in
  mret (output, as_error err).

Definition emrClient_ListClustersPages (c : ClusterProvider) (input : ListClustersInput)
  : G (list ListClustersOutput * option error) :=
  call (CallListClusters input);;
  let '(pages, err) := ListClustersPages (emrClient c) input in
  mret (pages, as_error err).

Definition cacheKey : string := "master".

Definition is_trino (name : string) : bool :=
  String.eqb (strings_ToLower name) "trino" || String.eqb (strings_ToLower name) "trinodb".

Fixpoint isTrinoInstalled_range (applications : list Application) : G bool :=
  match applications with
  | [] => mret false
  | application :: r =>
      name ← deref (Application_Name application);
      if is_trino name then mret true else isTrinoInstalled_range r
  end.

Definition isTrinoInstalled (descr : DescribeClusterOutput) : G bool :=
  cluster ← deref (Cluster_ descr);
  isTrinoInstalled_range (Applications cluster).

Definition getMasterInstanceForFleet (c : ClusterProvider) (cluster : DescribeClusterOutput)
  : G (string * option error) :=
  cl ← deref (Cluster_ cluster);
  '(instances, err) ← emrClient_ListInstances c
      (mkListInstancesInput (Cluster_Id cl) (Some InstanceFleetTypeMaster) [] None);
  match err with
  | Some _ => mret ("", err)
  | None =>
      match Instances instances with
      | [] =>
          id ← deref (Cluster_Id cl);
          mret ("", Some (errorString ("no master instance found for cluster " +:+ id)))
      | first :: _ =>
          address ← deref (PrivateIpAddress first);
          mret (address, None)
      end
  end.

(** The loop over the master groups of [getMasterInstanceForNodeGroup];
    [None] when it runs to its end without returning. *)
Fixpoint getMasterInstanceForNodeGroup_range (c : ClusterProvider) (cl : Cluster)
         (groups : list Instance) : G (option (string * option error)) :=
  match groups with
  | [] => mret None
  | group :: r =>
      '(instances, err) ← emrClient_ListInstances c
          (mkListInstancesInput (Cluster_Id cl) None [] (Instance_Id group));
      match err with
      | Some _ => mret (Some ("", err))
      | None =>
          match Instances instances with
          | [] => getMasterInstanceForNodeGroup_range c cl r
          | first :: _ =>
              address ← deref (PrivateIpAddress first);
              mret (Some (address, None))
          end
      end
  end.

Definition getMasterInstanceForNodeGroup (c : ClusterProvider) (cluster : DescribeClusterOutput)
  : G (string * option error) :=
  cl ← deref (Cluster_ cluster);
  '(instanceGroups, err) ← emrClient_ListInstances c
      (mkListInstancesInput (Cluster_Id cl) None [InstanceGroupTypeMaster] None);
  match err with
  | Some _ => mret ("", err)
  | None =>
      returned ← getMasterInstanceForNodeGroup_range c cl (Instances instanceGroups);
      match returned with
      | Some result => mret result
      | None =>
          id ← deref (Cluster_Id cl);
          mret ("", Some (errorString ("no master instance found for cluster " +:+ id)))
      end
  end.

Definition getClusterMasterInstance (c : ClusterProvider) (cluster : DescribeClusterOutput)
  : G (string * option error) :=
  cl ← deref (Cluster_ cluster);
  instanceCollectionType ← deref (InstanceCollectionType cl);
  if String.eqb instanceCollectionType InstanceCollectionTypeInstanceGroup then
    getMasterInstanceForNodeGroup c cluster
  else if String.eqb instanceCollectionType InstanceCollectionTypeInstanceFleet then
    getMasterInstanceForFleet c cluster
  else
    mret ("", Some (errorString ("unrecognized instance type " +:+ instanceCollectionType))).

(** The callback given to [ListClustersPagesWithContext], on one page:
    the loop over the clusters of the page. *)
Fixpoint listTargetClusters_page (c : ClusterProvider) (page : list ClusterSummary)
         (clusters : list DescribeClusterOutput) : G (list DescribeClusterOutput) :=
  match page with
  | [] => mret clusters
  | cluster :: r =>
      '(descr, _) ← emrClient_DescribeCluster c (mkDescribeClusterInput (Summary_Id cluster));
      installed ← isTrinoInstalled descr;
      if negb installed then listTargetClusters_page c r clusters
      else listTargetClusters_page c r (clusters ++ [descr])
  end.

(** The callback returns [true] on every page: all the pages are read. *)
Fixpoint listTargetClusters_pages (c : ClusterProvider) (pages : list ListClustersOutput)
         (clusters : list DescribeClusterOutput) : G (list DescribeClusterOutput) :=
  match pages with
  | [] => mret clusters
  | output :: r =>
      clusters ← listTargetClusters_page c (Clusters output) clusters;
      listTargetClusters_pages c r clusters
  end.

Definition listTargetClusters (c : ClusterProvider)
  : G (list DescribeClusterOutput * option error) :=
  let req := mkListClustersInput ["WAITING"] in
  '(pages, err) ← emrClient_ListClustersPages c req;
  clusters ← listTargetClusters_pages c pages [];
  mret (clusters, err).

(** The loop of [listTargetMasters]; the map of the source is updated in
    place, here it is the accumulator. *)
Fixpoint listTargetMasters_range (c : ClusterProvider) (clusters : list DescribeClusterOutput)
         (clusterWithMaster : gmap string ClusterInfo)
  : G (gmap string ClusterInfo * option error) :=
  match clusters with
  | [] => mret (clusterWithMaster, None)
  | cluster :: r =>
      '(master, err) ← getClusterMasterInstance c cluster;
      match err with
      | Some _ => mret (∅, err)
      | None =>
          cl ← deref (Cluster_ cluster);
          name ← deref (Cluster_Name cl);
          (* the literal sets Host only: Distribution is the zero value *)
          let info := mkClusterInfo ("http://" +:+ master +:+ ":8889") (DistOther "") in
          listTargetMasters_range c r (<[name := info]> clusterWithMaster)
      end
  end.

Definition listTargetMasters (c : ClusterProvider)
  : G (gmap string ClusterInfo * option error) :=
  '(clusters, err) ← listTargetClusters c;
  match err with
  | Some _ => mret (∅, err)
  | None => listTargetMasters_range c clusters ∅
  end.

(** [c.cache.Get(k)] and [c.cache.Set(k, x, d)], with the clock read at
    the call. *)
Definition cache_Get (k : string) (now : Z) : G (option (gmap string ClusterInfo)) :=
  fun w => (Returns (cache.Get (cache_ w) k now), w).

Definition cache_Set (k : string) (x : gmap string ClusterInfo) (d : Z) (now : Z) : G unit :=
  fun w => (Returns tt, mkWorld (cache.Set_ (cache_ w) k x d now) (calls w)).

(** [Provide]; [now] is the clock when the cache is looked up, [now']
    when the new snapshot is stored. *)
Definition Provide (c : ClusterProvider) (now now' : Z)
  : G (gmap string ClusterInfo * option error) :=
  cached ← cache_Get cacheKey now;
  match cached with
  | Some result => mret (result, None)
  | None =>
      '(masters, err) ← listTargetMasters c;
      match err with
      | Some _ => mret (∅, err)
      | None =>
          cache_Set cacheKey masters (30 * time_Minute) now';;
          mret (masters, None)
      end
  end.

End aws.

(** The vocabulary of the provider: the three queries for instances and
    the two errors that the provider builds itself. *)
Module topo.
Import emr.

Definition fleetInput (cl : Cluster) : ListInstancesInput :=
  mkListInstancesInput (Cluster_Id cl) (Some InstanceFleetTypeMaster) [] None.

Definition groupsInput (cl : Cluster) : ListInstancesInput :=
  mkListInstancesInput (Cluster_Id cl) None [InstanceGroupTypeMaster] None.

Definition groupInput (cl : Cluster) (group : Instance) : ListInstancesInput :=
  mkListInstancesInput (Cluster_Id cl) None [] (Instance_Id group).


Definition UnrecognizedTopologyError (t : string) : error :=
  errorString ("unrecognized instance type " +:+ t).

(** A query answered without error and without instances. *)
Definition yields_none (api : EMR) (input : ListInstancesInput) : Prop :=
  exists output, ListInstances api input = (output, None) /\ Instances output = [].



(** The URL that the provider builds from an address. *)
Definition coordinatorURL (address : string) : string :=
  "http://" +:+ address +:+ ":8889".


(** Two services that differ at most in the errors that [DescribeCluster]
    returns beside its outputs. *)
Definition same_but_describe_errors (a b : EMR) : Prop :=
  (forall input, ListClustersPages a input = ListClustersPages b input)
  /\ (forall input, ListInstances a input = ListInstances b input)
  /\ (forall input, fst (DescribeCluster a input) = fst (DescribeCluster b input)).

(** A computation that leaves the cache as it found it. *)
Definition keeps_cache {A : Type} (f : aws.G A) : Prop :=
  forall w, aws.cache_ (snd (f w)) = aws.cache_ w.

End topo.

(* ===================================================================== *)
(** * Vocabulary of the statements                                        *)
(* ===================================================================== *)

Module obs.
Import prometheus presto.

Definition gauge (d : Desc) (name : string) (x : float64) : Metric :=
  MustNewConstMetric d GaugeValue x [name].

(** The liveness observation of a cluster. *)
Definition liveness (name : string) (x : float64) : Metric := gauge up name x.

(** The nine numeric observations of a cluster. *)
Definition numeric (name : string) (r : Response) : list Metric :=
  [ gauge runningQueries name (RunningQueries r);
    gauge blockedQueries name (BlockedQueries r);
    gauge queuedQueries name (QueuedQueries r);
    gauge activeWorkers name (ActiveWorkers r);
    gauge runningDrivers name (RunningDrivers r);
    gauge reservedMemory name (ReservedMemory r);
    gauge totalInputRows name (TotalInputRows r);
    gauge totalInputBytes name (TotalInputBytes r);
    gauge totalCpuTimeSecs name (TotalCpuTimeSecs r) ].

(** The nine gauges of the collector, by descriptor. *)
Definition numeric_descs : list Desc :=
  [ runningQueries; blockedQueries; queuedQueries; activeWorkers; runningDrivers;
    reservedMemory; totalInputRows; totalInputBytes; totalCpuTimeSecs ].

(** The requests of the two scrape paths. *)
Definition directRequest (cluster : ClusterInfo) : Request :=
  mkRequest "GET" (Host cluster +:+ "/v1/cluster") [] "".

Definition loginRequest (cluster : ClusterInfo) : Request :=
  mkRequest "POST" (Host cluster +:+ "/ui/login")
            [("Content-Type", "application/x-www-form-urlencoded")]
            "username=exporter&password=&redirectPath=".

Definition statsRequest (cluster : ClusterInfo) (cookie : string) : Request :=
  mkRequest "GET" (Host cluster +:+ "/ui/api/stats") [("Cookie", cookie)] "".

(** A state with more sent, logged and emitted than another. *)
Definition extend (w : World) (rs : list Request) (es : list error) (ms : list Metric)
  : World :=
  mkWorld (requests w ++ rs) (logged w ++ es) (out w ++ ms).

(** The state at the start of a cycle: nothing sent, logged or emitted. *)
Definition idle : World := mkWorld [] [] [].

(** A computation whose result does not depend on the state, and which
    only adds to what was sent, logged and emitted. *)
Definition framed {A : Type} (f : M A) : Prop :=
  forall w,
    f w = (fst (f idle),
           extend w (requests (snd (f idle))) (logged (snd (f idle))) (out (snd (f idle)))).

(** A computation that emits nothing. *)
Definition silent {A : Type} (f : M A) : Prop :=
  forall w, out (snd (f w)) = out w.

(** What the loop body emits for an entry of the snapshot, and what a
    whole cycle emits. *)
Definition observations (c : Collector) (entry : string * ClusterInfo) : list Metric :=
  out (snd (collect_cluster c entry idle)).

Definition emitted (c : Collector)
           (range : gmap string ClusterInfo -> list (string * ClusterInfo)) : list Metric :=
  out (snd (Collect c range idle)).

(** The observations that bear the label of a cluster. *)
Definition labelled (name : string) (ms : list Metric) : list Metric :=
  filter (fun m => labelValues m = [name]) ms.

Definition MissingSessionCookieError : error :=
  errorString "no Set-Cookie header present in response".

(** The letter that a character of a key stands for: a capital stands for
    its small letter, the long s for an s, the Kelvin sign for a k. *)
Definition letter (r : utf8.rune) : utf8.rune :=
  if r =? 0x17F then 0x73
  else if r =? 0x212A then 0x6B
  else if (0x41 <=? r) && (r <=? 0x5A) then r + 0x20
  else r.

(** A key spells a name: character by character, the same letters. *)
Definition spells (key name : string) : Prop :=
  letter <$> utf8.runes key = letter <$> utf8.runes name.

(** A name made of ASCII letters. *)
Fixpoint letters (s : string) : bool :=
  match s with
  | EmptyString => true
  | String c r => json.upper_letter (json.caseMask (utf8.byte_of c))
                  && (utf8.byte_of c <? utf8.RuneSelf) && letters r
  end.

(** The test that [equalFoldRight] makes on two ASCII bytes agrees with
    the letters they stand for. *)
Definition ascii_fold_agree (sb tb : Z) : bool :=
  Bool.eqb ((sb =? tb)
            || (json.upper_letter (json.caseMask sb)
                && (json.caseMask sb =? json.caseMask tb)))
           (letter tb =? letter sb).

(** A JSON text written with apostrophes in the place of the double
    quotes. *)
Fixpoint json_text (s : string) : string :=
  match s with
  | EmptyString => EmptyString
  | String c r => String (if Ascii.eqb c "'" then json.quote else c) (json_text r)
  end.

(** The body of the round-trip property. *)
Definition sample_body : string :=
  json_text "{'runningQueries':3,'blockedQueries':0,'queuedQueries':1,'activeWorkers':5,'runningDrivers':2,'reservedMemory':1048576,'totalInputRows':1000,'totalInputBytes':500000,'totalCpuTimeSecs':12.5}".

Definition sample_stats : Response :=
  mkStats "" 3%Q 0%Q 1%Q 5%Q 2%Q 1048576%Q 1000%Q 500000%Q (25 # 2)%Q.

End obs.

(* ===================================================================== *)
(** * Concrete collectors, on which the statements are exercised          *)
(* ===================================================================== *)

Module scenario.
Import prometheus presto obs.

Definition clusterA : ClusterInfo := mkClusterInfo "http://10.0.0.1:8889" DistDb.
Definition clusterB : ClusterInfo := mkClusterInfo "http://10.0.0.2:8889" DistSql.

Definition unreachable : HttpResponse + error :=
  inr (urlError "Get" "connection refused").

(** Every URL is well formed. *)
Definition well_formed (url : string) : option error := None.

(** One Direct cluster whose coordinator answers 500 with a page of text. *)
Definition direct_500 : Collector :=
  NewCollector
    ({[ "A" := clusterA ]}, None)
    (mkClient
       (fun req =>
          if decide (req = directRequest clusterA)
          then inl (mkResponse 500 [("Content-Type", "text/plain")]
                               ("Internal Server Error", None))
          else unreachable)
       well_formed).

(** One Direct cluster whose coordinator answers 200 with the sample body. *)
Definition direct_200 : Collector :=
  NewCollector
    ({[ "A" := clusterA ]}, None)
    (mkClient
       (fun req =>
          if decide (req = directRequest clusterA)
          then inl (mkResponse 200 [("Content-Type", "application/json")]
                               (sample_body, None))
          else unreachable)
       well_formed).

(** One Authenticated cluster whose login answer carries no cookie. *)
Definition login_without_cookie : Collector :=
  NewCollector
    ({[ "B" := clusterB ]}, None)
    (mkClient
       (fun req =>
          if decide (req = loginRequest clusterB)
          then inl (mkResponse 200 [("Content-Length", "0")] (EmptyString, None))
          else unreachable)
       well_formed).

(** The scenario of the spec: A is Direct and answers 200 with the sample
    body; B is Authenticated, its login gives a cookie and its statistics
    request is answered 500, here with a JSON error object as body. *)
Definition two_clusters : Collector :=
  NewCollector
    ({[ "A" := clusterA; "B" := clusterB ]}, None)
    (mkClient
       (fun req =>
          if decide (req = directRequest clusterA)
          then inl (mkResponse 200 [("Content-Type", "application/json")]
                               (sample_body, None))
          else if decide (req = loginRequest clusterB)
          then inl (mkResponse 303 [("Set-Cookie", "Trino-UI-Token=t1")] (EmptyString, None))
          else if decide (req = statsRequest clusterB "Trino-UI-Token=t1")
          then inl (mkResponse 500 [("Content-Type", "application/json")]
                               (json_text "{'message':'Internal Server Error'}", None))
          else unreachable)
       well_formed).

(** A cycle whose discovery failed. *)
Definition discovery_failed : Collector :=
  NewCollector
    (∅, Some (awsError "ThrottlingException" "Rate exceeded"))
    (mkClient (fun _ => unreachable) well_formed).

End scenario.

(** A service with three clusters in the WAITING state, listed on two
    pages: one on instance fleets and one on instance groups that run the
    engine, and one that does not run it. *)
Module discovery.
Import emr aws.

#[global] Instance ListInstancesInput_eq_dec : EqDecision ListInstancesInput.
Proof. solve_decision. Defined.

Definition fleet_cluster : DescribeClusterOutput :=
  mkDescribeClusterOutput
    (Some (mkCluster (Some "j-FLEET") (Some "analytics")
                     [mkApplication (Some "Hadoop"); mkApplication (Some "Trino")]
                     (Some "INSTANCE_FLEET"))).

Definition group_cluster : DescribeClusterOutput :=
  mkDescribeClusterOutput
    (Some (mkCluster (Some "j-GROUP") (Some "reports")
                     [mkApplication (Some "TRINODB")]
                     (Some "INSTANCE_GROUP"))).

Definition spark_cluster : DescribeClusterOutput :=
  mkDescribeClusterOutput
    (Some (mkCluster (Some "j-SPARK") (Some "etl")
                     [mkApplication (Some "Spark"); mkApplication (Some "Hive")]
                     (Some "INSTANCE_GROUP"))).

Definition pages : list ListClustersOutput :=
  [ mkListClustersOutput [mkClusterSummary (Some "j-FLEET"); mkClusterSummary (Some "j-SPARK")];
    mkListClustersOutput [mkClusterSummary (Some "j-GROUP")] ].

Definition describe (input : DescribeClusterInput) : DescribeClusterOutput * option awserr :=
  match Describe_ClusterId input with
  | Some id =>
      if String.eqb id "j-FLEET" then (fleet_cluster, None)
      else if String.eqb id "j-GROUP" then (group_cluster, None)
      else if String.eqb id "j-SPARK" then (spark_cluster, None)
      else (mkDescribeClusterOutput None,
            Some (mkAwserr "InvalidRequestException" "Cluster id is not valid."))
  | None =>
      (mkDescribeClusterOutput None,
       Some (mkAwserr "InvalidParameter" "missing required field ClusterId"))
  end.

(** The master fleet of j-FLEET has one instance; j-GROUP has two master
    entries, the first without instances, the second with two. *)
Definition instances (input : ListInstancesInput) : ListInstancesOutput * option awserr :=
  if decide (input = mkListInstancesInput (Some "j-FLEET") (Some "MASTER") [] None)
  then (mkListInstancesOutput [mkInstance (Some "ci-F1") (Some "10.0.0.1")], None)
  else if decide (input = mkListInstancesInput (Some "j-GROUP") None ["MASTER"] None)
  then (mkListInstancesOutput [mkInstance (Some "ig-G1") (Some "10.0.1.1");
                               mkInstance (Some "ig-G2") (Some "10.0.1.2")], None)
  else if decide (input = mkListInstancesInput (Some "j-GROUP") None [] (Some "ig-G2"))
  then (mkListInstancesOutput [mkInstance (Some "ci-G21") (Some "10.0.0.2");
                               mkInstance (Some "ci-G22") (Some "10.0.0.3")], None)
  else (mkListInstancesOutput [], None).

Definition service : ClusterProvider :=
  mkClusterProvider (mkEMR (fun _ => (pages, None)) describe instances).

(** The same service when [DescribeCluster] is throttled: the SDK returns
    an empty output and the error. *)
Definition throttled : ClusterProvider :=
  mkClusterProvider
    (mkEMR (fun _ => (pages, None))
           (fun _ => (mkDescribeClusterOutput None,
                      Some (mkAwserr "ThrottlingException" "Rate exceeded")))
           instances).

(** The snapshot that a discovery pass over [service] builds. *)
Definition snapshot : gmap string ClusterInfo :=
  {[ "analytics" := mkClusterInfo "http://10.0.0.1:8889" (DistOther EmptyString);
     "reports" := mkClusterInfo "http://10.0.0.2:8889" (DistOther EmptyString) ]}.

(** An instant, in nanoseconds since 1970. *)
Definition noon : Z := 1700000000 * 1000000000.

End discovery.

(* ===================================================================== *)
(** * Vocabulary of the further properties                                *)
(* ===================================================================== *)

Module cover.
Import prometheus presto obs emr.

(** The requests that a cycle sends and the errors that it logs. *)
Definition sent (c : Collector)
           (range : gmap string ClusterInfo -> list (string * ClusterInfo)) : list Request :=
  requests (snd (Collect c range idle)).

Definition cycle_log (c : Collector)
           (range : gmap string ClusterInfo -> list (string * ClusterInfo)) : list error :=
  logged (snd (Collect c range idle)).

(** The requests that the collector may send to a cluster. *)
Definition addressed_to (cluster : ClusterInfo) (req : Request) : Prop :=
  (Distribution cluster = DistDb /\ req = directRequest cluster)
  \/ (Distribution cluster = DistSql
      /\ (req = loginRequest cluster
          \/ exists cookie, cookie <> EmptyString /\ req = statsRequest cluster cookie)).

(** A computation of the provider whose outcome does not depend on the
    state it starts from. *)
Definition steady {A : Type} (f : aws.G A) : Prop :=
  forall w w', fst (f w) = fst (f w').

(** The outcome of the engine check and of the resolution of the master
    for a descriptor. *)
Definition engine_check (descr : DescribeClusterOutput) : aws.outcome bool :=
  fst (aws.isTrinoInstalled descr aws.NewClusterProvider_world).

Definition resolution (c : aws.ClusterProvider) (descr : DescribeClusterOutput)
  : aws.outcome (string * option error) :=
  fst (aws.getClusterMasterInstance c descr aws.NewClusterProvider_world).

(** The name of the cluster of a descriptor. *)
Definition name_of (descr : DescribeClusterOutput) : option string :=
  match Cluster_ descr with
  | Some cl => Cluster_Name cl
  | None => None
  end.





(** A computation that only adds calls, each of which satisfies [P]. *)
Definition only_calls {A : Type} (P : Call -> Prop) (f : aws.G A) : Prop :=
  forall w, exists ks, aws.calls (snd (f w)) = aws.calls w ++ ks /\ Forall P ks.

Definition is_listing (k : Call) : Prop :=
  match k with
  | CallListClusters _ => True
  | _ => False
  end.

Definition not_listing (k : Call) : Prop := is_listing k -> False.

(** A group at which the loop over the master groups stops: its query
    fails, or it has instances. *)
Definition stops_at (api : EMR) (cl : Cluster) (group : Instance) : Prop :=
  exists output err,
    ListInstances api (topo.groupInput cl group) = (output, err)
    /\ (err <> None \/ Instances output <> []).

(** The entry that the provider builds from an address. *)
Definition endpoint (address : string) : ClusterInfo :=
  mkClusterInfo (topo.coordinatorURL address) (DistOther EmptyString).

(** The calls of a state that came after those of an earlier state. *)
Definition calls_since (w w' : aws.World) : list Call :=
  drop (length (aws.calls w)) (aws.calls w').

End cover.

(** Further collectors, one cluster each, for the further properties. *)
Module cases.
Import prometheus presto obs.

Definition clusterC : ClusterInfo := mkClusterInfo "http://10.0.0.3:8080" (DistOther "trino").

Definition always (answer : HttpResponse + error) : Client :=
  mkClient (fun _ => answer) scenario.well_formed.

(** A Direct cluster that answers 200 with a page that is not JSON. *)
Definition direct_page : Collector :=
  NewCollector ({[ "A" := scenario.clusterA ]}, None)
               (always (inl (mkResponse 200 [] ("<html>maintenance</html>", None)))).

(** A Direct cluster that answers 200 and whose body cannot be read to its
    end. *)
Definition direct_truncated : Collector :=
  NewCollector ({[ "A" := scenario.clusterA ]}, None)
               (always (inl (mkResponse 200 [] (EmptyString, Some (readError "unexpected EOF"))))).

(** Clusters that cannot be reached. *)
Definition direct_unreachable : Collector :=
  NewCollector ({[ "A" := scenario.clusterA ]}, None) (always scenario.unreachable).

Definition authenticated_unreachable : Collector :=
  NewCollector ({[ "B" := scenario.clusterB ]}, None) (always scenario.unreachable).

(** An Authenticated cluster whose login answer has a Set-Cookie field
    without a value, followed by one with a value. *)
Definition empty_cookie : Collector :=
  NewCollector ({[ "B" := scenario.clusterB ]}, None)
               (always (inl (mkResponse 200 [("Set-Cookie", EmptyString);
                                             ("Set-Cookie", "Trino-UI-Token=t2")]
                                        (EmptyString, None)))).

(** A cluster of a distribution that the collector does not know. *)
Definition unknown_distribution : Collector :=
  NewCollector ({[ "C" := clusterC ]}, None) (always scenario.unreachable).

End cases.

(** Further services, for the further properties of the provider. *)
Module passes.
Import emr aws.

(** The service of [discovery] when every [DescribeCluster] also returns an
    error beside its output. *)
Definition noisy : ClusterProvider :=
  mkClusterProvider
    (mkEMR (fun _ => (discovery.pages, None))
           (fun input => (fst (discovery.describe input),
                          Some (mkAwserr "ThrottlingException" "Rate exceeded")))
           discovery.instances).

(** A service whose listing fails at once. *)
Definition unlisted : ClusterProvider :=
  mkClusterProvider
    (mkEMR (fun _ => ([], Some (mkAwserr "AccessDeniedException" "not authorized")))
           discovery.describe discovery.instances).

(** Two clusters that run the engine under the same name, and a third on a
    topology that the provider does not know. *)
Definition twin1 : DescribeClusterOutput :=
  mkDescribeClusterOutput
    (Some (mkCluster (Some "j-ONE") (Some "twin") [mkApplication (Some "trino")]
                     (Some "INSTANCE_FLEET"))).

Definition twin2 : DescribeClusterOutput :=
  mkDescribeClusterOutput
    (Some (mkCluster (Some "j-TWO") (Some "twin") [mkApplication (Some "trino")]
                     (Some "INSTANCE_FLEET"))).

Definition odd : DescribeClusterOutput :=
  mkDescribeClusterOutput
    (Some (mkCluster (Some "j-ODD") (Some "odd") [mkApplication (Some "Trino")]
                     (Some "instance_fleet"))).

Definition fleet_of (input : ListInstancesInput) : ListInstancesOutput * option awserr :=
  match ClusterId input with
  | Some id =>
      if String.eqb id "j-ONE"
      then (mkListInstancesOutput [mkInstance (Some "ci-1") (Some "10.1.0.1")], None)
      else if String.eqb id "j-TWO"
      then (mkListInstancesOutput [mkInstance (Some "ci-2") (Some "10.1.0.2")], None)
      else (mkListInstancesOutput [], None)
  | None => (mkListInstancesOutput [], None)
  end.

Definition describe_by_id (input : DescribeClusterInput)
  : DescribeClusterOutput * option awserr :=
  match Describe_ClusterId input with
  | Some id =>
      if String.eqb id "j-ONE" then (twin1, None)
      else if String.eqb id "j-TWO" then (twin2, None)
      else (odd, None)
  | None => (odd, None)
  end.

Definition twins : ClusterProvider :=
  mkClusterProvider
    (mkEMR (fun _ => ([mkListClustersOutput [mkClusterSummary (Some "j-ONE");
                                             mkClusterSummary (Some "j-TWO")]], None))
           describe_by_id fleet_of).

Definition twins_and_odd : ClusterProvider :=
  mkClusterProvider
    (mkEMR (fun _ => ([mkListClustersOutput [mkClusterSummary (Some "j-ONE");
                                             mkClusterSummary (Some "j-ODD");
                                             mkClusterSummary (Some "j-TWO")]], None))
           describe_by_id fleet_of).

(** A cluster on instance groups whose second master group cannot be
    queried, the first having no instance and the third having one. *)
Definition broken_groups (input : ListInstancesInput) : ListInstancesOutput * option awserr :=
  if decide (input = mkListInstancesInput (Some "j-GROUP") None ["MASTER"] None)
  then (mkListInstancesOutput [mkInstance (Some "ig-1") None; mkInstance (Some "ig-2") None;
                               mkInstance (Some "ig-3") None], None)
  else if decide (input = mkListInstancesInput (Some "j-GROUP") None [] (Some "ig-2"))
  then (mkListInstancesOutput [], Some (mkAwserr "InternalServerException" "try again"))
  else if decide (input = mkListInstancesInput (Some "j-GROUP") None [] (Some "ig-3"))
  then (mkListInstancesOutput [mkInstance (Some "ci-31") (Some "10.0.3.1")], None)
  else (mkListInstancesOutput [], None).

Definition broken : ClusterProvider :=
  mkClusterProvider (mkEMR (fun _ => (discovery.pages, None)) discovery.describe broken_groups).

(** A state whose cache holds the snapshot of [discovery], stored at
    [discovery.noon]. *)
Definition cached : World :=
  mkWorld (cache.Set_ (cache_ NewClusterProvider_world) cacheKey discovery.snapshot
             (30 * time_Minute) discovery.noon) [].

End passes.

(* ===================================================================== *)
(** * Properties of the texts: UTF-8, lower case, keys                    *)
(* ===================================================================== *)

Section Utf8Facts.
Import utf8.

Lemma byte_of_bound c : 0 <= byte_of c < 256.
Proof.
  unfold byte_of. pose proof (N_ascii_bounded c) as H. lia.
Qed.



(** The width that [DecodeRuneInString] returns is the number of bytes
    that it has read. *)
Lemma DecodeRuneInString_width c0 t1 r w :
  DecodeRuneInString (String c0 t1) = (r, w) ->
  w = 1%nat
  \/ (w = 2%nat /\ exists c1 t2, t1 = String c1 t2)
  \/ (w = 3%nat /\ exists c1 c2 t3, t1 = String c1 (String c2 t3))
  \/ (w = 4%nat /\ exists c1 c2 c3 t4, t1 = String c1 (String c2 (String c3 t4))).
Proof.
  unfold DecodeRuneInString. intros H.
  repeat case_match; simplify_eq; eauto 10.
Qed.

Lemma runes_eq c0 t1 :
  runes (String c0 t1)
  = fst (DecodeRuneInString (String c0 t1))
      :: runes (skip (snd (DecodeRuneInString (String c0 t1))) (String c0 t1)).
Proof.
  cbn [runes]. destruct (DecodeRuneInString (String c0 t1)) as [r w] eqn:HD. cbn [fst snd].
  apply DecodeRuneInString_width in HD
    as [-> | [[-> (c1 & t2 & ->)] | [[-> (c1 & c2 & t3 & ->)] | [-> (c1 & c2 & c3 & t4 & ->)]]]];
    reflexivity.
Qed.

Lemma runes_single c t : byte_of c < RuneSelf -> runes (String c t) = byte_of c :: runes t.
Proof.
  intros Hc. rewrite runes_eq. unfold DecodeRuneInString, first.
  apply Z.ltb_lt in Hc. unfold RuneSelf in Hc. by rewrite Hc.
Qed.

(** A rune read at a byte beyond ASCII is beyond ASCII. *)
Lemma DecodeRuneInString_beyond c0 t1 :
  RuneSelf <= byte_of c0 -> RuneSelf <= fst (DecodeRuneInString (String c0 t1)).
Proof.
  unfold RuneSelf. intros Hc. pose proof (byte_of_bound c0) as H0.
  unfold DecodeRuneInString, first, continues, RuneError.
  repeat case_match; simplify_eq; cbn [fst]; try lia;
    repeat match goal with
           | H : (_ <? _) = true |- _ => apply Z.ltb_lt in H
           | H : (_ <? _) = false |- _ => apply Z.ltb_ge in H
           | H : (_ =? _) = true |- _ => apply Z.eqb_eq in H
           | H : (_ =? _) = false |- _ => apply Z.eqb_neq in H
           | H : (_ || _) = false |- _ => apply orb_false_iff in H as [? ?]
           | H : negb _ = false |- _ => apply negb_false_iff in H
           | H : (_ && _) = true |- _ => apply andb_true_iff in H as [? ?]
           | H : (_ <=? _) = true |- _ => apply Z.leb_le in H
           | c : ascii |- _ => lazymatch goal with
                               | _ : 0 <= byte_of c < 256 |- _ => fail
                               | _ => pose proof (byte_of_bound c)
                               end
           end;
    try (Z.to_euclidean_division_equations; lia).
Qed.

Lemma skip_length n s : (String.length (skip n s) <= String.length s)%nat.
Proof.
  revert s. induction n as [|n IH]; intros [|c s]; cbn; try lia.
  specialize (IH s). lia.
Qed.


End Utf8Facts.

Section LowerFacts.
Import utf8.















End LowerFacts.

Section FoldFacts.
Import utf8 json obs.

Lemma ascii_fold_table :
  forallb (fun sb => forallb (fun tb =>
     negb (upper_letter (caseMask (Z.of_nat sb))) || ascii_fold_agree (Z.of_nat sb) (Z.of_nat tb))
     (seq 0 128)) (seq 0 128) = true.
Proof. vm_compute. reflexivity. Qed.

Lemma ascii_fold sb tb :
  0 <= sb < 128 -> 0 <= tb < 128 -> upper_letter (caseMask sb) = true ->
  (sb =? tb) || (upper_letter (caseMask sb) && (caseMask sb =? caseMask tb)) = true
  <-> letter tb = letter sb.
Proof.
  intros Hs Ht Hl. pose proof ascii_fold_table as H.
  rewrite forallb_forall in H. specialize (H (Z.to_nat sb)).
  rewrite forallb_forall in H. specialize (H ltac:(apply in_seq; lia) (Z.to_nat tb)).
  rewrite !Z2Nat.id in H by lia. rewrite Hl in H. cbn [negb orb] in H.
  specialize (H ltac:(apply in_seq; lia)). unfold ascii_fold_agree in H.
  rewrite Hl in *. apply eqb_prop in H. rewrite H. apply Z.eqb_eq.
Qed.

Lemma letter_table :
  forallb (fun sb =>
     negb (upper_letter (caseMask (Z.of_nat sb)))
     || (Bool.eqb ((Z.of_nat sb =? 0x73) || (Z.of_nat sb =? 0x53)) (letter (Z.of_nat sb) =? 0x73)
         && Bool.eqb ((Z.of_nat sb =? 0x6B) || (Z.of_nat sb =? 0x4B)) (letter (Z.of_nat sb) =? 0x6B)
         && (letter (Z.of_nat sb) <? 128)))
     (seq 0 128) = true.
Proof. vm_compute. reflexivity. Qed.

Lemma letter_of_name sb :
  0 <= sb < 128 -> upper_letter (caseMask sb) = true ->
  ((sb =? 0x73) || (sb =? 0x53) = (letter sb =? 0x73))
  /\ ((sb =? 0x6B) || (sb =? 0x4B) = (letter sb =? 0x6B))
  /\ letter sb < 128.
Proof.
  intros Hs Hl. pose proof letter_table as H. rewrite forallb_forall in H.
  specialize (H (Z.to_nat sb) ltac:(apply in_seq; lia)). rewrite Z2Nat.id in H by lia.
  rewrite Hl in H. cbn [negb orb] in H.
  apply andb_true_iff in H as [[H1 H2]%andb_true_iff H3].
  apply eqb_prop in H1, H2. apply Z.ltb_lt in H3. by repeat split.
Qed.

Lemma letter_beyond tr :
  128 <= tr ->
  (letter tr = 0x73 <-> tr = smallLongEss)
  /\ (letter tr = 0x6B <-> tr = kelvin)
  /\ (tr <> smallLongEss -> tr <> kelvin -> 128 <= letter tr).
Proof.
  intros Htr. unfold letter, smallLongEss, kelvin.
  destruct (tr =? 383) eqn:H1; [apply Z.eqb_eq in H1; subst; repeat split; try done; lia|].
  destruct (tr =? 8490) eqn:H2; [apply Z.eqb_eq in H2; subst; repeat split; try done; lia|].
  apply Z.eqb_neq in H1, H2.
  replace ((65 <=? tr) && (tr <=? 90)) with false
    by (symmetry; apply andb_false_iff; right; apply Z.leb_gt; lia).
  repeat split; intros; lia.
Qed.

Lemma runes_nil s : runes s = [] -> s = EmptyString.
Proof. destruct s as [|c t]; [done|]. by rewrite runes_eq. Qed.

(** On a name of ASCII letters, [equalFoldRight] holds of the keys that
    spell the name. *)
Lemma equalFoldRight_spells name : forall key,
  letters name = true ->
  equalFoldRight name key = true <-> spells key name.
Proof.
  unfold spells. induction name as [|sc name IH]; intros key Hname.
  - cbn. destruct key as [|c t]; [done|]. rewrite runes_eq. split; discriminate.
  - cbn [letters] in Hname.
    apply andb_true_iff in Hname as [[Hl Hsc]%andb_true_iff Hname].
    apply Z.ltb_lt in Hsc. unfold RuneSelf in Hsc. pose proof (byte_of_bound sc) as Hsb.
    rewrite (runes_single sc name) by exact Hsc. cbn [fmap list_fmap].
    destruct key as [|tc t]; [cbn; split; discriminate|].
    cbn [equalFoldRight]. pose proof (byte_of_bound tc) as Htb.
    destruct (byte_of tc <? RuneSelf) eqn:Htc.
    + apply Z.ltb_lt in Htc. unfold RuneSelf in Htc.
      rewrite (runes_single tc t) by exact Htc. cbn [fmap list_fmap].
      pose proof (ascii_fold (byte_of sc) (byte_of tc) ltac:(lia) ltac:(lia) Hl) as Hfold.
      destruct (byte_of sc =? byte_of tc) eqn:Heq.
      * rewrite (IH t Hname). split.
        -- intros ->. f_equal. apply Hfold. reflexivity.
        -- by intros [= _ ->].
      * cbn [orb] in Hfold.
        destruct (upper_letter (caseMask (byte_of sc))
                  && (caseMask (byte_of sc) =? caseMask (byte_of tc))) eqn:Hc.
        -- rewrite (IH t Hname). split.
           ++ intros ->. f_equal. by apply Hfold.
           ++ by intros [= _ ->].
        -- split; [discriminate|]. intros [= Hletter _]. apply Hfold in Hletter. discriminate.
    + apply Z.ltb_ge in Htc.
      rewrite (runes_eq tc t).
      pose proof (DecodeRuneInString_beyond tc t Htc) as Htr. unfold RuneSelf in Htr.
      destruct (DecodeRuneInString (String tc t)) as [tr size]. cbn [fst snd] in *.
      cbn [fmap list_fmap].
      destruct (letter_of_name (byte_of sc) ltac:(lia) Hl) as (Hs & Hk & Hlt).
      destruct (letter_beyond tr Htr) as (Hs' & Hk' & Hother).
      rewrite Hs, Hk.
      destruct (letter (byte_of sc) =? 115) eqn:H1.
      * apply Z.eqb_eq in H1. destruct (tr =? smallLongEss) eqn:H2.
        -- apply Z.eqb_eq in H2. rewrite (IH _ Hname). split.
           ++ intros ->. f_equal. rewrite H1. by apply Hs'.
           ++ by intros [= _ ->].
        -- apply Z.eqb_neq in H2. split; [discriminate|]. intros [= Hletter _].
           rewrite H1 in Hletter. by apply Hs' in Hletter.
      * apply Z.eqb_neq in H1. destruct (letter (byte_of sc) =? 107) eqn:H3.
        -- apply Z.eqb_eq in H3. destruct (tr =? kelvin) eqn:H2.
           ++ apply Z.eqb_eq in H2. rewrite (IH _ Hname). split.
              ** intros ->. f_equal. rewrite H3. by apply Hk'.
              ** by intros [= _ ->].
           ++ apply Z.eqb_neq in H2. split; [discriminate|]. intros [= Hletter _].
              rewrite H3 in Hletter. by apply Hk' in Hletter.
        -- apply Z.eqb_neq in H3. split; [discriminate|]. intros [= Hletter _]. exfalso.
           destruct (decide (tr = smallLongEss)) as [->|Hn1].
           { apply H1. rewrite <- Hletter. reflexivity. }
           destruct (decide (tr = kelvin)) as [->|Hn2].
           { apply H3. rewrite <- Hletter. reflexivity. }
           specialize (Hother Hn1 Hn2). lia.
Qed.

End FoldFacts.

(* ===================================================================== *)
(** * Properties of the collector                                         *)
(* ===================================================================== *)

Section CollectorFacts.
Import prometheus presto obs.

Ltac run := unfold mbind, M_bind, mret, M_ret; cbn.

Lemma range_singleton {V : Type} (range : gmap string V -> list (string * V)) k v :
  visits range -> range {[k := v]} = [(k, v)].
Proof.
  intros Hv. specialize (Hv {[k := v]}).
  rewrite map_to_list_singleton in Hv.
  by apply Permutation_singleton_r in Hv.
Qed.

Lemma for_range_cons e r body w :
  for_range (e :: r) body w = let '(_, w') := body e w in for_range r body w'.
Proof. reflexivity. Qed.

Lemma for_range_app l1 l2 body w :
  for_range (l1 ++ l2) body w = for_range l2 body (snd (for_range l1 body w)).
Proof.
  revert w. induction l1 as [|e l1 IH]; intros w; [reflexivity|].
  cbn [app]. rewrite !for_range_cons. destruct (body e w) as [[] w']. apply IH.
Qed.

(** What the loop body does once the scrape has returned. *)
Lemma collect_cluster_failure c name cluster w r e w' :
  statisticsFromCluster c cluster w = ((r, Some e), w') ->
  collect_cluster c (name, cluster) w = (tt, extend w' [] [e] [liveness name 0%Q]).
Proof.
  intros H. unfold collect_cluster. run. rewrite H.
  unfold send, logrus_Error, extend. cbn. by rewrite app_nil_r.
Qed.

Lemma collect_cluster_success c name cluster w r w' :
  statisticsFromCluster c cluster w = ((r, None), w') ->
  collect_cluster c (name, cluster) w =
    (tt, extend w' [] [] (numeric name r ++ [liveness name 1%Q])).
Proof.
  intros H. unfold collect_cluster. run. rewrite H. unfold send, extend. cbn.
  rewrite !app_nil_r. repeat rewrite <- app_assoc. reflexivity.
Qed.

(** The Direct scrape, case by case. *)
Lemma statsFromPrestoDB_status c cluster w resp :
  parseError (client c) (Host cluster +:+ "/v1/cluster") = None ->
  Do (client c) (directRequest cluster) = inl resp ->
  StatusCode resp <> 200 ->
  statsFromPrestoDB c cluster w = ((Response0, None), extend w [directRequest cluster] [] []).
Proof.
  intros Hp Hd Hs. unfold statsFromPrestoDB, client_Get, http_NewRequest. run.
  rewrite Hp. unfold client_Do. fold (directRequest cluster). rewrite Hd.
  apply Z.eqb_neq in Hs. rewrite Hs. cbn.
  unfold extend. cbn. by rewrite !app_nil_r.
Qed.

Lemma statsFromPrestoDB_ok c cluster w resp body :
  parseError (client c) (Host cluster +:+ "/v1/cluster") = None ->
  Do (client c) (directRequest cluster) = inl resp ->
  StatusCode resp = 200 ->
  Body resp = (body, None) ->
  statsFromPrestoDB c cluster w = (json_Unmarshal body, extend w [directRequest cluster] [] []).
Proof.
  intros Hp Hd Hs Hb. unfold statsFromPrestoDB, client_Get, http_NewRequest. run.
  rewrite Hp. unfold client_Do. fold (directRequest cluster). rewrite Hd, Hs, Hb. cbn.
  destruct (json_Unmarshal body) as [r e].
  unfold extend. cbn. by rewrite !app_nil_r.
Qed.

(** ** The cycle is a sum of per-cluster contributions *)

Lemma extend_nil w : extend w [] [] [] = w.
Proof. destruct w. unfold extend. cbn. by rewrite !app_nil_r. Qed.

Lemma framed_ret {A : Type} (a : A) : framed (mret a).
Proof. intros w. unfold mret, M_ret. cbn. by rewrite extend_nil. Qed.

Lemma framed_bind {A B : Type} (m : M A) (f : A -> M B) :
  framed m -> (forall a, framed (f a)) -> framed (m ≫= f).
Proof.
  intros Hm Hf w. unfold mbind, M_bind. rewrite (Hm w).
  destruct (m idle) as [a0 s1]. cbn [fst snd].
  rewrite (Hf a0 (extend w _ _ _)), (Hf a0 s1). cbn.
  unfold extend. cbn. by rewrite !app_assoc.
Qed.

Lemma framed_send m : framed (send m).
Proof. intros w. unfold send, extend. cbn. by rewrite !app_nil_r. Qed.

Lemma framed_logrus_Error e : framed (logrus_Error e).
Proof. intros w. unfold logrus_Error, extend. cbn. by rewrite !app_nil_r. Qed.

Lemma framed_client_Do cl req : framed (client_Do cl req).
Proof. intros w. unfold client_Do, extend. cbn. by rewrite !app_nil_r. Qed.

Ltac framed :=
  repeat first
    [ match goal with H : _ |- framed _ => apply H end
    | apply framed_ret | apply framed_send | apply framed_logrus_Error
    | apply framed_client_Do
    | apply framed_bind; [|intros ?; cbn beta]
    | match goal with
      | |- framed (match ?x with _ => _ end) => destruct x
      | |- framed (if ?b then _ else _) => destruct b
      end ].

Lemma framed_statisticsFromCluster c cluster : framed (statisticsFromCluster c cluster).
Proof.
  unfold statisticsFromCluster, statsFromPrestoSQL, statsFromPrestoDB, login,
    client_Get, client_Post.
  framed.
Qed.

Lemma framed_collect_cluster c entry : framed (collect_cluster c entry).
Proof.
  pose proof (framed_statisticsFromCluster c).
  unfold collect_cluster. destruct entry as [name cluster]. framed.
Qed.

Lemma framed_for_range c entries : framed (for_range entries (collect_cluster c)).
Proof.
  pose proof (framed_collect_cluster c).
  induction entries; cbn [for_range]; framed.
Qed.

Lemma framed_Collect c range : framed (Collect c range).
Proof.
  pose proof (framed_for_range c). unfold Collect. framed.
Qed.

Lemma silent_ret {A : Type} (a : A) : silent (mret a).
Proof. by intros w. Qed.

Lemma silent_bind {A B : Type} (m : M A) (f : A -> M B) :
  silent m -> (forall a, silent (f a)) -> silent (m ≫= f).
Proof.
  intros Hm Hf w. unfold mbind, M_bind. specialize (Hm w).
  destruct (m w) as [a w1]. cbn in *. by rewrite Hf.
Qed.

Lemma silent_logrus_Error e : silent (logrus_Error e).
Proof. by intros w. Qed.

Lemma silent_client_Do cl req : silent (client_Do cl req).
Proof. by intros w. Qed.

Ltac silent :=
  repeat first
    [ apply silent_ret | apply silent_logrus_Error | apply silent_client_Do
    | apply silent_bind; [|intros ?; cbn beta]
    | match goal with
      | |- silent (match ?x with _ => _ end) => destruct x
      | |- silent (if ?b then _ else _) => destruct b
      end ].

(** A scrape emits nothing: the observations are emitted by the loop. *)
Lemma silent_statisticsFromCluster c cluster : silent (statisticsFromCluster c cluster).
Proof.
  unfold statisticsFromCluster, statsFromPrestoSQL, statsFromPrestoDB, login,
    client_Get, client_Post.
  silent.
Qed.

(** What is emitted for an entry is decided by the outcome of its scrape
    alone: up=0 on an error, the nine gauges and up=1 otherwise. *)
Lemma observations_eq c name cluster :
  observations c (name, cluster)
  = match fst (statisticsFromCluster c cluster idle) with
    | (_, Some _) => [liveness name 0%Q]
    | (r, None) => numeric name r ++ [liveness name 1%Q]
    end.
Proof.
  unfold observations.
  pose proof (silent_statisticsFromCluster c cluster idle) as Hs.
  destruct (statisticsFromCluster c cluster idle) as [[r [e|]] w1] eqn:Hst; cbn in Hs.
  - rewrite (collect_cluster_failure _ _ _ _ _ _ _ Hst). cbn. by rewrite Hs.
  - rewrite (collect_cluster_success _ _ _ _ _ _ Hst). cbn [fst snd out extend].
    by rewrite Hs.
Qed.

Lemma observations_label c name cluster m :
  m ∈ observations c (name, cluster) -> labelValues m = [name].
Proof.
  rewrite observations_eq.
  destruct (fst (statisticsFromCluster c cluster idle)) as [r [e|]]; cbn; intros Hin;
    repeat (apply elem_of_cons in Hin as [-> | Hin]; [reflexivity|]);
    by apply elem_of_nil in Hin.
Qed.

Lemma for_range_emits c entries : forall w,
  out (snd (for_range entries (collect_cluster c) w))
  = out w ++ concat (observations c <$> entries).
Proof.
  induction entries as [|e entries IH]; intros w; cbn [for_range fmap list_fmap concat].
  - cbn. by rewrite app_nil_r.
  - unfold mbind, M_bind. rewrite (framed_collect_cluster c e w).
    rewrite IH. cbn. unfold observations. by rewrite app_assoc.
Qed.

Lemma labelled_all name ms :
  (forall m, m ∈ ms -> labelValues m = [name]) -> labelled name ms = ms.
Proof.
  intros H. unfold labelled. induction ms as [|m ms IH]; [reflexivity|].
  rewrite filter_cons_True by (apply H; left).
  f_equal. apply IH. intros m' Hin. apply H. by right.
Qed.

Lemma labelled_none name other ms :
  other <> name ->
  (forall m, m ∈ ms -> labelValues m = [other]) -> labelled name ms = [].
Proof.
  intros Hne H. unfold labelled. induction ms as [|m ms IH]; [reflexivity|].
  rewrite filter_cons_False.
  - apply IH. intros m' Hin. apply H. by right.
  - rewrite (H m) by left. congruence.
Qed.

Lemma labelled_app name ms1 ms2 :
  labelled name (ms1 ++ ms2) = labelled name ms1 ++ labelled name ms2.
Proof. unfold labelled. apply filter_app. Qed.

Lemma labelled_others c name entries :
  name ∉ entries.*1 -> labelled name (concat (observations c <$> entries)) = [].
Proof.
  induction entries as [|[n1 c1] entries IH]; intros Hn; [reflexivity|].
  cbn [fmap list_fmap concat] in *. apply not_elem_of_cons in Hn as [Hne Hn].
  rewrite labelled_app, (labelled_none name n1); [by apply IH | by intros -> |].
  intros m. apply observations_label.
Qed.

Lemma labelled_concat c name cluster entries :
  NoDup entries.*1 ->
  (name, cluster) ∈ entries ->
  labelled name (concat (observations c <$> entries)) = observations c (name, cluster).
Proof.
  induction entries as [|[n0 c0] entries IH]; intros Hnd Hin.
  - by apply elem_of_nil in Hin.
  - cbn [fmap list_fmap concat] in *. apply NoDup_cons in Hnd as [Hfresh Hnd].
    rewrite labelled_app.
    apply elem_of_cons in Hin as [[= <- <-] | Hin].
    + rewrite (labelled_others c name entries Hfresh), app_nil_r.
      apply labelled_all. intros m. apply observations_label.
    + assert (Hne : n0 <> name).
      { intros ->. apply Hfresh. apply list_elem_of_fmap. by exists (name, cluster). }
      rewrite (labelled_none name n0); [by apply IH | exact Hne |].
      intros m. apply observations_label.
Qed.

(** Isolation.  In a cycle over a snapshot, in whatever order the map is
    visited, the observations that bear the name of a cluster are those of
    the loop body for the entry of that cluster: they depend on the scrape
    of that cluster and on nothing that happened to the others. *)
Lemma Collect_per_cluster c clusters range name cluster :
  clusterProvider c = (clusters, None) ->
  visits range ->
  clusters !! name = Some cluster ->
  labelled name (emitted c range) = observations c (name, cluster).
Proof.
  intros Hc Hv Hl. unfold emitted, Collect. rewrite Hc.
  rewrite for_range_emits. cbn [out idle app].
  apply labelled_concat.
  - rewrite (Hv clusters). apply NoDup_fst_map_to_list.
  - rewrite (Hv clusters). by apply elem_of_map_to_list.
Qed.

(** A cluster whose scrape fails has up=0 as its only observation, and
    the cause is logged; a cluster whose scrape succeeds has its nine
    gauges and up=1: whatever happens to the other clusters of the
    snapshot. *)
Lemma failure_is_isolated c clusters range name cluster r e :
  clusterProvider c = (clusters, None) ->
  visits range ->
  clusters !! name = Some cluster ->
  fst (statisticsFromCluster c cluster idle) = (r, Some e) ->
  labelled name (emitted c range) = [liveness name 0%Q].
Proof.
  intros Hc Hv Hl Hs.
  rewrite (Collect_per_cluster c clusters range name cluster Hc Hv Hl).
  by rewrite observations_eq, Hs.
Qed.

Lemma success_is_isolated c clusters range name cluster r :
  clusterProvider c = (clusters, None) ->
  visits range ->
  clusters !! name = Some cluster ->
  fst (statisticsFromCluster c cluster idle) = (r, None) ->
  labelled name (emitted c range) = numeric name r ++ [liveness name 1%Q].
Proof.
  intros Hc Hv Hl Hs.
  rewrite (Collect_per_cluster c clusters range name cluster Hc Hv Hl).
  by rewrite observations_eq, Hs.
Qed.

Lemma for_range_logs c entries : forall w,
  logged (snd (for_range entries (collect_cluster c) w))
  = logged w ++ concat ((fun entry => logged (snd (collect_cluster c entry idle))) <$> entries).
Proof.
  induction entries as [|e entries IH]; intros w; cbn [for_range fmap list_fmap concat].
  - cbn. by rewrite app_nil_r.
  - unfold mbind, M_bind. rewrite (framed_collect_cluster c e w).
    rewrite IH. cbn. by rewrite app_assoc.
Qed.

Lemma failure_is_logged c clusters range name cluster r e :
  clusterProvider c = (clusters, None) ->
  visits range ->
  clusters !! name = Some cluster ->
  fst (statisticsFromCluster c cluster idle) = (r, Some e) ->
  e ∈ logged (snd (Collect c range idle)).
Proof.
  intros Hc Hv Hl Hs. unfold Collect. rewrite Hc, for_range_logs. cbn [logged idle app].
  apply list_elem_of_In, in_concat.
  exists (logged (snd (collect_cluster c (name, cluster) idle))). split.
  - apply list_elem_of_In, list_elem_of_fmap. exists (name, cluster). split; [reflexivity|].
    rewrite (Hv clusters). by apply elem_of_map_to_list.
  - apply list_elem_of_In.
    destruct (statisticsFromCluster c cluster idle) as [[r' e'] w1] eqn:Hst.
    cbn in Hs. injection Hs as -> ->.
    rewrite (collect_cluster_failure _ _ _ _ _ _ _ Hst). cbn.
    apply elem_of_app. right. left.
Qed.

(** A cycle adds its observations to the ones already on the channel. *)
Lemma Collect_emits c range w :
  out (snd (Collect c range w)) = out w ++ emitted c range.
Proof. rewrite (framed_Collect c range w). reflexivity. Qed.

End CollectorFacts.

Section CollectorClaims.
Import prometheus presto obs.

Ltac run := unfold mbind, M_bind, mret, M_ret; cbn.

Lemma Header_Get_absent h key :
  (forall v, (key, v) ∉ h) -> Header_Get h key = EmptyString.
Proof.
  induction h as [|[k v] h IH]; intros Hn; [reflexivity|].
  cbn. destruct (String.eqb_spec k key) as [->|_].
  - exfalso. apply (Hn v). left.
  - apply IH. intros v' Hin. apply (Hn v'). by right.
Qed.

Lemma login_eq c cluster w resp :
  parseError (client c) (Host cluster +:+ "/ui/login") = None ->
  Do (client c) (loginRequest cluster) = inl resp ->
  login c cluster w
  = (if String.eqb (Header_Get (Header resp) "Set-Cookie") EmptyString
     then (EmptyString, Some MissingSessionCookieError)
     else (Header_Get (Header resp) "Set-Cookie", None),
     extend w [loginRequest cluster] [] []).
Proof.
  intros Hp Hd. unfold login, client_Post, http_NewRequest. run.
  rewrite Hp. unfold client_Do. cbn.
  change ("username=" +:+ "exporter" +:+ "&password=&redirectPath=")
    with "username=exporter&password=&redirectPath=".
  fold (loginRequest cluster). rewrite Hd.
  unfold extend. cbn. rewrite !app_nil_r.
  by destruct (String.eqb _ _).
Qed.

Lemma append_inj_l (p a b : string) : p +:+ a = p +:+ b -> a = b.
Proof.
  induction p as [|c p IH]; intros H; [exact H|].
  apply IH. change (String c (p +:+ a) = String c (p +:+ b)) in H. by injection H.
Qed.

(** The Authenticated scrape when the login gives a cookie and the
    statistics request is answered: whatever the status of the answer, the
    outcome is the decoding of its body. *)
Lemma statsFromPrestoSQL_answered c cluster w lresp cookie resp body :
  parseError (client c) (Host cluster +:+ "/ui/login") = None ->
  Do (client c) (loginRequest cluster) = inl lresp ->
  Header_Get (Header lresp) "Set-Cookie" = cookie ->
  cookie <> EmptyString ->
  parseError (client c) (Host cluster +:+ "/ui/api/stats") = None ->
  Do (client c) (statsRequest cluster cookie) = inl resp ->
  Body resp = (body, None) ->
  statsFromPrestoSQL c cluster w
  = (match json_Unmarshal body with
     | (_, Some e) => (Response0, Some e)
     | (response, None) => (response, None)
     end,
     extend w [loginRequest cluster; statsRequest cluster cookie] [] []).
Proof.
  intros Hp Hd Hc Hne Hp' Hd' Hb. unfold statsFromPrestoSQL. run.
  rewrite (login_eq c cluster w lresp Hp Hd), Hc.
  apply String.eqb_neq in Hne. rewrite Hne.
  unfold http_NewRequest. rewrite Hp'. unfold client_Do. cbn.
  fold (statsRequest cluster cookie). rewrite Hd', Hb.
  unfold extend. cbn. rewrite !app_nil_r, <- !app_assoc. cbn.
  by destruct (json_Unmarshal body) as [r [e|]].
Qed.

(** C9. If the provider's [Provide()] fails, [Collect] logs the cause and
    returns: it sends no request and emits no observation, of liveness or
    numeric, for any cluster. *)
Theorem Collect_aborts_when_discovery_fails
  (c : Collector) (range : gmap string ClusterInfo -> list (string * ClusterInfo))
  (w : World) (clusters : gmap string ClusterInfo) (e : error) :
  clusterProvider c = (clusters, Some e) ->
  Collect c range w = (tt, mkWorld (requests w) (logged w ++ [e]) (out w)).
Proof. intros H. unfold Collect. rewrite H. reflexivity. Qed.

Lemma Collect_aborts_when_discovery_fails_witness :
  clusterProvider scenario.discovery_failed
    = (∅, Some (awsError "ThrottlingException" "Rate exceeded"))
  /\ Collect scenario.discovery_failed map_to_list idle
     = (tt, mkWorld [] [awsError "ThrottlingException" "Rate exceeded"] []).
Proof.
  split; [reflexivity|].
  apply (Collect_aborts_when_discovery_fails
           scenario.discovery_failed map_to_list idle ∅
           (awsError "ThrottlingException" "Rate exceeded")).
  reflexivity.
Defined.

(** C8. Authenticated variant: when the answer to the login carries no
    Set-Cookie header, the scrape fails with the missing-cookie error and
    the login is the only request it sends, so that no GET to /ui/api/stats
    goes out; in the cycle, this is a failure of that cluster: up=0 is the
    only observation that bears its name. *)
Theorem authenticated_without_cookie_never_asks_stats
  (c : Collector) (clusters : gmap string ClusterInfo)
  (range : gmap string ClusterInfo -> list (string * ClusterInfo))
  (name : string) (cluster : ClusterInfo) (w : World) (resp : HttpResponse) :
  clusterProvider c = (clusters, None) ->
  visits range ->
  clusters !! name = Some cluster ->
  Distribution cluster = DistSql ->
  parseError (client c) (Host cluster +:+ "/ui/login") = None ->
  Do (client c) (loginRequest cluster) = inl resp ->
  (forall v, ("Set-Cookie", v) ∉ Header resp) ->
  statsFromPrestoSQL c cluster w
    = ((Response0, Some MissingSessionCookieError), extend w [loginRequest cluster] [] [])
  /\ (forall req, req ∈ requests (snd (statsFromPrestoSQL c cluster idle)) ->
        URL req <> Host cluster +:+ "/ui/api/stats")
  /\ labelled name (emitted c range) = [liveness name 0%Q].
Proof.
  intros Hc Hv Hl Hd Hp Hdo Hno.
  assert (Hsql : forall w0, statsFromPrestoSQL c cluster w0
    = ((Response0, Some MissingSessionCookieError), extend w0 [loginRequest cluster] [] [])).
  { intros w0. unfold statsFromPrestoSQL. run.
    rewrite (login_eq c cluster w0 resp Hp Hdo), (Header_Get_absent _ _ Hno).
    reflexivity. }
  split; [apply Hsql|]. split.
  - intros req Hin. rewrite Hsql in Hin. cbn in Hin.
    apply list_elem_of_singleton in Hin. subst req. cbn.
    intros Heq. apply append_inj_l in Heq. discriminate.
  - rewrite (Collect_per_cluster c clusters range name cluster Hc Hv Hl).
    rewrite observations_eq. unfold statisticsFromCluster. rewrite Hd, Hsql.
    reflexivity.
Qed.

Lemma authenticated_without_cookie_never_asks_stats_witness :
  Distribution scenario.clusterB = DistSql
  /\ (forall v, ("Set-Cookie", v) ∉ [("Content-Length", "0")])
  /\ statsFromPrestoSQL scenario.login_without_cookie scenario.clusterB idle
     = ((Response0, Some MissingSessionCookieError),
        mkWorld [loginRequest scenario.clusterB] [] [])
  /\ labelled "B" (emitted scenario.login_without_cookie map_to_list) = [liveness "B" 0%Q].
Proof.
  assert (Hno : forall v, ("Set-Cookie", v) ∉ [("Content-Length", "0")]).
  { intros v Hin. apply list_elem_of_singleton in Hin. discriminate Hin. }
  destruct (authenticated_without_cookie_never_asks_stats
              scenario.login_without_cookie {[ "B" := scenario.clusterB ]} map_to_list
              "B" scenario.clusterB idle
              (mkResponse 200 [("Content-Length", "0")] (EmptyString, None))
              eq_refl (fun m => reflexivity _) eq_refl eq_refl eq_refl eq_refl Hno)
    as (H1 & _ & H3).
  split; [reflexivity|]. split; [exact Hno|]. split; [exact H1 | exact H3].
Defined.

(** C1. Direct variant: when the GET to <coordinatorURL>/v1/cluster is
    answered with a status other than 200, [statsFromPrestoDB] returns
    [Response{}] with the nil [err] of the call that succeeded and logs
    nothing; in the cycle, the observations that bear the name of the
    cluster are then the nine gauges at 0 and up=1, where the claim expects
    up=0 and no gauge. *)
Theorem direct_non200_is_reported_up
  (c : Collector) (clusters : gmap string ClusterInfo)
  (range : gmap string ClusterInfo -> list (string * ClusterInfo))
  (name : string) (cluster : ClusterInfo) (w : World) (resp : HttpResponse) :
  clusterProvider c = (clusters, None) ->
  visits range ->
  clusters !! name = Some cluster ->
  Distribution cluster = DistDb ->
  parseError (client c) (Host cluster +:+ "/v1/cluster") = None ->
  Do (client c) (directRequest cluster) = inl resp ->
  StatusCode resp <> 200 ->
  statsFromPrestoDB c cluster w = ((Response0, None), extend w [directRequest cluster] [] [])
  /\ labelled name (emitted c range) = numeric name Response0 ++ [liveness name 1%Q].
Proof.
  intros Hc Hv Hl Hd Hp Hdo Hs.
  split; [by apply statsFromPrestoDB_status with (resp := resp)|].
  rewrite (Collect_per_cluster c clusters range name cluster Hc Hv Hl).
  rewrite observations_eq. unfold statisticsFromCluster. rewrite Hd.
  by rewrite (statsFromPrestoDB_status c cluster idle resp Hp Hdo Hs).
Qed.

Lemma direct_non200_is_reported_up_witness :
  Distribution scenario.clusterA = DistDb
  /\ Do (client scenario.direct_500) (directRequest scenario.clusterA)
     = inl (mkResponse 500 [("Content-Type", "text/plain")] ("Internal Server Error", None))
  /\ statsFromPrestoDB scenario.direct_500 scenario.clusterA idle
     = ((Response0, None), mkWorld [directRequest scenario.clusterA] [] [])
  /\ labelled "A" (emitted scenario.direct_500 map_to_list)
     = numeric "A" Response0 ++ [liveness "A" 1%Q].
Proof.
  split; [reflexivity|]. split; [reflexivity|].
  apply (direct_non200_is_reported_up
           scenario.direct_500 {[ "A" := scenario.clusterA ]} map_to_list
           "A" scenario.clusterA idle
           (mkResponse 500 [("Content-Type", "text/plain")] ("Internal Server Error", None)));
    try reflexivity.
  - intros m. reflexivity.
  - cbn. lia.
Defined.

(** C10. The sample body decodes, without error, into the statistics whose
    nine fields are the numbers of the text (12.5 is 25/2, exactly); and in
    a cycle, for a cluster whose scrape returned this decoding, the
    observations that bear its name are nine gauges with these values,
    followed by up=1. *)
Theorem sample_body_round_trip :
  json_Unmarshal sample_body = (sample_stats, None)
  /\ forall (c : Collector) (clusters : gmap string ClusterInfo)
       (range : gmap string ClusterInfo -> list (string * ClusterInfo))
       (name : string) (cluster : ClusterInfo),
       clusterProvider c = (clusters, None) ->
       visits range ->
       clusters !! name = Some cluster ->
       fst (statisticsFromCluster c cluster idle) = json_Unmarshal sample_body ->
       labelled name (emitted c range)
       = [ gauge runningQueries name 3%Q;
           gauge blockedQueries name 0%Q;
           gauge queuedQueries name 1%Q;
           gauge activeWorkers name 5%Q;
           gauge runningDrivers name 2%Q;
           gauge reservedMemory name 1048576%Q;
           gauge totalInputRows name 1000%Q;
           gauge totalInputBytes name 500000%Q;
           gauge totalCpuTimeSecs name (25 # 2)%Q;
           liveness name 1%Q ].
Proof.
  assert (Hdec : json_Unmarshal sample_body = (sample_stats, None))
    by (vm_compute; reflexivity).
  split; [exact Hdec|].
  intros c clusters range name cluster Hc Hv Hl Hs. rewrite Hdec in Hs.
  rewrite (Collect_per_cluster c clusters range name cluster Hc Hv Hl).
  rewrite observations_eq, Hs. reflexivity.
Qed.

Lemma sample_body_round_trip_witness :
  fst (statisticsFromCluster scenario.direct_200 scenario.clusterA idle)
    = json_Unmarshal sample_body
  /\ labelled "A" (emitted scenario.direct_200 map_to_list)
     = [ gauge runningQueries "A" 3%Q;
         gauge blockedQueries "A" 0%Q;
         gauge queuedQueries "A" 1%Q;
         gauge activeWorkers "A" 5%Q;
         gauge runningDrivers "A" 2%Q;
         gauge reservedMemory "A" 1048576%Q;
         gauge totalInputRows "A" 1000%Q;
         gauge totalInputBytes "A" 500000%Q;
         gauge totalCpuTimeSecs "A" (25 # 2)%Q;
         liveness "A" 1%Q ].
Proof.
  assert (Hs : fst (statisticsFromCluster scenario.direct_200 scenario.clusterA idle)
               = json_Unmarshal sample_body)
    by (vm_compute; reflexivity).
  split; [exact Hs|].
  apply (proj2 sample_body_round_trip
           scenario.direct_200 {[ "A" := scenario.clusterA ]} map_to_list
           "A" scenario.clusterA).
  - reflexivity.
  - intros m. reflexivity.
  - reflexivity.
  - exact Hs.
Defined.

(** C4. Authenticated variant: [statsFromPrestoSQL] does not look at the
    status of the answer to the statistics request.  When the login gives a
    cookie and the request is answered 500 with a body that decodes, the
    scrape returns the decoding without error, and in the cycle the
    observations that bear the name of the cluster are nine gauges and
    up=1, where the claim expects up=0 alone. *)
Theorem authenticated_500_is_reported_up
  (c : Collector) (clusters : gmap string ClusterInfo)
  (range : gmap string ClusterInfo -> list (string * ClusterInfo))
  (name : string) (cluster : ClusterInfo)
  (lresp resp : HttpResponse) (cookie body : string) (r : Response) :
  clusterProvider c = (clusters, None) ->
  visits range ->
  clusters !! name = Some cluster ->
  Distribution cluster = DistSql ->
  parseError (client c) (Host cluster +:+ "/ui/login") = None ->
  Do (client c) (loginRequest cluster) = inl lresp ->
  Header_Get (Header lresp) "Set-Cookie" = cookie ->
  cookie <> EmptyString ->
  parseError (client c) (Host cluster +:+ "/ui/api/stats") = None ->
  Do (client c) (statsRequest cluster cookie) = inl resp ->
  StatusCode resp = 500 ->
  Body resp = (body, None) ->
  json_Unmarshal body = (r, None) ->
  labelled name (emitted c range) = numeric name r ++ [liveness name 1%Q].
Proof.
  intros Hc Hv Hl Hd Hp Hdo Hck Hne Hp' Hdo' _ Hb Hj.
  rewrite (Collect_per_cluster c clusters range name cluster Hc Hv Hl).
  rewrite observations_eq. unfold statisticsFromCluster. rewrite Hd.
  rewrite (statsFromPrestoSQL_answered c cluster idle lresp cookie resp body
             Hp Hdo Hck Hne Hp' Hdo' Hb), Hj.
  reflexivity.
Qed.

(** The scenario of the spec, with a JSON object as the body of the 500
    answer: A has its nine gauges and up=1, and so has B, at 0. *)
Lemma authenticated_500_is_reported_up_witness :
  StatusCode (mkResponse 500 [("Content-Type", "application/json")]
                (json_text "{'message':'Internal Server Error'}", None)) = 500
  /\ Do (client scenario.two_clusters)
        (statsRequest scenario.clusterB "Trino-UI-Token=t1")
     = inl (mkResponse 500 [("Content-Type", "application/json")]
              (json_text "{'message':'Internal Server Error'}", None))
  /\ labelled "A" (emitted scenario.two_clusters map_to_list)
     = numeric "A" sample_stats ++ [liveness "A" 1%Q]
  /\ labelled "B" (emitted scenario.two_clusters map_to_list)
     = numeric "B" Response0 ++ [liveness "B" 1%Q].
Proof.
  split; [reflexivity|]. split; [reflexivity|]. split; [vm_compute; reflexivity|].
  apply (authenticated_500_is_reported_up
           scenario.two_clusters
           {[ "A" := scenario.clusterA; "B" := scenario.clusterB ]} map_to_list
           "B" scenario.clusterB
           (mkResponse 303 [("Set-Cookie", "Trino-UI-Token=t1")] (EmptyString, None))
           (mkResponse 500 [("Content-Type", "application/json")]
              (json_text "{'message':'Internal Server Error'}", None))
           "Trino-UI-Token=t1"
           (json_text "{'message':'Internal Server Error'}") Response0);
    try reflexivity.
  - intros m. reflexivity.
  - discriminate.
Defined.

End CollectorClaims.

(* ===================================================================== *)
(** * Properties of the provider                                          *)
(* ===================================================================== *)

Section ProviderFacts.
Import emr aws topo.

Ltac go := unfold mbind, G_bind, mret, G_ret, deref, panic in *; cbn in *.

(** ** Case-insensitive comparison *)







(** ** The resolution of the master address *)


Lemma emrClient_ListInstances_eq c input w :
  emrClient_ListInstances c input w
  = (Returns (fst (ListInstances (emrClient c) input),
              as_error (snd (ListInstances (emrClient c) input))),
     mkWorld (cache_ w) (calls w ++ [CallListInstances input])).
Proof.
  unfold emrClient_ListInstances, call. go.
  by destruct (ListInstances (emrClient c) input).
Qed.






End ProviderFacts.

Section ProviderClaims.
Import emr aws topo.

Ltac go := unfold mbind, G_bind, mret, G_ret, deref, panic in *; cbn in *.





(** ** The snapshot of a discovery pass *)








(** ** The cache *)

Lemma cache_Get_fresh (cc : cache.Cache (gmap string ClusterInfo)) k item t0 d now :
  cache.items cc !! k = Some item ->
  cache.Expiration item = t0 + d ->
  now - t0 < d ->
  cache.Get cc k now = Some (cache.Object item).
Proof.
  intros Hi He Hy. unfold cache.Get. rewrite Hi.
  replace (cache.Expiration item <? now) with false; [by rewrite andb_false_r|].
  symmetry. apply Z.ltb_ge. lia.
Qed.

Lemma cache_Set_item (cc : cache.Cache (gmap string ClusterInfo)) k x now :
  cache.items (cache.Set_ cc k x (30 * time_Minute) now) !! k
  = Some (cache.mkItem x (now + 30 * time_Minute)).
Proof. unfold cache.Set_. cbn. by rewrite lookup_insert_eq. Qed.

(** C5. A snapshot that is in the cache and younger than its window (it
    was stored at [t0] for a duration [d], and less than [d] has passed) is
    returned as it is, and the state, with the list of the calls made to
    the service, is unchanged: no call is made.  On a miss, the snapshot
    that the discovery pass returns is stored under the key with an expiry
    thirty minutes after the instant of the store, then returned; from then
    on, a call less than thirty minutes later returns it from the cache. *)
Theorem Provide_cache (c : ClusterProvider) (w : World) (now now' : Z) :
  (forall item t0 d,
      cache.items (cache_ w) !! cacheKey = Some item ->
      cache.Expiration item = t0 + d ->
      now - t0 < d ->
      Provide c now now' w = (Returns (cache.Object item, None), w))
  /\ (forall masters w',
        cache.Get (cache_ w) cacheKey now = None ->
        listTargetMasters c w = (Returns (masters, None), w') ->
        let stored :=
          mkWorld (cache.Set_ (cache_ w') cacheKey masters (30 * time_Minute) now')
                  (calls w') in
        Provide c now now' w = (Returns (masters, None), stored)
        /\ cache.items (cache_ stored) !! cacheKey
           = Some (cache.mkItem masters (now' + 30 * time_Minute))
        /\ forall later later',
             later - now' < 30 * time_Minute ->
             Provide c later later' stored = (Returns (masters, None), stored)).
Proof.
  assert (Hhit : forall w0 t t' item t0 d,
             cache.items (cache_ w0) !! cacheKey = Some item ->
             cache.Expiration item = t0 + d ->
             t - t0 < d ->
             Provide c t t' w0 = (Returns (cache.Object item, None), w0)).
  { intros w0 t t' item t0 d Hi He Hy. unfold Provide, cache_Get. go.
    by rewrite (cache_Get_fresh _ _ _ _ _ _ Hi He Hy). }
  split; [apply Hhit|].
  intros masters w' Hmiss Hpass stored.
  split; [|split].
  - unfold Provide, cache_Get, cache_Set. go. rewrite Hmiss, Hpass. reflexivity.
  - apply cache_Set_item.
  - intros later later' Hy.
    apply (Hhit stored later later' (cache.mkItem masters (now' + 30 * time_Minute))
                now' (30 * time_Minute)); [apply cache_Set_item | reflexivity | exact Hy].
Qed.

Lemma Provide_cache_witness :
  cache.Get (cache_ NewClusterProvider_world) cacheKey discovery.noon = None
  /\ Provide discovery.service discovery.noon (discovery.noon + 5 * 1000000000)
       NewClusterProvider_world
     = (Returns (discovery.snapshot, None),
        snd (Provide discovery.service discovery.noon (discovery.noon + 5 * 1000000000)
               NewClusterProvider_world))
  /\ Provide discovery.service (discovery.noon + 29 * time_Minute)
       (discovery.noon + 29 * time_Minute)
       (snd (Provide discovery.service discovery.noon (discovery.noon + 5 * 1000000000)
               NewClusterProvider_world))
     = (Returns (discovery.snapshot, None),
        snd (Provide discovery.service discovery.noon (discovery.noon + 5 * 1000000000)
               NewClusterProvider_world)).
Proof.
  assert (Hmiss : cache.Get (cache_ NewClusterProvider_world) cacheKey discovery.noon = None)
    by reflexivity.
  assert (Hpass : listTargetMasters discovery.service NewClusterProvider_world
                  = (Returns (discovery.snapshot, None),
                     snd (listTargetMasters discovery.service NewClusterProvider_world)))
    by (vm_compute; reflexivity).
  destruct (proj2 (Provide_cache discovery.service NewClusterProvider_world
                     discovery.noon (discovery.noon + 5 * 1000000000))
              discovery.snapshot
              (snd (listTargetMasters discovery.service NewClusterProvider_world))
              Hmiss Hpass) as (Hstore & _ & Hlater).
  split; [exact Hmiss|].
  rewrite Hstore. cbn [snd]. split; [reflexivity|].
  apply Hlater. unfold time_Minute. lia.
Defined.

(** C2.  On the service of [discovery] with [DescribeCluster] throttled,
    the call for the first listed cluster returns an error, which
    [listTargetClusters] discards; [isTrinoInstalled] then reads the
    applications of the nil cluster of the empty output, and the pass
    panics: [Provide] returns no error, where the claim expects every error
    of a describe-cluster call to be returned. *)
Theorem describe_error_is_not_returned :
  DescribeCluster (emrClient discovery.throttled) (mkDescribeClusterInput (Some "j-FLEET"))
    = (mkDescribeClusterOutput None, Some (mkAwserr "ThrottlingException" "Rate exceeded"))
  /\ Provide discovery.throttled discovery.noon discovery.noon NewClusterProvider_world
     = (Panics,
        mkWorld (cache_ NewClusterProvider_world)
                [ CallListClusters (mkListClustersInput ["WAITING"]);
                  CallDescribeCluster (mkDescribeClusterInput (Some "j-FLEET")) ]).
Proof. split; [reflexivity | vm_compute; reflexivity]. Qed.

(** ** What of C2 holds: errors that are returned leave the cache alone *)

Lemma keeps_ret {A : Type} (a : A) : keeps_cache (mret a).
Proof. by intros w. Qed.

Lemma keeps_panic {A : Type} : keeps_cache (@panic A).
Proof. by intros w. Qed.

Lemma keeps_deref {A : Type} (p : option A) : keeps_cache (deref p).
Proof. by destruct p; intros w. Qed.

Lemma keeps_call k : keeps_cache (call k).
Proof. by intros w. Qed.

Lemma keeps_bind {A B : Type} (m : G A) (f : A -> G B) :
  keeps_cache m -> (forall a, keeps_cache (f a)) -> keeps_cache (m ≫= f).
Proof.
  intros Hm Hf w. unfold mbind, G_bind. specialize (Hm w).
  destruct (m w) as [[a|] w1]; cbn in *; [|exact Hm].
  by rewrite Hf.
Qed.

Ltac keeps :=
  repeat first
    [ match goal with H : _ |- keeps_cache _ => apply H end
    | apply keeps_ret | apply keeps_panic | apply keeps_deref | apply keeps_call
    | apply keeps_bind; [|intros ?; cbn beta]
    | match goal with
      | |- keeps_cache (match ?x with _ => _ end) => destruct x
      | |- keeps_cache (if ?b then _ else _) => destruct b
      end ].

Lemma keeps_ListInstances c input : keeps_cache (emrClient_ListInstances c input).
Proof. unfold emrClient_ListInstances. keeps. Qed.

Lemma keeps_isTrinoInstalled_range applications :
  keeps_cache (isTrinoInstalled_range applications).
Proof. induction applications; cbn [isTrinoInstalled_range]; keeps. Qed.

Lemma keeps_isTrinoInstalled descr : keeps_cache (isTrinoInstalled descr).
Proof.
  pose proof keeps_isTrinoInstalled_range. unfold isTrinoInstalled. keeps.
Qed.

Lemma keeps_NodeGroup_range c cl groups :
  keeps_cache (getMasterInstanceForNodeGroup_range c cl groups).
Proof.
  pose proof (keeps_ListInstances c).
  induction groups; cbn [getMasterInstanceForNodeGroup_range]; keeps.
Qed.

Lemma keeps_getClusterMasterInstance c descr :
  keeps_cache (getClusterMasterInstance c descr).
Proof.
  pose proof (keeps_ListInstances c). pose proof (keeps_NodeGroup_range c).
  unfold getClusterMasterInstance, getMasterInstanceForNodeGroup, getMasterInstanceForFleet.
  keeps.
Qed.

Lemma keeps_listTargetClusters_page c page : forall clusters,
  keeps_cache (listTargetClusters_page c page clusters).
Proof.
  pose proof keeps_isTrinoInstalled.
  induction page; intros clusters; cbn [listTargetClusters_page];
    unfold emrClient_DescribeCluster; keeps.
Qed.

Lemma keeps_listTargetClusters_pages c pages : forall clusters,
  keeps_cache (listTargetClusters_pages c pages clusters).
Proof.
  pose proof (keeps_listTargetClusters_page c).
  induction pages; intros clusters; cbn [listTargetClusters_pages]; keeps.
Qed.

Lemma keeps_listTargetMasters_range c clusters : forall acc,
  keeps_cache (listTargetMasters_range c clusters acc).
Proof.
  pose proof (keeps_getClusterMasterInstance c).
  induction clusters; intros acc; cbn [listTargetMasters_range]; keeps.
Qed.

Lemma keeps_listTargetMasters c : keeps_cache (listTargetMasters c).
Proof.
  pose proof (keeps_listTargetClusters_pages c).
  pose proof (keeps_listTargetMasters_range c).
  unfold listTargetMasters, listTargetClusters, emrClient_ListClustersPages. keeps.
Qed.

(** Whenever [Provide] returns an error, it returns it with no snapshot
    (the nil map) and the cache is as it was before the call. *)
Lemma Provide_error_leaves_cache c now now' w m e w' :
  Provide c now now' w = (Returns (m, Some e), w') ->
  m = ∅ /\ cache_ w' = cache_ w.
Proof.
  unfold Provide, cache_Get, cache_Set. go.
  destruct (cache.Get (cache_ w) cacheKey now); [discriminate|].
  pose proof (keeps_listTargetMasters c w) as Hk.
  destruct (listTargetMasters c w) as [[[masters err]|] w1]; [|discriminate].
  destruct err; [|discriminate]. intros [= <- <- <-]. by split.
Qed.

(** An error of a query for instances is returned by the resolution. *)
Lemma fleet_query_error c descr cl w output e :
  Cluster_ descr = Some cl ->
  ListInstances (emrClient c) (fleetInput cl) = (output, Some e) ->
  fst (getMasterInstanceForFleet c descr w)
  = Returns (EmptyString, Some (awsError (Code e) (Message e))).
Proof.
  intros Hcl Hq. unfold getMasterInstanceForFleet. go. rewrite Hcl. go.
  rewrite emrClient_ListInstances_eq. fold (fleetInput cl). by rewrite Hq.
Qed.

Lemma node_groups_query_error c descr cl w output e :
  Cluster_ descr = Some cl ->
  ListInstances (emrClient c) (groupsInput cl) = (output, Some e) ->
  fst (getMasterInstanceForNodeGroup c descr w)
  = Returns (EmptyString, Some (awsError (Code e) (Message e))).
Proof.
  intros Hcl Hq. unfold getMasterInstanceForNodeGroup. go. rewrite Hcl. go.
  rewrite emrClient_ListInstances_eq. fold (groupsInput cl). by rewrite Hq.
Qed.

(** The error of a resolution ends the pass, with no snapshot. *)
Lemma resolution_error_is_returned c cluster clusters acc w address e w1 :
  getClusterMasterInstance c cluster w = (Returns (address, Some e), w1) ->
  listTargetMasters_range c (cluster :: clusters) acc w = (Returns (∅, Some e), w1).
Proof. intros H. cbn. go. by rewrite H. Qed.

(** The errors of [DescribeCluster] play no part in the pass: two services
    that differ in them alone are treated alike. *)
Lemma describe_errors_are_ignored a b now now' w :
  same_but_describe_errors a b ->
  Provide (mkClusterProvider a) now now' w = Provide (mkClusterProvider b) now now' w.
Proof.
  intros (Hlist & Hinst & Hdescr).
  assert (HLI : forall input w0,
            emrClient_ListInstances (mkClusterProvider a) input w0
            = emrClient_ListInstances (mkClusterProvider b) input w0).
  { intros input w0. by rewrite !emrClient_ListInstances_eq, Hinst. }
  assert (Hrange : forall cl groups w0,
            getMasterInstanceForNodeGroup_range (mkClusterProvider a) cl groups w0
            = getMasterInstanceForNodeGroup_range (mkClusterProvider b) cl groups w0).
  { intros cl groups. induction groups as [|g groups IH]; intros w0; [reflexivity|].
    cbn. go. rewrite HLI.
    destruct (emrClient_ListInstances _ _ w0) as [[[o [e|]]|] w1]; try reflexivity.
    destruct (Instances o); [apply IH | reflexivity]. }
  assert (Hmaster : forall descr w0,
            getClusterMasterInstance (mkClusterProvider a) descr w0
            = getClusterMasterInstance (mkClusterProvider b) descr w0).
  { intros descr w0.
    unfold getClusterMasterInstance, getMasterInstanceForNodeGroup, getMasterInstanceForFleet.
    go. destruct (Cluster_ descr) as [cl|]; [|reflexivity]. go.
    destruct (InstanceCollectionType cl) as [t|]; [|reflexivity]. go.
    destruct (String.eqb t _).
    - rewrite HLI.
      destruct (emrClient_ListInstances _ _ w0) as [[[o [e|]]|] w1]; try reflexivity.
      by rewrite Hrange.
    - destruct (String.eqb t _); [|reflexivity]. by rewrite HLI. }
  assert (Hpage : forall page clusters w0,
            listTargetClusters_page (mkClusterProvider a) page clusters w0
            = listTargetClusters_page (mkClusterProvider b) page clusters w0).
  { intros page. induction page as [|s page IH]; intros clusters w0; [reflexivity|].
    cbn. unfold emrClient_DescribeCluster, call. go.
    specialize (Hdescr (mkDescribeClusterInput (Summary_Id s))).
    destruct (DescribeCluster a _) as [da ea], (DescribeCluster b _) as [db eb].
    cbn in Hdescr. subst db. cbn.
    destruct (isTrinoInstalled da _) as [[[|]|] w1]; cbn; [apply IH | apply IH | reflexivity]. }
  assert (Hpages : forall pages clusters w0,
            listTargetClusters_pages (mkClusterProvider a) pages clusters w0
            = listTargetClusters_pages (mkClusterProvider b) pages clusters w0).
  { intros pages. induction pages as [|p pages IH]; intros clusters w0; [reflexivity|].
    cbn. go. rewrite Hpage.
    destruct (listTargetClusters_page _ _ _ w0) as [[r|] w1]; [apply IH | reflexivity]. }
  assert (Hmasters : forall clusters acc w0,
            listTargetMasters_range (mkClusterProvider a) clusters acc w0
            = listTargetMasters_range (mkClusterProvider b) clusters acc w0).
  { intros clusters. induction clusters as [|d clusters IH]; intros acc w0; [reflexivity|].
    cbn. go. rewrite Hmaster.
    destruct (getClusterMasterInstance _ d w0) as [[[m [e|]]|] w1]; try reflexivity.
    destruct (Cluster_ d) as [cl|]; [|reflexivity]. go.
    destruct (Cluster_Name cl); [|reflexivity]. go. apply IH. }
  unfold Provide, cache_Get, cache_Set, listTargetMasters, listTargetClusters,
    emrClient_ListClustersPages, call. go.
  destruct (cache.Get (cache_ w) cacheKey now); [reflexivity|].
  rewrite Hlist. destruct (ListClustersPages b _) as [pages e]. cbn.
  rewrite Hpages.
  destruct (listTargetClusters_pages _ pages [] _) as [[clusters|] w1]; [|reflexivity].
  cbn. destruct (as_error e); [reflexivity|]. by rewrite Hmasters.
Qed.

(** An error of the listing is returned by the discovery pass unless it
    panics. *)
Lemma listing_error_is_returned c w pages e :
  ListClustersPages (emrClient c) (mkListClustersInput ["WAITING"]) = (pages, Some e) ->
  fst (listTargetMasters c w) = Returns (∅, Some (awsError (Code e) (Message e)))
  \/ fst (listTargetMasters c w) = Panics.
Proof.
  intros Hl. unfold listTargetMasters, listTargetClusters, emrClient_ListClustersPages, call.
  go. rewrite Hl. cbn.
  destruct (listTargetClusters_pages c pages [] _) as [[clusters|] w1]; cbn;
    [by left | by right].
Qed.

End ProviderClaims.

(* ===================================================================== *)
(** * Further properties of the collector                                 *)
(* ===================================================================== *)

Section CollectorCoverage.
Import prometheus presto obs cover.

Ltac run := unfold mbind, M_bind, mret, M_ret; cbn.

Lemma statsFromPrestoDB_transport c cluster w e :
  parseError (client c) (Host cluster +:+ "/v1/cluster") = None ->
  Do (client c) (directRequest cluster) = inr e ->
  statsFromPrestoDB c cluster w = ((Response0, Some e), extend w [directRequest cluster] [] []).
Proof.
  intros Hp Hd. unfold statsFromPrestoDB, client_Get, http_NewRequest. run.
  rewrite Hp. unfold client_Do. fold (directRequest cluster). rewrite Hd. cbn.
  unfold extend. cbn. by rewrite !app_nil_r.
Qed.

Lemma statsFromPrestoDB_read_error c cluster w resp body e :
  parseError (client c) (Host cluster +:+ "/v1/cluster") = None ->
  Do (client c) (directRequest cluster) = inl resp ->
  StatusCode resp = 200 ->
  Body resp = (body, Some e) ->
  statsFromPrestoDB c cluster w
  = ((Response0, Some e), extend w [directRequest cluster] [e] []).
Proof.
  intros Hp Hd Hs Hb. unfold statsFromPrestoDB, client_Get, http_NewRequest. run.
  rewrite Hp. unfold client_Do. fold (directRequest cluster). rewrite Hd, Hs, Hb. cbn.
  unfold logrus_Error, extend. cbn. by rewrite !app_nil_r.
Qed.

Lemma collect_cluster_requests c name cluster :
  requests (snd (collect_cluster c (name, cluster) idle))
  = requests (snd (statisticsFromCluster c cluster idle)).
Proof.
  destruct (statisticsFromCluster c cluster idle) as [[r [e|]] w1] eqn:Hst.
  - rewrite (collect_cluster_failure _ _ _ _ _ _ _ Hst). cbn. by rewrite app_nil_r.
  - rewrite (collect_cluster_success _ _ _ _ _ _ Hst). cbn. by rewrite app_nil_r.
Qed.

Lemma for_range_requests c entries : forall w,
  requests (snd (for_range entries (collect_cluster c) w))
  = requests w
    ++ concat ((fun entry => requests (snd (collect_cluster c entry idle))) <$> entries).
Proof.
  induction entries as [|e entries IH]; intros w; cbn [for_range fmap list_fmap concat].
  - cbn. by rewrite app_nil_r.
  - unfold mbind, M_bind. rewrite (framed_collect_cluster c e w).
    rewrite IH. cbn. by rewrite app_assoc.
Qed.

Lemma login_requests c cluster req :
  req ∈ requests (snd (login c cluster idle)) -> req = loginRequest cluster.
Proof.
  unfold login, client_Post, http_NewRequest. run.
  destruct (parseError (client c) _); cbn; [intros H; by apply elem_of_nil in H|].
  unfold client_Do. cbn.
  change ("username=" +:+ "exporter" +:+ "&password=&redirectPath=")
    with "username=exporter&password=&redirectPath=".
  fold (loginRequest cluster).
  destruct (Do (client c) (loginRequest cluster)) as [resp|e]; cbn.
  - destruct (String.eqb _ _); cbn; intros H; by apply list_elem_of_singleton in H.
  - intros H; by apply list_elem_of_singleton in H.
Qed.

Lemma login_cookie c cluster cookie w :
  login c cluster idle = ((cookie, None), w) -> cookie <> EmptyString.
Proof.
  unfold login, client_Post, http_NewRequest. run.
  destruct (parseError (client c) _); cbn; [discriminate|].
  unfold client_Do. cbn.
  destruct (Do (client c) _) as [resp|e]; cbn; [|discriminate].
  destruct (String.eqb_spec (Header_Get (Header resp) "Set-Cookie") EmptyString) as [|Hne];
    cbn; [discriminate|].
  intros [= <- _]. exact Hne.
Qed.

(** Every request of a scrape is one of the three that the collector may
    send to the cluster. *)
Lemma scrape_requests c cluster req :
  req ∈ requests (snd (statisticsFromCluster c cluster idle)) -> addressed_to cluster req.
Proof.
  unfold statisticsFromCluster, addressed_to.
  destruct (Distribution cluster) as [| |s] eqn:Hd.
  - intros Hin. right. split; [reflexivity|].
    unfold statsFromPrestoSQL in Hin. unfold mbind, M_bind in Hin.
    pose proof (login_requests c cluster) as Hlr.
    pose proof (login_cookie c cluster) as Hck.
    destruct (login c cluster idle) as [[cookie [e|]] w1]; cbn in *.
    + left. by apply Hlr.
    + specialize (Hck cookie w1 eq_refl). unfold http_NewRequest in Hin.
      destruct (parseError (client c) _); cbn in Hin; [left; by apply Hlr|].
      unfold client_Do in Hin. fold (statsRequest cluster cookie) in Hin.
      assert (Hcases : req ∈ requests w1 ++ [statsRequest cluster cookie]).
      { destruct (Do (client c) (statsRequest cluster cookie)) as [resp|e]; cbn in Hin;
          [|exact Hin].
        destruct (Body resp) as [body [e|]]; cbn in Hin; [exact Hin|].
        destruct (json_Unmarshal body) as [r [e|]]; exact Hin. }
      apply elem_of_app in Hcases as [H1 | H2]; [left; by apply Hlr|].
      right. exists cookie. split; [exact Hck|]. by apply list_elem_of_singleton in H2.
  - intros Hin. left. split; [reflexivity|].
    unfold statsFromPrestoDB, client_Get, http_NewRequest in Hin. unfold mbind, M_bind in Hin.
    destruct (parseError (client c) _); cbn in Hin; [by apply elem_of_nil in Hin|].
    unfold client_Do in Hin. fold (directRequest cluster) in Hin.
    assert (Hone : req ∈ [directRequest cluster]).
    { destruct (Do (client c) (directRequest cluster)) as [resp|e]; cbn in Hin; [|exact Hin].
      destruct (negb _); cbn in Hin; [exact Hin|].
      destruct (Body resp) as [body [e|]]; cbn in Hin; [exact Hin|].
      destruct (json_Unmarshal body) as [r e]; exact Hin. }
    by apply list_elem_of_singleton in Hone.
  - cbn. intros Hin. by apply elem_of_nil in Hin.
Qed.

Lemma observation_shape c name cluster m :
  m ∈ observations c (name, cluster) ->
  exists d x, m = gauge d name x /\ d ∈ Describe c [].
Proof.
  rewrite observations_eq.
  destruct (fst (statisticsFromCluster c cluster idle)) as [r [e|]]; cbn; intros Hin;
    repeat (apply elem_of_cons in Hin as [-> | Hin];
            [eexists _, _; split; [reflexivity|];
             apply list_elem_of_In; cbn; tauto|]);
    by apply elem_of_nil in Hin.
Qed.

Lemma emitted_from_entry c range m :
  m ∈ emitted c range ->
  exists clusters name cluster,
    clusterProvider c = (clusters, None)
    /\ (name, cluster) ∈ range clusters
    /\ m ∈ observations c (name, cluster).
Proof.
  unfold emitted, Collect. destruct (clusterProvider c) as [clusters [e|]] eqn:Hc.
  - cbn. intros Hin. by apply elem_of_nil in Hin.
  - rewrite for_range_emits. cbn [out idle app]. intros Hin.
    apply list_elem_of_In, in_concat in Hin as (l & Hl & Hm).
    apply list_elem_of_In, list_elem_of_fmap in Hl as ([name cluster] & -> & Hentry).
    exists clusters, name, cluster. split; [reflexivity|]. split; [exact Hentry|].
    by apply list_elem_of_In.
Qed.

(** X1. [Collect] keeps the contract of a Prometheus collector with
    [Describe]: every metric that a cycle emits is a gauge whose descriptor
    is one of the ten that [Describe] announces, and it carries as many
    label values as its descriptor has labels (one, the cluster name), so
    that [MustNewConstMetric] has no reason to panic; the ten descriptors
    have distinct names. *)
Theorem Collect_emits_described_metrics
  (c : Collector) (range : gmap string ClusterInfo -> list (string * ClusterInfo))
  (m : Metric) :
  m ∈ emitted c range ->
  desc m ∈ Describe c []
  /\ valueType m = GaugeValue
  /\ length (labelValues m) = length (variableLabels (desc m))
  /\ NoDup (fqName <$> Describe c []).
Proof.
  intros Hin. apply emitted_from_entry in Hin as (clusters & name & cluster & _ & _ & Hobs).
  apply observation_shape in Hobs as (d & x & -> & Hd).
  split; [exact Hd|]. split; [reflexivity|]. split.
  - apply list_elem_of_In in Hd. cbn in Hd.
    repeat (destruct Hd as [<- | Hd]; [reflexivity|]). destruct Hd.
  - refine (bool_decide_unpack (NoDup (fqName <$> Describe c [])) _).
    vm_compute. reflexivity.
Qed.

Lemma Collect_emits_described_metrics_witness :
  liveness "B" 1%Q ∈ emitted scenario.two_clusters map_to_list
  /\ desc (liveness "B" 1%Q) ∈ Describe scenario.two_clusters []
  /\ length (labelValues (liveness "B" 1%Q)) = 1%nat.
Proof.
  assert (Hin : liveness "B" 1%Q ∈ emitted scenario.two_clusters map_to_list).
  { apply list_elem_of_In. vm_compute. do 19 right. left. reflexivity. }
  destruct (Collect_emits_described_metrics scenario.two_clusters map_to_list
              (liveness "B" 1%Q) Hin) as (Hd & _ & Hl & _).
  split; [exact Hin|]. split; [exact Hd | exact Hl].
Defined.



(** X3. A cycle contacts the clusters of the snapshot and nothing else:
    every request it sends is, for some cluster of the snapshot, the GET of
    the statistics of a Direct cluster, or the login of an Authenticated
    cluster, or the GET of its statistics with a cookie that is not
    empty. *)
Theorem requests_stay_within_snapshot
  (c : Collector) (clusters : gmap string ClusterInfo)
  (range : gmap string ClusterInfo -> list (string * ClusterInfo)) (req : Request) :
  clusterProvider c = (clusters, None) ->
  visits range ->
  req ∈ sent c range ->
  exists name cluster, clusters !! name = Some cluster /\ addressed_to cluster req.
Proof.
  intros Hc Hv. unfold sent, Collect. rewrite Hc, for_range_requests. cbn [requests idle app].
  intros Hin. apply list_elem_of_In, in_concat in Hin as (l & Hl & Hreq).
  apply list_elem_of_In, list_elem_of_fmap in Hl as ([name cluster] & -> & Hentry).
  cbn beta in Hreq. rewrite (collect_cluster_requests c name cluster) in Hreq.
  apply list_elem_of_In in Hreq.
  exists name, cluster. split.
  - apply elem_of_map_to_list. by rewrite <- (Hv clusters).
  - by apply (scrape_requests c).
Qed.

Lemma requests_stay_within_snapshot_witness :
  statsRequest scenario.clusterB "Trino-UI-Token=t1" ∈ sent scenario.two_clusters map_to_list
  /\ exists name cluster,
       ({[ "A" := scenario.clusterA; "B" := scenario.clusterB ]} : gmap string ClusterInfo)
         !! name = Some cluster
       /\ addressed_to cluster (statsRequest scenario.clusterB "Trino-UI-Token=t1").
Proof.
  assert (Hin : statsRequest scenario.clusterB "Trino-UI-Token=t1"
                  ∈ sent scenario.two_clusters map_to_list).
  { apply list_elem_of_In. vm_compute. do 2 right. left. reflexivity. }
  split; [exact Hin|].
  apply (requests_stay_within_snapshot scenario.two_clusters
           {[ "A" := scenario.clusterA; "B" := scenario.clusterB ]} map_to_list).
  - reflexivity.
  - intros m. reflexivity.
  - exact Hin.
Defined.

(** X4. Direct variant: a 200 answer whose body does not decode (it is
    not JSON, or a statistic is not a number) is a failure of the cluster:
    up=0 is its only observation and the decoding error is logged. *)
Theorem direct_undecodable_body_is_down
  (c : Collector) (clusters : gmap string ClusterInfo)
  (range : gmap string ClusterInfo -> list (string * ClusterInfo))
  (name : string) (cluster : ClusterInfo) (resp : HttpResponse) (body : string)
  (r : Response) (e : error) :
  clusterProvider c = (clusters, None) ->
  visits range ->
  clusters !! name = Some cluster ->
  Distribution cluster = DistDb ->
  parseError (client c) (Host cluster +:+ "/v1/cluster") = None ->
  Do (client c) (directRequest cluster) = inl resp ->
  StatusCode resp = 200 ->
  Body resp = (body, None) ->
  json_Unmarshal body = (r, Some e) ->
  labelled name (emitted c range) = [liveness name 0%Q] /\ e ∈ cycle_log c range.
Proof.
  intros Hc Hv Hl Hd Hp Hdo Hs Hb Hj.
  assert (Hst : fst (statisticsFromCluster c cluster idle) = (r, Some e)).
  { unfold statisticsFromCluster. rewrite Hd.
    by rewrite (statsFromPrestoDB_ok c cluster idle resp body Hp Hdo Hs Hb), Hj. }
  split.
  - by apply (failure_is_isolated c clusters range name cluster r e).
  - by apply (failure_is_logged c clusters range name cluster r e).
Qed.

Lemma direct_undecodable_body_is_down_witness :
  json_Unmarshal "<html>maintenance</html>" = (Response0, Some SyntaxError)
  /\ labelled "A" (emitted cases.direct_page map_to_list) = [liveness "A" 0%Q]
  /\ SyntaxError ∈ cycle_log cases.direct_page map_to_list.
Proof.
  assert (Hj : json_Unmarshal "<html>maintenance</html>" = (Response0, Some SyntaxError))
    by (vm_compute; reflexivity).
  split; [exact Hj|].
  apply (direct_undecodable_body_is_down cases.direct_page {[ "A" := scenario.clusterA ]}
           map_to_list "A" scenario.clusterA
           (mkResponse 200 [] ("<html>maintenance</html>", None))
           "<html>maintenance</html>" Response0 SyntaxError);
    first [reflexivity | intros m; reflexivity | exact Hj].
Defined.

(** X5. Direct variant: a 200 answer whose body decodes gives, with one
    GET and no other request, the nine gauges with the decoded values
    followed by up=1. *)
Theorem direct_200_reports_decoded_statistics
  (c : Collector) (clusters : gmap string ClusterInfo)
  (range : gmap string ClusterInfo -> list (string * ClusterInfo))
  (name : string) (cluster : ClusterInfo) (resp : HttpResponse) (body : string)
  (r : Response) :
  clusterProvider c = (clusters, None) ->
  visits range ->
  clusters !! name = Some cluster ->
  Distribution cluster = DistDb ->
  parseError (client c) (Host cluster +:+ "/v1/cluster") = None ->
  Do (client c) (directRequest cluster) = inl resp ->
  StatusCode resp = 200 ->
  Body resp = (body, None) ->
  json_Unmarshal body = (r, None) ->
  requests (snd (statisticsFromCluster c cluster idle)) = [directRequest cluster]
  /\ labelled name (emitted c range) = numeric name r ++ [liveness name 1%Q].
Proof.
  intros Hc Hv Hl Hd Hp Hdo Hs Hb Hj.
  assert (Hst : statisticsFromCluster c cluster idle
                = ((r, None), extend idle [directRequest cluster] [] [])).
  { unfold statisticsFromCluster. rewrite Hd.
    by rewrite (statsFromPrestoDB_ok c cluster idle resp body Hp Hdo Hs Hb), Hj. }
  split; [by rewrite Hst|].
  apply (success_is_isolated c clusters range name cluster r Hc Hv Hl). by rewrite Hst.
Qed.

Lemma direct_200_reports_decoded_statistics_witness :
  StatusCode (mkResponse 200 [("Content-Type", "application/json")] (sample_body, None)) = 200
  /\ requests (snd (statisticsFromCluster scenario.direct_200 scenario.clusterA idle))
     = [directRequest scenario.clusterA]
  /\ labelled "A" (emitted scenario.direct_200 map_to_list)
     = numeric "A" sample_stats ++ [liveness "A" 1%Q].
Proof.
  split; [reflexivity|].
  apply (direct_200_reports_decoded_statistics scenario.direct_200
           {[ "A" := scenario.clusterA ]} map_to_list "A" scenario.clusterA
           (mkResponse 200 [("Content-Type", "application/json")] (sample_body, None))
           sample_body sample_stats);
    first [reflexivity | intros m; reflexivity | vm_compute; reflexivity].
Defined.

(** X6. Direct variant: when the GET cannot be carried out (the client
    returns an error: refused connection, time-out), the cluster is
    reported down, up=0 alone, and the error is logged. *)
Theorem direct_transport_error_is_down
  (c : Collector) (clusters : gmap string ClusterInfo)
  (range : gmap string ClusterInfo -> list (string * ClusterInfo))
  (name : string) (cluster : ClusterInfo) (e : error) :
  clusterProvider c = (clusters, None) ->
  visits range ->
  clusters !! name = Some cluster ->
  Distribution cluster = DistDb ->
  parseError (client c) (Host cluster +:+ "/v1/cluster") = None ->
  Do (client c) (directRequest cluster) = inr e ->
  labelled name (emitted c range) = [liveness name 0%Q] /\ e ∈ cycle_log c range.
Proof.
  intros Hc Hv Hl Hd Hp Hdo.
  assert (Hst : fst (statisticsFromCluster c cluster idle) = (Response0, Some e)).
  { unfold statisticsFromCluster. rewrite Hd.
    by rewrite (statsFromPrestoDB_transport c cluster idle e Hp Hdo). }
  split.
  - by apply (failure_is_isolated c clusters range name cluster Response0 e).
  - by apply (failure_is_logged c clusters range name cluster Response0 e).
Qed.

Lemma direct_transport_error_is_down_witness :
  Do (client cases.direct_unreachable) (directRequest scenario.clusterA)
    = inr (urlError "Get" "connection refused")
  /\ labelled "A" (emitted cases.direct_unreachable map_to_list) = [liveness "A" 0%Q]
  /\ urlError "Get" "connection refused" ∈ cycle_log cases.direct_unreachable map_to_list.
Proof.
  split; [reflexivity|].
  apply (direct_transport_error_is_down cases.direct_unreachable
           {[ "A" := scenario.clusterA ]} map_to_list "A" scenario.clusterA
           (urlError "Get" "connection refused"));
    first [reflexivity | intros m; reflexivity].
Defined.

(** X7. Authenticated variant: when the login cannot be carried out, the
    scrape stops there: the login is the only request sent (no statistics
    request goes out), the cluster is reported down, up=0 alone, and the
    error is logged. *)
Theorem failed_login_sends_no_stats_request
  (c : Collector) (clusters : gmap string ClusterInfo)
  (range : gmap string ClusterInfo -> list (string * ClusterInfo))
  (name : string) (cluster : ClusterInfo) (e : error) :
  clusterProvider c = (clusters, None) ->
  visits range ->
  clusters !! name = Some cluster ->
  Distribution cluster = DistSql ->
  parseError (client c) (Host cluster +:+ "/ui/login") = None ->
  Do (client c) (loginRequest cluster) = inr e ->
  requests (snd (statisticsFromCluster c cluster idle)) = [loginRequest cluster]
  /\ labelled name (emitted c range) = [liveness name 0%Q]
  /\ e ∈ cycle_log c range.
Proof.
  intros Hc Hv Hl Hd Hp Hdo.
  assert (Hst : statisticsFromCluster c cluster idle
                = ((Response0, Some e), extend idle [loginRequest cluster] [] [])).
  { unfold statisticsFromCluster. rewrite Hd.
    unfold statsFromPrestoSQL, login, client_Post, http_NewRequest. run.
    rewrite Hp. unfold client_Do. cbn.
    change ("username=" +:+ "exporter" +:+ "&password=&redirectPath=")
      with "username=exporter&password=&redirectPath=".
    fold (loginRequest cluster). by rewrite Hdo. }
  split; [by rewrite Hst|]. split.
  - apply (failure_is_isolated c clusters range name cluster Response0 e Hc Hv Hl).
    by rewrite Hst.
  - apply (failure_is_logged c clusters range name cluster Response0 e Hc Hv Hl).
    by rewrite Hst.
Qed.

Lemma failed_login_sends_no_stats_request_witness :
  Do (client cases.authenticated_unreachable) (loginRequest scenario.clusterB)
    = inr (urlError "Get" "connection refused")
  /\ requests (snd (statisticsFromCluster cases.authenticated_unreachable
                      scenario.clusterB idle))
     = [loginRequest scenario.clusterB]
  /\ labelled "B" (emitted cases.authenticated_unreachable map_to_list) = [liveness "B" 0%Q].
Proof.
  split; [reflexivity|].
  destruct (failed_login_sends_no_stats_request cases.authenticated_unreachable
              {[ "B" := scenario.clusterB ]} map_to_list "B" scenario.clusterB
              (urlError "Get" "connection refused")
              eq_refl (fun m => reflexivity _) eq_refl eq_refl eq_refl eq_refl)
    as (H1 & H2 & _).
  split; [exact H1 | exact H2].
Defined.

(** X8. Authenticated variant: when the login answer has a Set-Cookie
    value that is not empty, the scrape sends two requests, the login then
    the GET of /ui/api/stats whose Cookie header is that value, unchanged;
    whatever the status of the answer, the cluster is reported by the
    decoding of its body: the nine gauges and up=1 if it decodes, up=0
    alone if it does not. *)
Theorem authenticated_forwards_cookie
  (c : Collector) (clusters : gmap string ClusterInfo)
  (range : gmap string ClusterInfo -> list (string * ClusterInfo))
  (name : string) (cluster : ClusterInfo)
  (lresp resp : HttpResponse) (cookie body : string) :
  clusterProvider c = (clusters, None) ->
  visits range ->
  clusters !! name = Some cluster ->
  Distribution cluster = DistSql ->
  parseError (client c) (Host cluster +:+ "/ui/login") = None ->
  Do (client c) (loginRequest cluster) = inl lresp ->
  Header_Get (Header lresp) "Set-Cookie" = cookie ->
  cookie <> EmptyString ->
  parseError (client c) (Host cluster +:+ "/ui/api/stats") = None ->
  Do (client c) (statsRequest cluster cookie) = inl resp ->
  Body resp = (body, None) ->
  requests (snd (statisticsFromCluster c cluster idle))
    = [loginRequest cluster; mkRequest "GET" (Host cluster +:+ "/ui/api/stats")
                                       [("Cookie", cookie)] EmptyString]
  /\ labelled name (emitted c range)
     = match json_Unmarshal body with
       | (_, Some _) => [liveness name 0%Q]
       | (r, None) => numeric name r ++ [liveness name 1%Q]
       end.
Proof.
  intros Hc Hv Hl Hd Hp Hdo Hck Hne Hp' Hdo' Hb.
  pose proof (statsFromPrestoSQL_answered c cluster idle lresp cookie resp body
                Hp Hdo Hck Hne Hp' Hdo' Hb) as Hsql.
  split.
  - unfold statisticsFromCluster. rewrite Hd, Hsql. reflexivity.
  - rewrite (Collect_per_cluster c clusters range name cluster Hc Hv Hl), observations_eq.
    unfold statisticsFromCluster. rewrite Hd, Hsql. cbn [fst].
    by destruct (json_Unmarshal body) as [r [e|]].
Qed.

Lemma authenticated_forwards_cookie_witness :
  Header_Get [("Set-Cookie", "Trino-UI-Token=t1")] "Set-Cookie" = "Trino-UI-Token=t1"
  /\ requests (snd (statisticsFromCluster scenario.two_clusters scenario.clusterB idle))
     = [loginRequest scenario.clusterB;
        mkRequest "GET" "http://10.0.0.2:8889/ui/api/stats"
                  [("Cookie", "Trino-UI-Token=t1")] EmptyString].
Proof.
  split; [reflexivity|].
  refine (proj1 (authenticated_forwards_cookie scenario.two_clusters
           {[ "A" := scenario.clusterA; "B" := scenario.clusterB ]} map_to_list
           "B" scenario.clusterB
           (mkResponse 303 [("Set-Cookie", "Trino-UI-Token=t1")] (EmptyString, None))
           (mkResponse 500 [("Content-Type", "application/json")]
              (json_text "{'message':'Internal Server Error'}", None))
           "Trino-UI-Token=t1" (json_text "{'message':'Internal Server Error'}")
           _ _ _ _ _ _ _ _ _ _ _));
    first [reflexivity | intros m; reflexivity | discriminate].
Defined.

Lemma Header_Get_first before key value after :
  (forall v, (key, v) ∉ before) ->
  Header_Get (before ++ (key, value) :: after) key = value.
Proof.
  induction before as [|[k v] before IH]; intros Hn; cbn.
  - by rewrite String.eqb_refl.
  - destruct (String.eqb_spec k key) as [->|_].
    + exfalso. apply (Hn v). left.
    + apply IH. intros v' Hin. apply (Hn v'). by right.
Qed.

(** X9. Authenticated variant: only the first Set-Cookie field of the
    login answer is looked at, and an empty value counts as no cookie.
    When the first Set-Cookie field has no value, the scrape fails with the
    missing-cookie error and sends no statistics request, even if a later
    Set-Cookie field has a value. *)
Theorem empty_first_cookie_counts_as_missing
  (c : Collector) (cluster : ClusterInfo) (w : World) (resp : HttpResponse)
  (before after : list (string * string)) :
  parseError (client c) (Host cluster +:+ "/ui/login") = None ->
  Do (client c) (loginRequest cluster) = inl resp ->
  Header resp = before ++ ("Set-Cookie", EmptyString) :: after ->
  (forall v, ("Set-Cookie", v) ∉ before) ->
  statsFromPrestoSQL c cluster w
  = ((Response0, Some MissingSessionCookieError), extend w [loginRequest cluster] [] []).
Proof.
  intros Hp Hdo Hh Hn. unfold statsFromPrestoSQL. run.
  rewrite (login_eq c cluster w resp Hp Hdo), Hh, (Header_Get_first _ _ _ _ Hn).
  reflexivity.
Qed.

Lemma empty_first_cookie_counts_as_missing_witness :
  Header (mkResponse 200 [("Set-Cookie", EmptyString); ("Set-Cookie", "Trino-UI-Token=t2")]
            (EmptyString, None))
    = [] ++ ("Set-Cookie", EmptyString) :: [("Set-Cookie", "Trino-UI-Token=t2")]
  /\ statsFromPrestoSQL cases.empty_cookie scenario.clusterB idle
     = ((Response0, Some MissingSessionCookieError),
        mkWorld [loginRequest scenario.clusterB] [] []).
Proof.
  split; [reflexivity|].
  apply (empty_first_cookie_counts_as_missing cases.empty_cookie scenario.clusterB idle
           (mkResponse 200 [("Set-Cookie", EmptyString); ("Set-Cookie", "Trino-UI-Token=t2")]
              (EmptyString, None))
           [] [("Set-Cookie", "Trino-UI-Token=t2")]);
    first [reflexivity | intros v Hin; by apply elem_of_nil in Hin].
Defined.

(** X10. Direct variant: when the body of a 200 answer cannot be read,
    [statsFromPrestoDB] logs the error and returns it, and the loop of
    [Collect] logs it again: the cluster gets up=0 alone, and the error is
    in the log twice. *)
Theorem direct_read_error_is_logged_twice
  (c : Collector) (name : string) (cluster : ClusterInfo) (w : World)
  (resp : HttpResponse) (body : string) (e : error) :
  Distribution cluster = DistDb ->
  parseError (client c) (Host cluster +:+ "/v1/cluster") = None ->
  Do (client c) (directRequest cluster) = inl resp ->
  StatusCode resp = 200 ->
  Body resp = (body, Some e) ->
  collect_cluster c (name, cluster) w
  = (tt, extend w [directRequest cluster] [e; e] [liveness name 0%Q]).
Proof.
  intros Hd Hp Hdo Hs Hb.
  rewrite (collect_cluster_failure c name cluster w Response0 e
             (extend w [directRequest cluster] [e] [])).
  - unfold extend. cbn. by rewrite !app_nil_r, <- !app_assoc.
  - unfold statisticsFromCluster. rewrite Hd.
    by apply statsFromPrestoDB_read_error with (resp := resp) (body := body).
Qed.

Lemma direct_read_error_is_logged_twice_witness :
  Body (mkResponse 200 [] (EmptyString, Some (readError "unexpected EOF")))
    = (EmptyString, Some (readError "unexpected EOF"))
  /\ collect_cluster cases.direct_truncated ("A", scenario.clusterA) idle
     = (tt, mkWorld [directRequest scenario.clusterA]
                    [readError "unexpected EOF"; readError "unexpected EOF"]
                    [liveness "A" 0%Q]).
Proof.
  split; [reflexivity|].
  apply (direct_read_error_is_logged_twice cases.direct_truncated "A" scenario.clusterA idle
           (mkResponse 200 [] (EmptyString, Some (readError "unexpected EOF")))
           EmptyString (readError "unexpected EOF")); reflexivity.
Defined.

(** X11. A cluster whose distribution is neither of the two that the
    collector knows is sent no request; it is reported down, up=0 alone,
    and the error that names the distribution is logged. *)
Theorem unsupported_distribution_is_down
  (c : Collector) (clusters : gmap string ClusterInfo)
  (range : gmap string ClusterInfo -> list (string * ClusterInfo))
  (name : string) (cluster : ClusterInfo) (s : string) :
  clusterProvider c = (clusters, None) ->
  visits range ->
  clusters !! name = Some cluster ->
  Distribution cluster = DistOther s ->
  requests (snd (statisticsFromCluster c cluster idle)) = []
  /\ labelled name (emitted c range) = [liveness name 0%Q]
  /\ errorString ("unsupported distribution " +:+ s) ∈ cycle_log c range.
Proof.
  intros Hc Hv Hl Hd.
  assert (Hst : statisticsFromCluster c cluster idle
                = ((Response0, Some (errorString ("unsupported distribution " +:+ s))), idle)).
  { unfold statisticsFromCluster. by rewrite Hd. }
  split; [by rewrite Hst|]. split.
  - apply (failure_is_isolated c clusters range name cluster Response0
             (errorString ("unsupported distribution " +:+ s)) Hc Hv Hl).
    by rewrite Hst.
  - apply (failure_is_logged c clusters range name cluster Response0
             (errorString ("unsupported distribution " +:+ s)) Hc Hv Hl).
    by rewrite Hst.
Qed.

Lemma unsupported_distribution_is_down_witness :
  Distribution cases.clusterC = DistOther "trino"
  /\ labelled "C" (emitted cases.unknown_distribution map_to_list) = [liveness "C" 0%Q]
  /\ errorString "unsupported distribution trino"
       ∈ cycle_log cases.unknown_distribution map_to_list.
Proof.
  split; [reflexivity|].
  destruct (unsupported_distribution_is_down cases.unknown_distribution
              {[ "C" := cases.clusterC ]} map_to_list "C" cases.clusterC "trino"
              eq_refl (fun m => reflexivity _) eq_refl eq_refl) as (_ & H2 & H3).
  split; [exact H2 | exact H3].
Defined.

(** ** The keys of the statistics *)

Lemma fields_fold E name f :
  (name, f) ∈ fields -> json.foldFunc E name = json.equalFoldRight /\ letters name = true.
Proof.
  intros Hf. apply list_elem_of_In in Hf. cbn in Hf.
  repeat (destruct Hf as [[= <- <-] | Hf];
          [split; [|vm_compute; reflexivity]; unfold json.foldFunc;
           by replace (json.foldFunc_range _ false false) with (Some (false, true))
             by (vm_compute; reflexivity)|]).
  destruct Hf.
Qed.

Lemma find_folded E key (l : list (string * field)) :
  (forall name f, (name, f) ∈ l -> (name, f) ∈ fields) ->
  List.find (fun f => json.foldFunc E (fst f) (fst f) key) l
  = List.find (fun f => json.equalFoldRight (fst f) key) l.
Proof.
  induction l as [|[name f] l IH]; intros Hl; [reflexivity|]. cbn [List.find fst].
  destruct (fields_fold E name f) as [-> _]; [apply Hl; left|].
  destruct (json.equalFoldRight name key); [reflexivity|].
  apply IH. intros n g Hin. apply Hl. by right.
Qed.

(** The comparison given for the names beyond ASCII plays no part. *)
Lemma json_Unmarshal_any E body :
  json.Unmarshal E fields set body Response0 = json_Unmarshal body.
Proof.
  unfold json_Unmarshal, json.Unmarshal. destruct (json.parse body) as [v|]; [|reflexivity].
  destruct v as [| | | | |members]; [reflexivity..|].
  generalize (Response0, @None error). induction members as [|[k v] members IH]; intros acc;
    [reflexivity|].
  cbn [json.object]. unfold json.find_field.
  rewrite !find_folded by (intros; assumption).
  destruct (List.find _ fields) as [[n g]|]; [apply IH|].
  destruct (List.find _ fields) as [[n g]|]; apply IH.
Qed.

(** A key selects a field only if it spells its name. *)
Lemma find_field_spells E key name f :
  json.find_field E fields key = Some (name, f) -> spells key name.
Proof.
  unfold json.find_field. destruct (List.find _ fields) as [[n g]|] eqn:Hexact.
  - intros [= -> ->]. apply find_some in Hexact as [_ Heq]. cbn in Heq.
    apply String.eqb_eq in Heq. by subst.
  - rewrite find_folded by (intros; assumption). intros Hfold.
    apply find_some in Hfold as [Hin Heq].
    cbn in Heq. apply list_elem_of_In in Hin.
    destruct (fields_fold E name f Hin) as [_ Hl].
    by apply (equalFoldRight_spells name key Hl).
Qed.

(** X12. Decoding the statistics: a body that is a JSON object none of
    whose keys spells one of the nine names of the struct tags (letter by
    letter up to case, the long s counting as an s and the Kelvin sign as
    a k) decodes without error into [Response{}], all statistics at 0; the
    object of an error message is such a body. *)
Theorem object_without_statistics_is_zero
  (body : string) (members : list (string * json.Value)) :
  json.parse body = Some (json.VObject members) ->
  (forall k v name f,
      (k, v) ∈ members -> (name, f) ∈ fields -> ~ spells k name) ->
  json_Unmarshal body = (Response0, None).
Proof.
  intros Hparse Hkeys. unfold json_Unmarshal, json.Unmarshal. rewrite Hparse.
  assert (Hfind : forall k v, (k, v) ∈ members ->
                              json.find_field (fun _ _ => false) fields k = None).
  { intros k v Hin.
    destruct (json.find_field (fun _ _ => false) fields k) as [[name f]|] eqn:Hf;
      [|reflexivity].
    exfalso. apply (Hkeys k v name f Hin).
    - unfold json.find_field in Hf.
      destruct (List.find _ fields) as [nf|] eqn:H1.
      + injection Hf as ->. apply find_some in H1 as [H1 _]. by apply list_elem_of_In.
      + apply find_some in Hf as [Hf _]. by apply list_elem_of_In.
    - by apply (find_field_spells _ _ _ _ Hf). }
  clear Hparse Hkeys. generalize (Response0, @None error).
  induction members as [|[k v] members IH]; intros acc; [reflexivity|].
  cbn. rewrite (Hfind k v) by left. apply IH. intros k' v' Hin. apply (Hfind k' v'). by right.
Qed.

Lemma object_without_statistics_is_zero_witness :
  json.parse (json_text "{'message':'Internal Server Error','Running_Queries':7}")
    = Some (json.VObject [("message", json.VString "Internal Server Error");
                          ("Running_Queries", json.VNumber "7")])
  /\ json_Unmarshal (json_text "{'message':'Internal Server Error','Running_Queries':7}")
     = (Response0, None).
Proof.
  assert (Hp : json.parse
                 (json_text "{'message':'Internal Server Error','Running_Queries':7}")
               = Some (json.VObject [("message", json.VString "Internal Server Error");
                                     ("Running_Queries", json.VNumber "7")]))
    by (vm_compute; reflexivity).
  split; [exact Hp|].
  apply (object_without_statistics_is_zero _ _ Hp).
  intros k v name f Hk Hf. apply list_elem_of_In in Hk, Hf. cbn in Hk, Hf.
  destruct Hk as [[= <- <-] | [[= <- <-] | []]];
    repeat (destruct Hf as [[= <- <-] | Hf]; [vm_compute; discriminate|]); destruct Hf.
Defined.

End CollectorCoverage.

(* ===================================================================== *)
(** * Further properties of the provider                                  *)
(* ===================================================================== *)

Section ProviderCoverage.
Import emr aws topo cover.

Ltac go := unfold mbind, G_bind, mret, G_ret, deref, panic in *; cbn in *.

(** ** Outcomes do not depend on the state *)

Lemma steady_ret {A : Type} (a : A) : steady (mret a).
Proof. by intros w w'. Qed.

Lemma steady_panic {A : Type} : steady (@panic A).
Proof. by intros w w'. Qed.

Lemma steady_deref {A : Type} (p : option A) : steady (deref p).
Proof. by destruct p; intros w w'. Qed.

Lemma steady_bind {A B : Type} (m : G A) (f : A -> G B) :
  steady m -> (forall a, steady (f a)) -> steady (m ≫= f).
Proof.
  intros Hm Hf w w'. unfold mbind, G_bind. specialize (Hm w w').
  destruct (m w) as [[a|] w1], (m w') as [[a'|] w1']; cbn in Hm; try discriminate;
    [|reflexivity].
  injection Hm as <-. apply Hf.
Qed.

Lemma steady_ListInstances c input : steady (emrClient_ListInstances c input).
Proof. intros w w'. by rewrite !emrClient_ListInstances_eq. Qed.

Ltac steady :=
  repeat first
    [ match goal with H : _ |- steady _ => apply H end
    | apply steady_ret | apply steady_panic | apply steady_deref
    | apply steady_ListInstances
    | apply steady_bind; [|intros ?; cbn beta]
    | match goal with
      | |- steady (match ?x with _ => _ end) => destruct x
      | |- steady (if ?b then _ else _) => destruct b
      end ].

Lemma steady_NodeGroup_range c cl groups :
  steady (getMasterInstanceForNodeGroup_range c cl groups).
Proof. induction groups; cbn [getMasterInstanceForNodeGroup_range]; steady. Qed.

Lemma steady_getClusterMasterInstance c descr : steady (getClusterMasterInstance c descr).
Proof.
  pose proof (steady_NodeGroup_range c).
  unfold getClusterMasterInstance, getMasterInstanceForNodeGroup, getMasterInstanceForFleet.
  steady.
Qed.

Lemma resolution_eq c descr w : fst (getClusterMasterInstance c descr w) = resolution c descr.
Proof. apply steady_getClusterMasterInstance. Qed.

Lemma isTrinoInstalled_eq descr w : isTrinoInstalled descr w = (engine_check descr, w).
Proof.
  unfold engine_check, isTrinoInstalled. go.
  destruct (Cluster_ descr) as [cl|]; [|reflexivity]. go.
  generalize NewClusterProvider_world. revert w.
  induction (Applications cl) as [|a apps IH]; intros w w0; [reflexivity|].
  cbn. go. destruct (Application_Name a) as [n|]; [|reflexivity]. go.
  destruct (is_trino n); [reflexivity|]. apply IH.
Qed.

(** ** The queries of the resolution on instance groups *)

Lemma calls_since_app w cc ks : calls_since w (mkWorld cc (calls w ++ ks)) = ks.
Proof. unfold calls_since. cbn. by rewrite drop_app_length. Qed.

Lemma node_group_range_calls c cl before group after : forall w,
  (forall g, g ∈ before -> yields_none (emrClient c) (groupInput cl g)) ->
  stops_at (emrClient c) cl group ->
  snd (getMasterInstanceForNodeGroup_range c cl (before ++ group :: after) w)
  = mkWorld (cache_ w)
      (calls w ++ ((fun g => CallListInstances (groupInput cl g)) <$> (before ++ [group]))).
Proof.
  induction before as [|g before IH]; intros w Hb (output & err & Hq & Hstop); cbn.
  - go. rewrite emrClient_ListInstances_eq. fold (groupInput cl group). rewrite Hq. cbn.
    destruct err as [e|]; cbn; [reflexivity|].
    destruct (Instances output) as [|first rest]; [by destruct Hstop|].
    by destruct (PrivateIpAddress first).
  - go. rewrite emrClient_ListInstances_eq. fold (groupInput cl g).
    destruct (Hb g) as (o & Ho & Hnil); [left|]. rewrite Ho. cbn. rewrite Hnil.
    rewrite IH.
    + cbn. by rewrite <- app_assoc.
    + intros g' Hin. apply Hb. by right.
    + by exists output, err.
Qed.

Lemma node_group_range_error c cl before group after output e : forall w,
  (forall g, g ∈ before -> yields_none (emrClient c) (groupInput cl g)) ->
  ListInstances (emrClient c) (groupInput cl group) = (output, Some e) ->
  fst (getMasterInstanceForNodeGroup_range c cl (before ++ group :: after) w)
  = Returns (Some (EmptyString, Some (awsError (Code e) (Message e)))).
Proof.
  induction before as [|g before IH]; intros w Hb Hq; cbn.
  - go. rewrite emrClient_ListInstances_eq. fold (groupInput cl group). by rewrite Hq.
  - go. rewrite emrClient_ListInstances_eq. fold (groupInput cl g).
    destruct (Hb g) as (o & Ho & Hnil); [left|]. rewrite Ho. cbn. rewrite Hnil.
    apply IH; [|exact Hq]. intros g' Hin. apply Hb. by right.
Qed.

(** X13. Instance-group topology: the resolution lists the master groups,
    then queries them one after the other and stops at the first that has
    instances: the groups listed after it are never queried. *)
Theorem node_group_stops_at_first_group_with_instances
  (c : ClusterProvider) (descr : DescribeClusterOutput) (cl : Cluster) (w : World)
  (gout output : ListInstancesOutput) (before after : list Instance) (group : Instance) :
  Cluster_ descr = Some cl ->
  ListInstances (emrClient c) (groupsInput cl) = (gout, None) ->
  Instances gout = before ++ group :: after ->
  (forall g, g ∈ before -> yields_none (emrClient c) (groupInput cl g)) ->
  ListInstances (emrClient c) (groupInput cl group) = (output, None) ->
  Instances output <> [] ->
  calls_since w (snd (getMasterInstanceForNodeGroup c descr w))
  = CallListInstances (groupsInput cl)
      :: ((fun g => CallListInstances (groupInput cl g)) <$> (before ++ [group])).
Proof.
  intros Hcl Hg Hsplit Hb Hq Hne.
  assert (Hstop : stops_at (emrClient c) cl group) by (exists output, None; by split; [|right]).
  unfold getMasterInstanceForNodeGroup. go. rewrite Hcl. go.
  rewrite emrClient_ListInstances_eq. fold (groupsInput cl). rewrite Hg. cbn. rewrite Hsplit.
  match goal with
  | |- context [getMasterInstanceForNodeGroup_range c cl ?l ?w1] =>
      pose proof (node_group_range_calls c cl before group after w1 Hb Hstop) as Hr;
      destruct (getMasterInstanceForNodeGroup_range c cl l w1) as [o w2]
  end.
  cbn in Hr. subst w2. rewrite <- app_assoc. cbn [app].
  destruct o as [[r|]|]; cbn; try (rewrite calls_since_app; reflexivity).
  destruct (Cluster_Id cl); cbn; by rewrite calls_since_app.
Qed.

Lemma node_group_stops_at_first_group_with_instances_witness :
  calls_since NewClusterProvider_world
    (snd (getMasterInstanceForNodeGroup discovery.service discovery.group_cluster
            NewClusterProvider_world))
  = [ CallListInstances (mkListInstancesInput (Some "j-GROUP") None ["MASTER"] None);
      CallListInstances (mkListInstancesInput (Some "j-GROUP") None [] (Some "ig-G1"));
      CallListInstances (mkListInstancesInput (Some "j-GROUP") None [] (Some "ig-G2")) ].
Proof.
  refine (node_group_stops_at_first_group_with_instances discovery.service
            discovery.group_cluster
            (mkCluster (Some "j-GROUP") (Some "reports")
               [mkApplication (Some "TRINODB")] (Some "INSTANCE_GROUP"))
            NewClusterProvider_world
            (mkListInstancesOutput [mkInstance (Some "ig-G1") (Some "10.0.1.1");
                                    mkInstance (Some "ig-G2") (Some "10.0.1.2")])
            (mkListInstancesOutput [mkInstance (Some "ci-G21") (Some "10.0.0.2");
                                    mkInstance (Some "ci-G22") (Some "10.0.0.3")])
            [mkInstance (Some "ig-G1") (Some "10.0.1.1")] []
            (mkInstance (Some "ig-G2") (Some "10.0.1.2")) eq_refl eq_refl eq_refl _ eq_refl _).
  - intros g Hg. apply list_elem_of_singleton in Hg. subst g.
    exists (mkListInstancesOutput []). split; reflexivity.
  - discriminate.
Defined.

(** X14. Instance-group topology: when the query of a master group fails,
    the groups before it having no instance, the resolution returns that
    error and queries no further group, even if a later group has
    instances. *)
Theorem node_group_query_error_ends_resolution
  (c : ClusterProvider) (descr : DescribeClusterOutput) (cl : Cluster) (w : World)
  (gout output : ListInstancesOutput) (before after : list Instance) (group : Instance)
  (e : awserr) :
  Cluster_ descr = Some cl ->
  ListInstances (emrClient c) (groupsInput cl) = (gout, None) ->
  Instances gout = before ++ group :: after ->
  (forall g, g ∈ before -> yields_none (emrClient c) (groupInput cl g)) ->
  ListInstances (emrClient c) (groupInput cl group) = (output, Some e) ->
  fst (getMasterInstanceForNodeGroup c descr w)
    = Returns (EmptyString, Some (awsError (Code e) (Message e)))
  /\ calls_since w (snd (getMasterInstanceForNodeGroup c descr w))
     = CallListInstances (groupsInput cl)
         :: ((fun g => CallListInstances (groupInput cl g)) <$> (before ++ [group])).
Proof.
  intros Hcl Hg Hsplit Hb Hq.
  assert (Hstop : stops_at (emrClient c) cl group) by (exists output, (Some e); by split; [|left]).
  unfold getMasterInstanceForNodeGroup. go. rewrite Hcl. go.
  rewrite emrClient_ListInstances_eq. fold (groupsInput cl). rewrite Hg. cbn. rewrite Hsplit.
  match goal with
  | |- context [getMasterInstanceForNodeGroup_range c cl ?l ?w1] =>
      pose proof (node_group_range_calls c cl before group after w1 Hb Hstop) as Hr;
      pose proof (node_group_range_error c cl before group after output e w1 Hb Hq) as He;
      destruct (getMasterInstanceForNodeGroup_range c cl l w1) as [o w2]
  end.
  cbn in Hr, He. subst w2 o. cbn. rewrite <- app_assoc. cbn [app].
  by rewrite calls_since_app.
Qed.

Lemma node_group_query_error_ends_resolution_witness :
  ListInstances (emrClient passes.broken)
    (mkListInstancesInput (Some "j-GROUP") None [] (Some "ig-3"))
    = (mkListInstancesOutput [mkInstance (Some "ci-31") (Some "10.0.3.1")], None)
  /\ fst (getMasterInstanceForNodeGroup passes.broken discovery.group_cluster
            NewClusterProvider_world)
     = Returns (EmptyString, Some (awsError "InternalServerException" "try again"))
  /\ calls_since NewClusterProvider_world
       (snd (getMasterInstanceForNodeGroup passes.broken discovery.group_cluster
               NewClusterProvider_world))
     = [ CallListInstances (mkListInstancesInput (Some "j-GROUP") None ["MASTER"] None);
         CallListInstances (mkListInstancesInput (Some "j-GROUP") None [] (Some "ig-1"));
         CallListInstances (mkListInstancesInput (Some "j-GROUP") None [] (Some "ig-2")) ].
Proof.
  split; [reflexivity|].
  refine (node_group_query_error_ends_resolution passes.broken discovery.group_cluster
            (mkCluster (Some "j-GROUP") (Some "reports")
               [mkApplication (Some "TRINODB")] (Some "INSTANCE_GROUP"))
            NewClusterProvider_world
            (mkListInstancesOutput [mkInstance (Some "ig-1") None; mkInstance (Some "ig-2") None;
                                    mkInstance (Some "ig-3") None])
            (mkListInstancesOutput [])
            [mkInstance (Some "ig-1") None] [mkInstance (Some "ig-3") None]
            (mkInstance (Some "ig-2") None)
            (mkAwserr "InternalServerException" "try again")
            eq_refl eq_refl eq_refl _ eq_refl).
  intros g Hg. apply list_elem_of_singleton in Hg. subst g.
  exists (mkListInstancesOutput []). split; reflexivity.
Defined.

(** ** The listing and the filter *)






(** ** The snapshot of a pass *)

Lemma range_step c d clusters acc w address name :
  resolution c d = Returns (address, None) ->
  name_of d = Some name ->
  exists w1,
    listTargetMasters_range c (d :: clusters) acc w
    = listTargetMasters_range c clusters (<[name := endpoint address]> acc) w1.
Proof.
  intros Hres Hname. cbn. unfold mbind, G_bind.
  pose proof (resolution_eq c d w) as Heq. rewrite Hres in Heq.
  destruct (getClusterMasterInstance c d w) as [o w1]. cbn in Heq. subst o.
  exists w1. unfold name_of in Hname. cbn.
  destruct (Cluster_ d) as [cl|]; [|discriminate]. cbn. rewrite Hname. reflexivity.
Qed.

Lemma range_success_head c d clusters acc w m w' :
  listTargetMasters_range c (d :: clusters) acc w = (Returns (m, None), w') ->
  exists address name, resolution c d = Returns (address, None) /\ name_of d = Some name.
Proof.
  cbn. unfold mbind, G_bind. pose proof (resolution_eq c d w) as Heq.
  destruct (getClusterMasterInstance c d w) as [[[master [e|]]|] w1]; cbn in *;
    try discriminate.
  unfold name_of. destruct (Cluster_ d) as [cl|]; cbn; [|discriminate].
  destruct (Cluster_Name cl) as [n|]; cbn; [|discriminate].
  intros _. by exists master, n.
Qed.

Lemma range_keeps_other c clusters : forall acc w m w' name,
  listTargetMasters_range c clusters acc w = (Returns (m, None), w') ->
  (forall d, d ∈ clusters -> name_of d <> Some name) ->
  m !! name = acc !! name.
Proof.
  induction clusters as [|d clusters IH]; intros acc w m w' name Hrun Hother.
  - cbn in Hrun. unfold mret, G_ret in Hrun. by injection Hrun as <- <-.
  - destruct (range_success_head _ _ _ _ _ _ _ Hrun) as (address & n & Hres & Hn).
    destruct (range_step c d clusters acc w address n Hres Hn) as (w1 & Hstep).
    rewrite Hstep in Hrun.
    rewrite (IH _ _ _ _ name Hrun) by (intros d' Hin; apply Hother; by right).
    apply lookup_insert_ne. intros ->. by apply (Hother d ltac:(left)).
Qed.


Lemma range_last_wins c before : forall d after acc w m w' name address,
  listTargetMasters_range c (before ++ d :: after) acc w = (Returns (m, None), w') ->
  name_of d = Some name ->
  (forall d', d' ∈ after -> name_of d' <> Some name) ->
  resolution c d = Returns (address, None) ->
  m !! name = Some (endpoint address).
Proof.
  induction before as [|b before IH]; intros d after acc w m w' name address Hrun Hn Hafter Hres.
  - cbn [app] in Hrun.
    destruct (range_step c d after acc w address name Hres Hn) as (w1 & Hstep).
    rewrite Hstep in Hrun. rewrite (range_keeps_other _ _ _ _ _ _ name Hrun Hafter).
    apply lookup_insert_eq.
  - cbn [app] in Hrun.
    destruct (range_success_head _ _ _ _ _ _ _ Hrun) as (a & n & Hres' & Hn').
    destruct (range_step c b (before ++ d :: after) acc w a n Hres' Hn') as (w1 & Hstep).
    rewrite Hstep in Hrun. by apply (IH _ _ _ _ _ _ _ _ Hrun).
Qed.

Lemma range_first_failure c before : forall d after acc w address e,
  (forall b, b ∈ before ->
     (exists a, resolution c b = Returns (a, None)) /\ is_Some (name_of b)) ->
  resolution c d = Returns (address, Some e) ->
  fst (listTargetMasters_range c (before ++ d :: after) acc w) = Returns (∅, Some e).
Proof.
  induction before as [|b before IH]; intros d after acc w address e Hb Hres.
  - cbn. unfold mbind, G_bind. pose proof (resolution_eq c d w) as Heq. rewrite Hres in Heq.
    destruct (getClusterMasterInstance c d w) as [o w1]. cbn in Heq. by subst o.
  - cbn [app]. destruct (Hb b ltac:(left)) as [(a & Ha) (n & Hn)].
    destruct (range_step c b (before ++ d :: after) acc w a n Ha Hn) as (w1 & ->).
    apply (IH _ _ _ _ address); [|exact Hres]. intros b' Hin. apply Hb. by right.
Qed.

Lemma range_resolves c before : forall d after acc w m w',
  listTargetMasters_range c (before ++ d :: after) acc w = (Returns (m, None), w') ->
  exists address, resolution c d = Returns (address, None).
Proof.
  induction before as [|b before IH]; intros d after acc w m w' Hrun; cbn [app] in Hrun.
  - destruct (range_success_head _ _ _ _ _ _ _ Hrun) as (address & n & Hres & _).
    by exists address.
  - destruct (range_success_head _ _ _ _ _ _ _ Hrun) as (a & n & Hres' & Hn').
    destruct (range_step c b (before ++ d :: after) acc w a n Hres' Hn') as (w1 & Hstep).
    rewrite Hstep in Hrun. by apply (IH _ _ _ _ _ _ Hrun).
Qed.

Lemma listTargetMasters_eq c w clusters w1 :
  listTargetClusters c w = (Returns (clusters, None), w1) ->
  listTargetMasters c w = listTargetMasters_range c clusters ∅ w1.
Proof. intros H. unfold listTargetMasters, mbind, G_bind. by rewrite H. Qed.



(** X17. When several clusters that passed the engine check bear the same
    name, the snapshot of a successful pass holds, under that name, the
    endpoint of the one listed last: the entry of an earlier one is
    overwritten. *)
Theorem snapshot_last_name_wins
  (c : ClusterProvider) (w w1 w' : World) (before after : list DescribeClusterOutput)
  (d : DescribeClusterOutput) (m : gmap string ClusterInfo) (name : string) :
  listTargetClusters c w = (Returns (before ++ d :: after, None), w1) ->
  listTargetMasters c w = (Returns (m, None), w') ->
  name_of d = Some name ->
  (forall d', d' ∈ after -> name_of d' <> Some name) ->
  exists address,
    resolution c d = Returns (address, None)
    /\ m !! name = Some (mkClusterInfo ("http://" +:+ address +:+ ":8889")
                                      (DistOther EmptyString)).
Proof.
  intros Hl Hm Hn Hafter. rewrite (listTargetMasters_eq c w _ w1 Hl) in Hm.
  destruct (range_resolves c before d after ∅ w1 m w' Hm) as (address & Hres).
  exists address. split; [exact Hres|].
  by apply (range_last_wins c before d after ∅ w1 m w' name address).
Qed.

Lemma snapshot_last_name_wins_witness :
  name_of passes.twin1 = Some "twin" /\ name_of passes.twin2 = Some "twin"
  /\ exists address,
       resolution passes.twins passes.twin2 = Returns (address, None)
       /\ fst (listTargetMasters passes.twins NewClusterProvider_world)
          = Returns ({[ "twin" := mkClusterInfo "http://10.1.0.2:8889" (DistOther EmptyString) ]},
                     None)
       /\ mkClusterInfo ("http://" +:+ address +:+ ":8889") (DistOther EmptyString)
          = mkClusterInfo "http://10.1.0.2:8889" (DistOther EmptyString).
Proof.
  split; [reflexivity|]. split; [reflexivity|].
  assert (Hm : listTargetMasters passes.twins NewClusterProvider_world
               = (Returns ({[ "twin" := mkClusterInfo "http://10.1.0.2:8889"
                                                      (DistOther EmptyString) ]}, None),
                  snd (listTargetMasters passes.twins NewClusterProvider_world)))
    by (vm_compute; reflexivity).
  destruct (snapshot_last_name_wins passes.twins NewClusterProvider_world
              (snd (listTargetClusters passes.twins NewClusterProvider_world))
              (snd (listTargetMasters passes.twins NewClusterProvider_world))
              [passes.twin1] [] passes.twin2 _ "twin"
              ltac:(vm_compute; reflexivity) Hm eq_refl
              ltac:(intros d' Hin; by apply elem_of_nil in Hin))
    as (address & Hres & Hlook).
  exists address. split; [exact Hres|]. split; [by rewrite Hm|].
  rewrite lookup_singleton_eq in Hlook. congruence.
Defined.

(** X18. One cluster is enough to fail a pass: when the resolution of the
    master of a cluster that passed the engine check returns an error, the
    clusters before it having been resolved, the pass returns that error
    with no snapshot, and [Provide], on a miss of the cache, returns it and
    leaves the cache as it was. *)
Theorem first_resolution_failure_fails_the_pass
  (c : ClusterProvider) (w w1 : World) (now now' : Z)
  (before after : list DescribeClusterOutput) (d : DescribeClusterOutput)
  (address : string) (e : error) :
  listTargetClusters c w = (Returns (before ++ d :: after, None), w1) ->
  (forall b, b ∈ before ->
     (exists a, resolution c b = Returns (a, None)) /\ is_Some (name_of b)) ->
  resolution c d = Returns (address, Some e) ->
  cache.Get (cache_ w) cacheKey now = None ->
  fst (listTargetMasters c w) = Returns (∅, Some e)
  /\ fst (Provide c now now' w) = Returns (∅, Some e)
  /\ cache_ (snd (Provide c now now' w)) = cache_ w.
Proof.
  intros Hl Hb Hres Hmiss.
  assert (Hpass : fst (listTargetMasters c w) = Returns (∅, Some e)).
  { rewrite (listTargetMasters_eq c w _ w1 Hl).
    by apply (range_first_failure c before d after ∅ w1 address e). }
  split; [exact Hpass|].
  pose proof (keeps_listTargetMasters c w) as Hk.
  unfold Provide, cache_Get. unfold mbind, G_bind, mret, G_ret. rewrite Hmiss.
  destruct (listTargetMasters c w) as [o w2]. cbn in Hpass, Hk. subst o. by split.
Qed.

(** X19. A cluster whose topology is neither INSTANCE_GROUP nor
    INSTANCE_FLEET, compared letter for letter, is resolved without any
    call to the service, into an error that names the topology; if it
    passed the engine check and the clusters before it were resolved, this
    error is the outcome of the whole pass. *)
Theorem unrecognized_topology_fails_the_pass
  (c : ClusterProvider) (w w1 : World)
  (before after : list DescribeClusterOutput) (d : DescribeClusterOutput)
  (cl : Cluster) (t : string) :
  listTargetClusters c w = (Returns (before ++ d :: after, None), w1) ->
  (forall b, b ∈ before ->
     (exists a, resolution c b = Returns (a, None)) /\ is_Some (name_of b)) ->
  Cluster_ d = Some cl ->
  InstanceCollectionType cl = Some t ->
  t <> "INSTANCE_GROUP" ->
  t <> "INSTANCE_FLEET" ->
  getClusterMasterInstance c d w1 = (Returns (EmptyString, Some (UnrecognizedTopologyError t)), w1)
  /\ fst (listTargetMasters c w) = Returns (∅, Some (UnrecognizedTopologyError t)).
Proof.
  intros Hl Hb Hcl Ht Hg Hf.
  assert (Hres : forall w0, getClusterMasterInstance c d w0
                 = (Returns (EmptyString, Some (UnrecognizedTopologyError t)), w0)).
  { intros w0. unfold getClusterMasterInstance. go. rewrite Hcl. go. rewrite Ht. go.
    apply String.eqb_neq in Hg, Hf.
    unfold InstanceCollectionTypeInstanceGroup, InstanceCollectionTypeInstanceFleet.
    by rewrite Hg, Hf. }
  split; [apply Hres|].
  rewrite (listTargetMasters_eq c w _ w1 Hl).
  apply (range_first_failure c before d after ∅ w1 EmptyString); [exact Hb|].
  unfold resolution. by rewrite Hres.
Qed.

Lemma unrecognized_topology_fails_the_pass_witness :
  InstanceCollectionType
    (mkCluster (Some "j-ODD") (Some "odd") [mkApplication (Some "Trino")]
               (Some "instance_fleet")) = Some "instance_fleet"
  /\ fst (listTargetMasters passes.twins_and_odd NewClusterProvider_world)
     = Returns (∅, Some (errorString "unrecognized instance type instance_fleet")).
Proof.
  split; [reflexivity|].
  refine (proj2 (unrecognized_topology_fails_the_pass passes.twins_and_odd
            NewClusterProvider_world
            (snd (listTargetClusters passes.twins_and_odd NewClusterProvider_world))
            [passes.twin1] [passes.twin2] passes.odd
            (mkCluster (Some "j-ODD") (Some "odd") [mkApplication (Some "Trino")]
                       (Some "instance_fleet"))
            "instance_fleet" _ _ eq_refl eq_refl _ _)).
  - vm_compute. reflexivity.
  - intros b Hin. apply list_elem_of_singleton in Hin. subst b. split.
    + exists "10.1.0.1". vm_compute. reflexivity.
    + by exists "twin".
  - discriminate.
  - discriminate.
Defined.

Lemma first_resolution_failure_fails_the_pass_witness :
  resolution passes.twins_and_odd passes.odd
    = Returns (EmptyString, Some (errorString "unrecognized instance type instance_fleet"))
  /\ fst (Provide passes.twins_and_odd discovery.noon discovery.noon NewClusterProvider_world)
     = Returns (∅, Some (errorString "unrecognized instance type instance_fleet"))
  /\ cache_ (snd (Provide passes.twins_and_odd discovery.noon discovery.noon
                    NewClusterProvider_world))
     = cache_ NewClusterProvider_world.
Proof.
  assert (Hres : resolution passes.twins_and_odd passes.odd
            = Returns (EmptyString, Some (errorString "unrecognized instance type instance_fleet")))
    by (vm_compute; reflexivity).
  split; [exact Hres|].
  refine (proj2 (first_resolution_failure_fails_the_pass passes.twins_and_odd
            NewClusterProvider_world
            (snd (listTargetClusters passes.twins_and_odd NewClusterProvider_world))
            discovery.noon discovery.noon
            [passes.twin1] [passes.twin2] passes.odd EmptyString
            (errorString "unrecognized instance type instance_fleet") _ _ Hres eq_refl)).
  - vm_compute. reflexivity.
  - intros b Hin. apply list_elem_of_singleton in Hin. subst b. split.
    + exists "10.1.0.1". vm_compute. reflexivity.
    + by exists "twin".
Defined.

(** ** The calls of a pass *)

Lemma only_ret {A : Type} P (a : A) : only_calls P (mret a).
Proof. intros w. exists []. split; [by rewrite app_nil_r | constructor]. Qed.

Lemma only_panic {A : Type} P : only_calls P (@panic A).
Proof. intros w. exists []. split; [by rewrite app_nil_r | constructor]. Qed.

Lemma only_deref {A : Type} P (p : option A) : only_calls P (deref p).
Proof. destruct p; [apply only_ret | apply only_panic]. Qed.

Lemma only_call (P : Call -> Prop) k : P k -> only_calls P (call k).
Proof. intros Hk w. exists [k]. split; [reflexivity | by constructor]. Qed.

Lemma only_bind {A B : Type} P (m : G A) (f : A -> G B) :
  only_calls P m -> (forall a, only_calls P (f a)) -> only_calls P (m ≫= f).
Proof.
  intros Hm Hf w. unfold mbind, G_bind. destruct (Hm w) as (ks & Hks & HP).
  destruct (m w) as [[a|] w1]; cbn in *; [|by exists ks].
  destruct (Hf a w1) as (ks' & Hks' & HP'). exists (ks ++ ks'). split.
  - by rewrite Hks', Hks, app_assoc.
  - by apply Forall_app.
Qed.

Ltac only_tac :=
  repeat first
    [ match goal with H : _ |- only_calls _ _ => apply H end
    | apply only_ret | apply only_panic | apply only_deref
    | apply only_call; exact id
    | apply only_bind; [|intros ?; cbn beta]
    | match goal with
      | |- only_calls _ (match ?x with _ => _ end) => destruct x
      | |- only_calls _ (if ?b then _ else _) => destruct b
      end ].

Lemma only_ListInstances c input : only_calls not_listing (emrClient_ListInstances c input).
Proof. unfold emrClient_ListInstances. only_tac. Qed.

Lemma only_NodeGroup_range c cl groups :
  only_calls not_listing (getMasterInstanceForNodeGroup_range c cl groups).
Proof.
  pose proof (only_ListInstances c).
  induction groups; cbn [getMasterInstanceForNodeGroup_range]; only_tac.
Qed.

Lemma only_getClusterMasterInstance c descr :
  only_calls not_listing (getClusterMasterInstance c descr).
Proof.
  pose proof (only_ListInstances c). pose proof (only_NodeGroup_range c).
  unfold getClusterMasterInstance, getMasterInstanceForNodeGroup, getMasterInstanceForFleet.
  only_tac.
Qed.

Lemma only_isTrinoInstalled descr : only_calls not_listing (isTrinoInstalled descr).
Proof.
  intros w. rewrite isTrinoInstalled_eq. exists []. split; [by rewrite app_nil_r | constructor].
Qed.

Lemma only_page c page : forall clusters,
  only_calls not_listing (listTargetClusters_page c page clusters).
Proof.
  pose proof only_isTrinoInstalled.
  induction page; intros clusters; cbn [listTargetClusters_page];
    unfold emrClient_DescribeCluster; only_tac.
Qed.

Lemma only_pages c pages : forall clusters,
  only_calls not_listing (listTargetClusters_pages c pages clusters).
Proof.
  pose proof (only_page c).
  induction pages; intros clusters; cbn [listTargetClusters_pages]; only_tac.
Qed.

Lemma only_masters_range c clusters : forall acc,
  only_calls not_listing (listTargetMasters_range c clusters acc).
Proof.
  pose proof (only_getClusterMasterInstance c).
  induction clusters; intros acc; cbn [listTargetMasters_range]; only_tac.
Qed.

Lemma pass_calls c w :
  exists rest,
    calls (snd (listTargetMasters c w))
    = calls w ++ CallListClusters (mkListClustersInput ["WAITING"]) :: rest
    /\ Forall not_listing rest.
Proof.
  pose proof (only_pages c) as Hp. pose proof (only_masters_range c) as Hm.
  assert (Hrest : only_calls not_listing
            (let '(pages, err) :=
               ListClustersPages (emrClient c) (mkListClustersInput ["WAITING"]) in
             '(clusters, err) ← (clusters ← listTargetClusters_pages c pages [];
                                 mret (clusters, as_error err));
             match err with
             | Some _ => mret (∅, err)
             | None => listTargetMasters_range c clusters ∅
             end)).
  { only_tac. }
  destruct (Hrest (mkWorld (cache_ w)
                     (calls w ++ [CallListClusters (mkListClustersInput ["WAITING"])])))
    as (rest & Hcalls & HP).
  exists rest. split; [|exact HP].
  cbn [calls] in Hcalls. rewrite <- app_assoc in Hcalls. cbn [app] in Hcalls.
  rewrite <- Hcalls. f_equal. f_equal.
  unfold listTargetMasters, listTargetClusters, emrClient_ListClustersPages, call.
  unfold mbind, G_bind, mret, G_ret.
  destruct (ListClustersPages (emrClient c) (mkListClustersInput ["WAITING"])) as [pages e].
  cbn. destruct (listTargetClusters_pages c pages [] _) as [[cl|] w1]; reflexivity.
Qed.


(** ** The cache at and after the expiry *)

Lemma Provide_miss_calls c now now' w :
  cache.Get (cache_ w) cacheKey now = None ->
  exists rest,
    calls_since w (snd (Provide c now now' w))
    = CallListClusters (mkListClustersInput ["WAITING"]) :: rest.
Proof.
  intros Hmiss. destruct (pass_calls c w) as (rest & Hcalls & _). exists rest.
  unfold calls_since, Provide, cache_Get, cache_Set. unfold mbind, G_bind, mret, G_ret.
  rewrite Hmiss. destruct (listTargetMasters c w) as [[[m [e|]]|] w1]; cbn in *;
    by rewrite Hcalls, drop_app_length.
Qed.

(** X21. The expiry is inclusive: a snapshot in the cache is returned, with
    no call to the service, at every instant up to and including its
    expiry; at any later instant [Provide] starts a discovery pass, whose
    first call is the listing. *)
Theorem snapshot_is_served_until_expiry
  (c : ClusterProvider) (w : World) (now now' : Z)
  (item : cache.Item (gmap string ClusterInfo)) :
  cache.items (cache_ w) !! cacheKey = Some item ->
  0 < cache.Expiration item ->
  (now <= cache.Expiration item ->
     Provide c now now' w = (Returns (cache.Object item, None), w))
  /\ (cache.Expiration item < now ->
        exists rest,
          calls_since w (snd (Provide c now now' w))
          = CallListClusters (mkListClustersInput ["WAITING"]) :: rest).
Proof.
  intros Hi Hpos. split.
  - intros Hle. unfold Provide, cache_Get. unfold mbind, G_bind, mret, G_ret.
    unfold cache.Get. rewrite Hi.
    replace (cache.Expiration item <? now) with false by (symmetry; apply Z.ltb_ge; lia).
    by rewrite andb_false_r.
  - intros Hlt. apply Provide_miss_calls. unfold cache.Get. rewrite Hi.
    apply Z.ltb_lt in Hpos, Hlt. by rewrite Hpos, Hlt.
Qed.

Lemma snapshot_is_served_until_expiry_witness :
  cache.items (cache_ passes.cached) !! cacheKey
    = Some (cache.mkItem discovery.snapshot (discovery.noon + 30 * time_Minute))
  /\ Provide discovery.throttled (discovery.noon + 30 * time_Minute)
       (discovery.noon + 30 * time_Minute) passes.cached
     = (Returns (discovery.snapshot, None), passes.cached)
  /\ exists rest,
       calls_since passes.cached
         (snd (Provide discovery.service (discovery.noon + 30 * time_Minute + 1)
                 (discovery.noon + 30 * time_Minute + 1) passes.cached))
       = CallListClusters (mkListClustersInput ["WAITING"]) :: rest.
Proof.
  assert (Hi : cache.items (cache_ passes.cached) !! cacheKey
               = Some (cache.mkItem discovery.snapshot (discovery.noon + 30 * time_Minute)))
    by (apply cache_Set_item).
  split; [exact Hi|]. split.
  - apply (proj1 (snapshot_is_served_until_expiry discovery.throttled passes.cached
                    (discovery.noon + 30 * time_Minute) (discovery.noon + 30 * time_Minute)
                    _ Hi ltac:(vm_compute; reflexivity))).
    cbn. lia.
  - apply (proj2 (snapshot_is_served_until_expiry discovery.service passes.cached
                    (discovery.noon + 30 * time_Minute + 1)
                    (discovery.noon + 30 * time_Minute + 1)
                    _ Hi ltac:(vm_compute; reflexivity))).
    cbn. lia.
Defined.

(** X22. A snapshot that has expired is not a fallback: when the pass that
    replaces it fails, [Provide] returns the error with the nil map, not
    the old snapshot, and the call leaves the entry of the old snapshot in
    the cache as it was. *)
Theorem expired_snapshot_is_not_served
  (c : ClusterProvider) (w w' : World) (now now' : Z)
  (item : cache.Item (gmap string ClusterInfo)) (m : gmap string ClusterInfo) (e : error) :
  cache.items (cache_ w) !! cacheKey = Some item ->
  0 < cache.Expiration item ->
  cache.Expiration item < now ->
  listTargetMasters c w = (Returns (m, Some e), w') ->
  Provide c now now' w = (Returns (∅, Some e), w')
  /\ cache.items (cache_ w') !! cacheKey = Some item.
Proof.
  intros Hi Hpos Hlt Hpass.
  pose proof (keeps_listTargetMasters c w) as Hk. rewrite Hpass in Hk. cbn in Hk.
  split; [|by rewrite Hk].
  unfold Provide, cache_Get. unfold mbind, G_bind, mret, G_ret.
  unfold cache.Get. rewrite Hi. apply Z.ltb_lt in Hpos, Hlt. rewrite Hpos, Hlt. cbn.
  by rewrite Hpass.
Qed.

Lemma expired_snapshot_is_not_served_witness :
  listTargetMasters passes.unlisted passes.cached
    = (Returns (∅, Some (awsError "AccessDeniedException" "not authorized")),
       snd (listTargetMasters passes.unlisted passes.cached))
  /\ fst (Provide passes.unlisted (discovery.noon + 31 * time_Minute)
            (discovery.noon + 31 * time_Minute) passes.cached)
     = Returns (∅, Some (awsError "AccessDeniedException" "not authorized")).
Proof.
  assert (Hpass : listTargetMasters passes.unlisted passes.cached
            = (Returns (∅, Some (awsError "AccessDeniedException" "not authorized")),
               snd (listTargetMasters passes.unlisted passes.cached)))
    by (vm_compute; reflexivity).
  split; [exact Hpass|].
  rewrite (proj1 (expired_snapshot_is_not_served passes.unlisted passes.cached
                    (snd (listTargetMasters passes.unlisted passes.cached))
                    (discovery.noon + 31 * time_Minute) (discovery.noon + 31 * time_Minute)
                    (cache.mkItem discovery.snapshot (discovery.noon + 30 * time_Minute))
                    ∅ (awsError "AccessDeniedException" "not authorized")
                    (cache_Set_item _ _ _ _) ltac:(vm_compute; reflexivity)
                    ltac:(vm_compute; reflexivity) Hpass)).
  reflexivity.
Defined.

(** X23. Whenever [Provide] returns an error, the cache had no fresh
    snapshot, the map it returns is the nil map (never a part of a
    snapshot), and the cache is left as it was. *)
Theorem Provide_error_comes_with_no_snapshot
  (c : ClusterProvider) (w w' : World) (now now' : Z)
  (m : gmap string ClusterInfo) (e : error) :
  Provide c now now' w = (Returns (m, Some e), w') ->
  m = ∅ /\ cache_ w' = cache_ w /\ cache.Get (cache_ w) cacheKey now = None.
Proof.
  intros H. destruct (Provide_error_leaves_cache c now now' w m e w' H) as [Hm Hc].
  split; [exact Hm|]. split; [exact Hc|].
  unfold Provide, cache_Get in H. unfold mbind, G_bind, mret, G_ret in H.
  by destruct (cache.Get (cache_ w) cacheKey now).
Qed.

Lemma Provide_error_comes_with_no_snapshot_witness :
  Provide passes.unlisted discovery.noon discovery.noon NewClusterProvider_world
    = (Returns (∅, Some (awsError "AccessDeniedException" "not authorized")),
       mkWorld (cache_ NewClusterProvider_world)
               [CallListClusters (mkListClustersInput ["WAITING"])])
  /\ (∅ : gmap string ClusterInfo) = ∅
  /\ cache.Get (cache_ NewClusterProvider_world) cacheKey discovery.noon = None.
Proof.
  assert (H : Provide passes.unlisted discovery.noon discovery.noon NewClusterProvider_world
              = (Returns (∅, Some (awsError "AccessDeniedException" "not authorized")),
                 mkWorld (cache_ NewClusterProvider_world)
                         [CallListClusters (mkListClustersInput ["WAITING"])]))
    by (vm_compute; reflexivity).
  destruct (Provide_error_comes_with_no_snapshot _ _ _ _ _ _ _ H) as (H1 & _ & H3).
  split; [exact H|]. split; [exact H1 | exact H3].
Defined.

(** X24. The error that [DescribeCluster] returns is never looked at: two
    services that list the same clusters, answer the queries for instances
    alike and describe the clusters with the same outputs give the same
    outcome and the same state, whatever errors come beside the outputs. *)
Theorem describe_error_has_no_effect (a b : EMR) (w : World) (now now' : Z) :
  same_but_describe_errors a b ->
  Provide (mkClusterProvider a) now now' w = Provide (mkClusterProvider b) now now' w.
Proof. intros H. by apply describe_errors_are_ignored. Qed.

Lemma describe_error_has_no_effect_witness :
  same_but_describe_errors (emrClient discovery.service) (emrClient passes.noisy)
  /\ snd (DescribeCluster (emrClient passes.noisy) (mkDescribeClusterInput (Some "j-FLEET")))
     = Some (mkAwserr "ThrottlingException" "Rate exceeded")
  /\ Provide discovery.service discovery.noon discovery.noon NewClusterProvider_world
     = Provide passes.noisy discovery.noon discovery.noon NewClusterProvider_world.
Proof.
  assert (Hsame : same_but_describe_errors (emrClient discovery.service)
                    (emrClient passes.noisy)).
  { split; [|split]; intros input; reflexivity. }
  split; [exact Hsame|]. split; [reflexivity|].
  apply (describe_error_has_no_effect (emrClient discovery.service) (emrClient passes.noisy)
           NewClusterProvider_world discovery.noon discovery.noon Hsame).
Defined.

End ProviderCoverage.
